(** * QuizApp: the quiz session, the question sampler and the scoring engine

    A shallow embedding of [quiz/models.py], [quiz/forms.py] and
    [quiz/views.py], with the list columns of [quiz/admin.py] and the
    duration filter of [quiz/templatetags/quiz_extras.py].  The relational
    tables are finite maps keyed by primary
    key (or, for [QuizQuestionStatus], by its [unique_together] pair), the
    [QuizAnswer] table is a list of rows in creation order (the model declares
    no uniqueness constraint on it), the browser session is a pair of finite
    maps keyed by quiz id, and a view is a state-passing computation that may
    return early with a response.

    Conventions of the embedding:
    - Python's unbounded [int] is [Z]; a count is a [nat] injected into [Z].
    - Python's [float] arithmetic of the scoring formula is carried out in
      exact rationals [Q] (compared with [==]): the embedding does not model
      binary64 rounding.
    - Python [str] is [string]; [lower] and [strip] act on the ASCII range.
    - [timezone.now()] and the draws of the process-wide random generator are
      explicit arguments. *)

From Stdlib Require Import Ascii QArith Qminmax Lqa.
From stdpp Require Import gmap strings list fin_maps pretty.

Local Open Scope string_scope.

(** ** Data model ([quiz/models.py]) *)

Inductive Difficulty := easy | medium | hard.

Global Instance Difficulty_eq_dec : EqDecision Difficulty.
Proof. solve_decision. Defined.

(** The [difficulty] argument of [get_questions_for_source] and the choices of
    the form field: ['all'] or one of the three tiers. *)
Inductive DifficultyFilter := all | only (d : Difficulty).

(** [QuizQuestionStatus.STATUS_CHOICES]. *)
Inductive Status :=
  | unattempted
  | attempted
  | marked_for_review
  | answered_and_marked.

Global Instance Status_eq_dec : EqDecision Status.
Proof. solve_decision. Defined.

Module Book.
Record t := { title : string; author : string }.
End Book.

Module Chapter.
Record t := { book : nat; title : string; chapter_number : nat }.
End Chapter.

Module Question.
Record t := {
  chapter : nat;
  question_text : string;
  correct_answer : string;
  difficulty : Difficulty
}.
End Question.

Module Quiz.
Record t := {
  user : nat;
  chapter : option nat;
  book : option nat;
  title : string;
  end_time : option Z;
  duration_minutes : nat;
  score : option Q;
  total_questions : nat;
  correct_answers : nat;
  is_completed : bool
}.
End Quiz.

Module QuizAnswer.
Record t := {
  quiz : nat;
  question : nat;
  user_answer : string;
  is_correct : bool
}.
End QuizAnswer.

(** The database.  [answers] is in creation order, which is also the order of
    [answered_at]; [statuses] is keyed by (quiz, question). *)
Record DB := {
  books : gmap nat Book.t;
  chapters : gmap nat Chapter.t;
  questions : gmap nat Question.t;
  quizzes : gmap nat Quiz.t;
  answers : list QuizAnswer.t;
  statuses : gmap (nat * nat) Status
}.

(** [request.session]: the keys [quiz_<id>_questions] and [quiz_<id>_current]. *)
Record Session := {
  session_questions : gmap nat (list nat);
  session_current : gmap nat Z
}.

(** ** Requests, messages and responses *)

Inductive Method := GET | POST.

Inductive QuizType := quiz_type_chapter | quiz_type_book.

(** A posted value read with [int(...)]: an integer literal or anything else. *)
Inductive IntParam := int_literal (z : Z) | not_an_int.

(** [request.POST], one field per key the views and the form read; [None] is
    an absent key (for the form's choice and integer fields also a value the
    field cannot parse). *)
Record PostData := {
  action : option string;
  answer : option string;
  question_index : option IntParam;
  quiz_type : option QuizType;
  chapter : option nat;
  book : option nat;
  num_questions : option Z;
  difficulty : option DifficultyFilter;
  duration_minutes : option nat
}.

Record Request := {
  user : option nat;
  method : Method;
  post : PostData
}.

Inductive Level := info | success | error.

Record Message := { level : Level; text : string }.

Inductive FormError :=
  | field_error (name : string)
  | non_field_error (msg : string).

Inductive Source := SrcChapter (id : nat) | SrcBook (id : nat).

Record StartQuizContext := {
  form_errors : list FormError;
  form_initial_num_questions : option nat;
  source : Source;
  easy_count : nat;
  medium_count : nat;
  hard_count : nat;
  is_book_quiz : bool
}.

Record TakeQuizContext := {
  tq_quiz : Quiz.t;
  tq_question : nat;
  tq_question_number : Z;
  tq_total_questions : nat;
  tq_progress : Q;
  tq_question_ids : list nat;
  tq_current_index : Z;
  tq_question_statuses : gmap nat Status;
  tq_attempted_count : nat;
  tq_marked_count : nat;
  tq_unattempted_count : Z;
  tq_current_answer : option QuizAnswer.t
}.

Record QuizResultsContext := {
  qr_quiz : Quiz.t;
  qr_answers : list QuizAnswer.t;
  qr_correct_count : nat;
  qr_wrong_count : nat;
  qr_attempted_count : nat;
  qr_unattempted_count : Z;
  qr_raw_score : Q;
  qr_max_possible_score : Q
}.

Inductive Exception :=
  | MultipleObjectsReturned
  | IndexError
  | ValueError.

Inductive Response :=
  | RedirectLogin
  | Http404
  | ServerError (e : Exception)
  | RedirectTakeQuiz (quiz_id : nat)
  | RedirectQuizResults (quiz_id : nat)
  | RenderStartQuiz (ctx : StartQuizContext)
  | RenderTakeQuiz (ctx : TakeQuizContext)
  | RenderQuizResults (ctx : QuizResultsContext).

(** A response that refuses the request: the login redirect, a 404 or an
    uncaught exception. *)
Definition is_rejection (r : Response) : bool :=
  match r with
  | RedirectLogin | Http404 | ServerError _ => true
  | _ => false
  end.

(** ** Views as state-passing computations with early return *)

Record World := {
  db : DB;
  session : Session;
  messages : list Message
}.

Inductive Flow (A : Type) :=
  | Continue (a : A)
  | Return (r : Response).
Arguments Continue {A} a.
Arguments Return {A} r.

Definition View (A : Type) : Type := World → Flow A * World.

Definition ret {A} (a : A) : View A := λ w, (Continue a, w).

Definition bind {A B} (m : View A) (k : A → View B) : View B :=
  λ w, match m w with
       | (Continue a, w') => k a w'
       | (Return r, w') => (Return r, w')
       end.

Global Instance View_ret : MRet View := @ret.
Global Instance View_bind : MBind View := λ A B k m, bind m k.

(** [return response] and an uncaught exception both end the view. *)
Definition respond {A} (r : Response) : View A := λ w, (Return r, w).
Definition raise {A} (e : Exception) : View A := respond (ServerError e).

Definition get_db : View DB := λ w, (Continue (db w), w).
Definition put_db (d : DB) : View unit :=
  λ w, (Continue tt, {| db := d; session := session w; messages := messages w |}).
Definition get_session : View Session := λ w, (Continue (session w), w).
Definition put_session (s : Session) : View unit :=
  λ w, (Continue tt, {| db := db w; session := s; messages := messages w |}).

(** [messages.info], [messages.success], [messages.error]. *)
Definition add_message (l : Level) (t : string) : View unit :=
  λ w, (Continue tt,
        {| db := db w; session := session w;
           messages := (messages w ++ [ {| level := l; text := t |} ])%list |}).

(** Running a view: the response and the world it leaves. *)
Definition run (v : View Response) (w : World) : Response * World :=
  match v w with
  | (Continue r, w') => (r, w')
  | (Return r, w') => (r, w')
  end.

(** [@login_required]. *)
Definition login_required (request : Request) : View nat :=
  match user request with
  | Some u => ret u
  | None => respond RedirectLogin
  end.

(** ** Python strings: [str.lower] and [str.strip] on ASCII *)

Definition ascii_lower (c : ascii) : ascii :=
  let n := nat_of_ascii c in
  if (65 <=? n)%nat && (n <=? 90)%nat then ascii_of_nat (n + 32) else c.

Fixpoint lower (s : string) : string :=
  match s with
  | EmptyString => EmptyString
  | String c s' => String (ascii_lower c) (lower s')
  end.

(** [str.isspace] on one ASCII character: TAB..CR, FS..US and the space. *)
Definition isspace (c : ascii) : bool :=
  let n := nat_of_ascii c in
  ((9 <=? n)%nat && (n <=? 13)%nat) || ((28 <=? n)%nat && (n <=? 32)%nat).

Fixpoint lstrip (s : string) : string :=
  match s with
  | EmptyString => EmptyString
  | String c s' => if isspace c then lstrip s' else s
  end.

Fixpoint rstrip (s : string) : string :=
  match s with
  | EmptyString => EmptyString
  | String c s' =>
      match rstrip s' with
      | EmptyString => if isspace c then EmptyString else String c EmptyString
      | r => String c r
      end
  end.

Definition strip (s : string) : string := rstrip (lstrip s).

(** Truth value of a [str]: non-empty. *)
Definition truthy (s : string) : bool :=
  match s with EmptyString => false | _ => true end.

(** [l[i]] for a Python list: a negative index counts from the end, and an
    index outside [-len, len) raises [IndexError] ([None] here). *)
Definition py_getitem {A} (l : list A) (i : Z) : option A :=
  if (0 <=? i)%Z then l !! Z.to_nat i
  else if (- Z.of_nat (length l) <=? i)%Z then l !! Z.to_nat (Z.of_nat (length l) + i)
  else None.

(** ** The ORM operations the views use *)

(** [get_object_or_404]: the looked-up row, or a 404 response. *)
Definition get_object_or_404 {A} (o : option A) : View A :=
  match o with
  | Some a => mret a
  | None => respond Http404
  end.

Inductive GetResult (A : Type) :=
  | Got (a : A)
  | DoesNotExist
  | MultipleObjects.
Arguments Got {A} a.
Arguments DoesNotExist {A}.
Arguments MultipleObjects {A}.

Definition answer_matches (quiz question : nat) (a : QuizAnswer.t) : bool :=
  (QuizAnswer.quiz a =? quiz)%nat && (QuizAnswer.question a =? question)%nat.

(** [QuizAnswer.objects.get(quiz=quiz, question=question)]. *)
Definition QuizAnswer_get (d : DB) (quiz question : nat) : GetResult QuizAnswer.t :=
  match List.filter (answer_matches quiz question) (answers d) with
  | [] => DoesNotExist
  | [a] => Got a
  | _ => MultipleObjects
  end.

Definition with_answers (d : DB) (l : list QuizAnswer.t) : DB :=
  {| books := books d; chapters := chapters d; questions := questions d;
     quizzes := quizzes d; answers := l; statuses := statuses d |}.

Definition with_statuses (d : DB) (s : gmap (nat * nat) Status) : DB :=
  {| books := books d; chapters := chapters d; questions := questions d;
     quizzes := quizzes d; answers := answers d; statuses := s |}.

Definition with_quizzes (d : DB) (q : gmap nat Quiz.t) : DB :=
  {| books := books d; chapters := chapters d; questions := questions d;
     quizzes := q; answers := answers d; statuses := statuses d |}.

(** [QuizAnswer.objects.create(...)]: a new row, last in creation order. *)
Definition QuizAnswer_create (a : QuizAnswer.t) (d : DB) : DB :=
  with_answers d (answers d ++ [a])%list.

(** [quiz_answer.delete()] for the row [get] returned; [get] returns a row
    only when it is the single one of its (quiz, question). *)
Definition QuizAnswer_delete (quiz question : nat) (d : DB) : DB :=
  with_answers d (List.filter (λ a, negb (answer_matches quiz question a)) (answers d)).

(** [quiz_answer.save()] after assigning [user_answer] and [is_correct] to the
    row [get] returned. *)
Definition QuizAnswer_save (quiz question : nat) (ua : string) (ok : bool) (d : DB) : DB :=
  with_answers d
    (List.map (λ a, if answer_matches quiz question a
                    then {| QuizAnswer.quiz := QuizAnswer.quiz a;
                            QuizAnswer.question := QuizAnswer.question a;
                            QuizAnswer.user_answer := ua;
                            QuizAnswer.is_correct := ok |}
                    else a) (answers d)).

(** [quiz.answers.all()], in creation order. *)
Definition quiz_answers (d : DB) (quiz : nat) : list QuizAnswer.t :=
  List.filter (λ a, (QuizAnswer.quiz a =? quiz)%nat) (answers d).

(** [answers.filter(is_correct=b).count()]. *)
Definition count_is_correct (b : bool) (l : list QuizAnswer.t) : nat :=
  length (List.filter (λ a, Bool.eqb (QuizAnswer.is_correct a) b) l).

(** ** [get_questions_for_source] ([views.py] and [forms.py], same body) *)

Definition in_source (d : DB) (source : Source) (q : Question.t) : Prop :=
  match source with
  | SrcChapter c => Question.chapter q = c
  | SrcBook b =>
      match chapters d !! Question.chapter q with
      | Some ch => Chapter.book ch = b
      | None => False
      end
  end.

Global Instance in_source_dec d source q : Decision (in_source d source q).
Proof. destruct source; simpl; [| destruct (chapters d !! _)]; apply _. Defined.

(** A queryset of questions is the sub-table of its rows.  A [Source] is a
    chapter or a book by construction, so the [Question.objects.none()] branch
    for any other object has no counterpart. *)
Definition get_questions_for_source (d : DB) (source : Source)
    (difficulty : DifficultyFilter) : gmap nat Question.t :=
  let questions_qs := filter (λ kv, in_source d source kv.2) (questions d) in
  match difficulty with
  | all => questions_qs
  | only x => filter (λ kv, Question.difficulty kv.2 = x) questions_qs
  end.

(** ** [random.sample]

    Python's library function, by its pool-selection loop: the [i]-th pick is
    position [randbelow(n - i)] of the pool and the last live element of the
    pool takes its place.  [rng i] is the [i]-th draw of the generator; it is
    reduced below the bound as [randbelow] guarantees.  [None] is the
    [ValueError] for a sample larger than the population.  (For a population
    much larger than the sample CPython draws positions and redraws those
    already taken instead; the embedding uses the pool loop at every size.) *)
Fixpoint sample_loop {A} (rng : nat → nat) (n : nat) (pool : list A)
    (i steps : nat) : list A :=
  match steps with
  | O => []
  | S steps' =>
      let j := (rng i `mod` (n - i))%nat in
      match pool !! j, pool !! (n - i - 1)%nat with
      | Some x, Some y => x :: sample_loop rng n (<[j := y]> pool) (S i) steps'
      | _, _ => []
      end
  end.

Definition random_sample {A} (rng : nat → nat) (population : list A) (k : Z)
    : option (list A) :=
  if ((0 <=? k) && (k <=? Z.of_nat (length population)))%Z
  then Some (sample_loop rng (length population) population 0 (Z.to_nat k))
  else None.

(** ** [QuizSelectionForm] ([forms.py]) *)

(** [form.cleaned_data]: a key is absent ([None]) when its field failed, and
    [chapter] and [book] are also [None] when left empty. *)
Record CleanedData := {
  cleaned_quiz_type : option QuizType;
  cleaned_chapter : option nat;
  cleaned_book : option nat;
  cleaned_num_questions : option Z;
  cleaned_difficulty : option DifficultyFilter;
  cleaned_duration_minutes : option nat
}.

Definition difficulty_str (x : Difficulty) : string :=
  match x with easy => "easy" | medium => "medium" | hard => "hard" end.

(** The choices of the [duration_minutes] field. *)
Definition duration_choices : list nat := [15; 30; 45; 60; 90; 120]%nat.

(** Field validation.  [chapter_queryset] and [book_queryset] are the
    querysets the view leaves on the two [ModelChoiceField]s. *)
Definition clean_fields (chapter_queryset book_queryset : nat → bool)
    (data : PostData) : CleanedData * list FormError :=
  let e_quiz_type :=
    match quiz_type data with None => [field_error "quiz_type"] | Some _ => [] end in
  let chapter_ok :=
    match chapter data with Some c => chapter_queryset c | None => true end in
  let book_ok :=
    match book data with Some b => book_queryset b | None => true end in
  let num_ok :=
    match num_questions data with
    | Some n => ((1 <=? n) && (n <=? 50))%Z
    | None => false
    end in
  let e_difficulty :=
    match difficulty data with None => [field_error "difficulty"] | Some _ => [] end in
  let duration_ok :=
    match duration_minutes data with
    | Some m => bool_decide (m ∈ duration_choices)
    | None => false
    end in
  ({| cleaned_quiz_type := quiz_type data;
      cleaned_chapter := if chapter_ok then chapter data else None;
      cleaned_book := if book_ok then book data else None;
      cleaned_num_questions := if num_ok then num_questions data else None;
      cleaned_difficulty := difficulty data;
      cleaned_duration_minutes := if duration_ok then duration_minutes data else None |},
   (e_quiz_type
    ++ (if chapter_ok then [] else [field_error "chapter"])
    ++ (if book_ok then [] else [field_error "book"])
    ++ (if num_ok then [] else [field_error "num_questions"])
    ++ e_difficulty
    ++ (if duration_ok then [] else [field_error "duration_minutes"]))%list).

(** The message of the [ValidationError] that [clean] raises when more
    questions are requested than [available]. *)
Definition only_available_error (is_chapter : bool) (difficulty : DifficultyFilter)
    (available : nat) : string :=
  let place := if is_chapter then "chapter" else "book" in
  (match difficulty with
   | all => "Only " +:+ pretty available +:+ " questions available in this " +:+ place +:+ "."
   | only x => "Only " +:+ pretty available +:+ " " +:+ difficulty_str x
               +:+ " questions available in this " +:+ place +:+ "."
   end) +:+ " Please select " +:+ pretty available +:+ " or fewer questions.".

(** [QuizSelectionForm.clean]: [Some msg] is [raise forms.ValidationError(msg)]. *)
Definition QuizSelectionForm_clean (d : DB) (cleaned_data : CleanedData) : option string :=
  let quiz_type := cleaned_quiz_type cleaned_data in
  let chapter := cleaned_chapter cleaned_data in
  let book := cleaned_book cleaned_data in
  let num_questions := cleaned_num_questions cleaned_data in
  let difficulty := default all (cleaned_difficulty cleaned_data) in
  match quiz_type, chapter, book with
  | Some quiz_type_chapter, None, _ => Some "Please select a chapter for chapter quiz."
  | Some quiz_type_book, _, None => Some "Please select a book for book quiz."
  | _, _, _ =>
      match num_questions with
      | Some n =>
          if (n =? 0)%Z then None else
          let available_questions :=
            match quiz_type, chapter, book with
            | Some quiz_type_chapter, Some c, _ =>
                size (get_questions_for_source d (SrcChapter c) difficulty)
            | Some quiz_type_book, _, Some b =>
                size (get_questions_for_source d (SrcBook b) difficulty)
            | _, _, _ => O
            end in
          if ((0 <? Z.of_nat available_questions) && (Z.of_nat available_questions <? n))%Z
          then Some (only_available_error
                       (match quiz_type with Some quiz_type_chapter => true | _ => false end)
                       difficulty available_questions)
          else None
      | None => None
      end
  end.

(** [form.is_valid()] with the errors it collects: the field errors, then the
    error of [clean].  Django runs [clean] also when a field failed. *)
Definition QuizSelectionForm_errors (d : DB) (chapter_queryset book_queryset : nat → bool)
    (data : PostData) : CleanedData * list FormError :=
  let '(cleaned_data, errs) := clean_fields chapter_queryset book_queryset data in
  (cleaned_data,
   (errs ++ match QuizSelectionForm_clean d cleaned_data with
            | Some msg => [non_field_error msg]
            | None => []
            end)%list).

(** ** [start_quiz] and [start_book_quiz] ([views.py])

    The two views have the same body up to the kind of source: which table the
    id is looked up in, which form field is narrowed to that id, which foreign
    key of the new [Quiz] is set, and the title.  [start_quiz_for] is that
    body. *)

Definition source_exists (d : DB) (source : Source) : option Source :=
  match source with
  | SrcChapter c => (λ _, source) <$> chapters d !! c
  | SrcBook b => (λ _, source) <$> books d !! b
  end.

Definition source_is_book (source : Source) : bool :=
  match source with SrcChapter _ => false | SrcBook _ => true end.

(** The querysets of the form's [chapter] and [book] fields after the view
    narrowed the one of its own source to [filter(id=...)]. *)
Definition chapter_queryset (d : DB) (source : Source) (c : nat) : bool :=
  match source with
  | SrcChapter c0 => bool_decide (c = c0) && bool_decide (is_Some (chapters d !! c))
  | SrcBook _ => bool_decide (is_Some (chapters d !! c))
  end.

Definition book_queryset (d : DB) (source : Source) (b : nat) : bool :=
  match source with
  | SrcChapter _ => bool_decide (is_Some (books d !! b))
  | SrcBook b0 => bool_decide (b = b0) && bool_decide (is_Some (books d !! b))
  end.

Definition quiz_title (d : DB) (source : Source) : string :=
  match source with
  | SrcChapter c => default "" (Chapter.title <$> chapters d !! c) +:+ " Quiz"
  | SrcBook b => default "" (Book.title <$> books d !! b) +:+ " - Complete Book Quiz"
  end.

(** [all_questions.filter(difficulty=x).count()] for the three tiers. *)
Definition difficulty_count (d : DB) (source : Source) (x : Difficulty) : nat :=
  size (filter (λ kv : nat * Question.t, Question.difficulty kv.2 = x)
          (get_questions_for_source d source all)).

Definition start_quiz_context (d : DB) (source : Source) (errs : list FormError)
    (initial : option nat) : StartQuizContext :=
  {| form_errors := errs;
     form_initial_num_questions := initial;
     source := source;
     easy_count := difficulty_count d source easy;
     medium_count := difficulty_count d source medium;
     hard_count := difficulty_count d source hard;
     is_book_quiz := source_is_book source |}.

(** [Quiz.objects.create(...)]: the new row under an id no quiz has. *)
Definition Quiz_create (q : Quiz.t) : View nat :=
  d ← get_db;
  let id := fresh (dom (quizzes d)) in
  put_db (with_quizzes d (<[id := q]> (quizzes d)));;
  mret id.

Definition start_quiz_for (source : Source) (rng : nat → nat) (request : Request)
    : View Response :=
  user ← login_required request;
  d ← get_db;
  source ← get_object_or_404 (source_exists d source);
  match method request with
  | POST =>
      let '(cleaned_data, errs) :=
        QuizSelectionForm_errors d (chapter_queryset d source) (book_queryset d source)
          (post request) in
      match errs, cleaned_num_questions cleaned_data, cleaned_difficulty cleaned_data,
            cleaned_duration_minutes cleaned_data with
      | [], Some num_questions, Some difficulty, Some duration_minutes =>
          let questions_qs := get_questions_for_source d source difficulty in
          if (Z.of_nat (size questions_qs) <? num_questions)%Z then
            add_message error
              ("Only " +:+ pretty (size questions_qs)
               +:+ " questions available for selected criteria.");;
            mret (RenderStartQuiz (start_quiz_context d source [] None))
          else
            quiz_id ← Quiz_create
              {| Quiz.user := user;
                 Quiz.chapter := match source with SrcChapter c => Some c | _ => None end;
                 Quiz.book := match source with SrcBook b => Some b | _ => None end;
                 Quiz.title := quiz_title d source;
                 Quiz.end_time := None;
                 Quiz.duration_minutes := duration_minutes;
                 Quiz.score := None;
                 Quiz.total_questions := Z.to_nat num_questions;
                 Quiz.correct_answers := 0;
                 Quiz.is_completed := false |};
            match random_sample rng (map_to_list questions_qs) num_questions with
            | None => raise ValueError
            | Some questions =>
                s ← get_session;
                put_session
                  {| session_questions := <[quiz_id := questions.*1]> (session_questions s);
                     session_current := <[quiz_id := 0%Z]> (session_current s) |};;
                respond (RedirectTakeQuiz quiz_id)
            end
      | _, _, _, _ =>
          mret (RenderStartQuiz (start_quiz_context d source errs None))
      end
  | GET =>
      let total_questions := size (get_questions_for_source d source all) in
      let suggested_questions := (10 `min` total_questions)%nat in
      mret (RenderStartQuiz (start_quiz_context d source [] (Some suggested_questions)))
  end.

Definition start_quiz (rng : nat → nat) (request : Request) (chapter_id : nat)
    : View Response :=
  start_quiz_for (SrcChapter chapter_id) rng request.

Definition start_book_quiz (rng : nat → nat) (request : Request) (book_id : nat)
    : View Response :=
  start_quiz_for (SrcBook book_id) rng request.

(** ** [take_quiz] ([views.py]) *)

(** [Quiz] row [quiz_id] of [user], if any. *)
Definition Quiz_of_user (d : DB) (quiz_id user : nat) : option Quiz.t :=
  match quizzes d !! quiz_id with
  | Some q => if (Quiz.user q =? user)%nat then Some q else None
  | None => None
  end.

(** The filter [id=quiz_id, user=request.user, is_completed=False]. *)
Definition Quiz_open_of_user (d : DB) (quiz_id user : nat) : option Quiz.t :=
  match Quiz_of_user d quiz_id user with
  | Some q => if Quiz.is_completed q then None else Some q
  | None => None
  end.

(** [QuizQuestionStatus.objects.get_or_create(..., defaults={'status': created})]
    followed, when the row existed, by the assignment [status.status = f old]
    and [status.save()]. *)
Definition status_get_or_create (quiz question : nat) (created : Status)
    (f : Status → Status) : View unit :=
  d ← get_db;
  match statuses d !! (quiz, question) with
  | None => put_db (with_statuses d (<[(quiz, question) := created]> (statuses d)))
  | Some old => put_db (with_statuses d (<[(quiz, question) := f old]> (statuses d)))
  end.

Definition action_mark_for_review (quiz_id question : nat) : View unit :=
  status_get_or_create quiz_id question marked_for_review
    (λ old, match old with
            | attempted => answered_and_marked
            | _ => marked_for_review
            end);;
  add_message info "Question marked for review.".

Definition action_clear_answer (quiz_id question : nat) : View unit :=
  d ← get_db;
  match QuizAnswer_get d quiz_id question with
  | Got _ =>
      put_db (QuizAnswer_delete quiz_id question d);;
      add_message success "Answer cleared successfully."
  | DoesNotExist => add_message info "No answer to clear for this question."
  | MultipleObjects => raise MultipleObjectsReturned
  end;;
  d ← get_db;
  match statuses d !! (quiz_id, question) with
  | Some answered_and_marked =>
      put_db (with_statuses d (<[(quiz_id, question) := marked_for_review]> (statuses d)))
  | Some attempted =>
      put_db (with_statuses d (<[(quiz_id, question) := unattempted]> (statuses d)))
  | Some _ => mret tt
  | None =>
      put_db (with_statuses d (<[(quiz_id, question) := unattempted]> (statuses d)))
  end.

Definition action_next (quiz_id question : nat) (correct_answer user_answer : string)
    (question_ids : list nat) (current_index : Z) : View unit :=
  let is_correct := String.eqb (lower user_answer) (lower correct_answer) in
  d ← get_db;
  match QuizAnswer_get d quiz_id question with
  | DoesNotExist =>
      put_db (QuizAnswer_create
                {| QuizAnswer.quiz := quiz_id; QuizAnswer.question := question;
                   QuizAnswer.user_answer := user_answer;
                   QuizAnswer.is_correct := is_correct |} d)
  | Got _ => put_db (QuizAnswer_save quiz_id question user_answer is_correct d)
  | MultipleObjects => raise MultipleObjectsReturned
  end;;
  status_get_or_create quiz_id question attempted
    (λ old, match old with
            | marked_for_review => answered_and_marked
            | _ => attempted
            end);;
  s ← get_session;
  put_session
    {| session_questions := session_questions s;
       session_current := <[quiz_id := (current_index + 1)%Z]> (session_current s) |};;
  if (Z.of_nat (length question_ids) <=? current_index + 1)%Z
  then respond (RedirectQuizResults quiz_id)
  else respond (RedirectTakeQuiz quiz_id).

Definition action_jump_to (quiz_id : nat) (param : option IntParam)
    (question_ids : list nat) : View unit :=
  match default (int_literal 0) param with
  | not_an_int => raise ValueError
  | int_literal target_index =>
      if ((0 <=? target_index) && (target_index <? Z.of_nat (length question_ids)))%Z
      then
        s ← get_session;
        put_session
          {| session_questions := session_questions s;
             session_current := <[quiz_id := target_index]> (session_current s) |};;
        respond (RedirectTakeQuiz quiz_id)
      else mret tt
  end.

(** The body of [if request.method == 'POST':]. *)
Definition take_quiz_post (data : PostData) (quiz_id question : nat)
    (correct_answer : string) (question_ids : list nat) (current_index : Z)
    : View unit :=
  let action := default "next" (action data) in
  let user_answer := strip (default "" (answer data)) in
  (if String.eqb action "mark_for_review" then
     action_mark_for_review quiz_id question
   else if String.eqb action "clear_answer" then
     action_clear_answer quiz_id question
   else if String.eqb action "next" && truthy user_answer then
     action_next quiz_id question correct_answer user_answer question_ids current_index
   else if String.eqb action "jump_to" then
     action_jump_to quiz_id (question_index data) question_ids
   else mret tt);;
  if negb (truthy user_answer) && String.eqb action "next"
  then add_message error "Please provide an answer."
  else mret tt.

(** ['marked' in s] on a status value. *)
Definition is_marked (s : Status) : bool :=
  match s with
  | marked_for_review | answered_and_marked => true
  | _ => false
  end.

Definition take_quiz_context (d : DB) (quiz : Quiz.t) (quiz_id question : nat)
    (question_ids : list nat) (current_index : Z)
    (current_answer : option QuizAnswer.t) : TakeQuizContext :=
  let question_statuses : gmap nat Status :=
    list_to_map (omap (λ q, (λ s, (q, s)) <$> statuses d !! (quiz_id, q)) question_ids) in
  let answered_question_ids : gset nat :=
    list_to_set
      (QuizAnswer.question <$>
         List.filter (λ a, bool_decide (QuizAnswer.question a ∈ question_ids))
           (quiz_answers d quiz_id)) in
  let total_questions := length question_ids in
  let attempted_count := size answered_question_ids in
  {| tq_quiz := quiz;
     tq_question := question;
     tq_question_number := (current_index + 1)%Z;
     tq_total_questions := total_questions;
     tq_progress :=
       (inject_Z (current_index + 1) / inject_Z (Z.of_nat (length question_ids))
        * inject_Z 100)%Q;
     tq_question_ids := question_ids;
     tq_current_index := current_index;
     tq_question_statuses := question_statuses;
     tq_attempted_count := attempted_count;
     tq_marked_count :=
       length (List.filter (λ kv, is_marked kv.2) (map_to_list question_statuses));
     tq_unattempted_count := (Z.of_nat total_questions - Z.of_nat attempted_count)%Z;
     tq_current_answer := current_answer |}.

(** The tail of the view: the status map and the counts are read back from
    the database, [current_answer] is fetched with [get] (absent when it does
    not exist), and the page is rendered. *)
Definition take_quiz_render (quiz : Quiz.t) (quiz_id question_id : nat)
    (question_ids : list nat) (current_index : Z) : View Response :=
  d ← get_db;
  match QuizAnswer_get d quiz_id question_id with
  | MultipleObjects => raise MultipleObjectsReturned
  | Got a =>
      mret (RenderTakeQuiz
              (take_quiz_context d quiz quiz_id question_id question_ids
                 current_index (Some a)))
  | DoesNotExist =>
      mret (RenderTakeQuiz
              (take_quiz_context d quiz quiz_id question_id question_ids
                 current_index None))
  end.

Definition take_quiz (request : Request) (quiz_id : nat) : View Response :=
  user ← login_required request;
  d ← get_db;
  quiz ← get_object_or_404 (Quiz_open_of_user d quiz_id user);
  s ← get_session;
  let question_ids := default [] (session_questions s !! quiz_id) in
  let current_index := default 0%Z (session_current s !! quiz_id) in
  if bool_decide (question_ids = [])
     || (Z.of_nat (length question_ids) <=? current_index)%Z
  then respond (RedirectQuizResults quiz_id)
  else
    match py_getitem question_ids current_index with
    | None => raise IndexError
    | Some question_id =>
        question ← get_object_or_404 (questions d !! question_id);
        match method request with
        | POST =>
            take_quiz_post (post request) quiz_id question_id
              (Question.correct_answer question) question_ids current_index
        | GET => mret tt
        end;;
        take_quiz_render quiz quiz_id question_id question_ids current_index
    end.

(** ** Scoring: [quiz_results] ([views.py]) and [Quiz.get_score_breakdown] *)

(** [a < b] on rationals, as a boolean. *)
Definition Qlt_bool (a b : Q) : bool := negb (Qle_bool b a).

(** Python's [max(a, b)]: [b] when [b > a], otherwise [a]. *)
Definition py_max (a b : Q) : Q := if Qlt_bool a b then b else a.

(** [(correct * 1.0) + (wrong * -0.25) + (unattempted * 0)]. *)
Definition raw_score_of (correct wrong : nat) (unattempted : Z) : Q :=
  (inject_Z (Z.of_nat correct) * 1 + inject_Z (Z.of_nat wrong) * -(1 # 4)
   + inject_Z (unattempted * 0))%Q.

(** [max(0, (raw_score / max_possible) * 100) if max_possible > 0 else 0]. *)
Definition percentage_of (raw_score max_possible : Q) : Q :=
  if Qlt_bool 0 max_possible
  then py_max 0 (raw_score / max_possible * inject_Z 100)%Q
  else 0%Q.

Record ScoreBreakdown := {
  correct_count : nat;
  wrong_count : nat;
  attempted_count : nat;
  unattempted_count : Z;
  raw_score : Q;
  max_possible : Q;
  percentage : Q
}.

(** [Quiz.get_score_breakdown(self)] for the quiz row [self] with id [quiz_id]. *)
Definition get_score_breakdown (d : DB) (quiz_id : nat) (self : Quiz.t) : ScoreBreakdown :=
  let answers := quiz_answers d quiz_id in
  let correct_count := count_is_correct true answers in
  let wrong_count := count_is_correct false answers in
  let attempted_count := length answers in
  let unattempted_count :=
    (Z.of_nat (Quiz.total_questions self) - Z.of_nat attempted_count)%Z in
  let raw_score := raw_score_of correct_count wrong_count unattempted_count in
  let max_possible := (inject_Z (Z.of_nat (Quiz.total_questions self)) * 1)%Q in
  {| correct_count := correct_count;
     wrong_count := wrong_count;
     attempted_count := attempted_count;
     unattempted_count := unattempted_count;
     raw_score := raw_score;
     max_possible := max_possible;
     percentage := percentage_of raw_score max_possible |}.

(** The body of [if not quiz.is_completed:]: the score is computed from the
    stored answers, written on the quiz with the end time and the completion
    flag, and the two session keys are dropped.  Returns the updated row. *)
Definition seal_quiz (now : Z) (quiz_id : nat) (quiz : Quiz.t) : View Quiz.t :=
  d ← get_db;
  let answers := quiz_answers d quiz_id in
  let correct_answers := count_is_correct true answers in
  let wrong_answers := count_is_correct false answers in
  let total_attempted := length answers in
  let total_questions := Quiz.total_questions quiz in
  let unattempted_questions := (Z.of_nat total_questions - Z.of_nat total_attempted)%Z in
  let raw_score := raw_score_of correct_answers wrong_answers unattempted_questions in
  let max_possible_score := (inject_Z (Z.of_nat total_questions) * 1)%Q in
  let percentage_score := percentage_of raw_score max_possible_score in
  let quiz' :=
    {| Quiz.user := Quiz.user quiz;
       Quiz.chapter := Quiz.chapter quiz;
       Quiz.book := Quiz.book quiz;
       Quiz.title := Quiz.title quiz;
       Quiz.end_time := Some now;
       Quiz.duration_minutes := Quiz.duration_minutes quiz;
       Quiz.score := Some percentage_score;
       Quiz.total_questions := Quiz.total_questions quiz;
       Quiz.correct_answers := correct_answers;
       Quiz.is_completed := true |} in
  put_db (with_quizzes d (<[quiz_id := quiz']> (quizzes d)));;
  s ← get_session;
  put_session
    {| session_questions := delete quiz_id (session_questions s);
       session_current := delete quiz_id (session_current s) |};;
  mret quiz'.

Definition quiz_results_context (d : DB) (quiz_id : nat) (quiz : Quiz.t)
    : QuizResultsContext :=
  let answers := quiz_answers d quiz_id in
  let correct_count := count_is_correct true answers in
  let wrong_count := count_is_correct false answers in
  let attempted_count := length answers in
  let unattempted_count :=
    (Z.of_nat (Quiz.total_questions quiz) - Z.of_nat attempted_count)%Z in
  {| qr_quiz := quiz;
     qr_answers := answers;
     qr_correct_count := correct_count;
     qr_wrong_count := wrong_count;
     qr_attempted_count := attempted_count;
     qr_unattempted_count := unattempted_count;
     qr_raw_score := raw_score_of correct_count wrong_count unattempted_count;
     qr_max_possible_score := (inject_Z (Z.of_nat (Quiz.total_questions quiz)) * 1)%Q |}.

(** [now] is the value of [timezone.now()] during the request. *)
Definition quiz_results (now : Z) (request : Request) (quiz_id : nat) : View Response :=
  user ← login_required request;
  d ← get_db;
  quiz ← get_object_or_404 (Quiz_of_user d quiz_id user);
  quiz ← (if Quiz.is_completed quiz then mret quiz else seal_quiz now quiz_id quiz);
  d ← get_db;
  mret (RenderQuizResults (quiz_results_context d quiz_id quiz)).

(** ** [Quiz.get_quiz_source], [Quiz.get_quiz_type] and the check constraint
    ([models.py]) *)

(** [get_quiz_source]: the book if one is set, else the chapter if one is
    set, else [None]. *)
Definition get_quiz_source (self : Quiz.t) : option Source :=
  match Quiz.book self with
  | Some b => Some (SrcBook b)
  | None =>
      match Quiz.chapter self with
      | Some c => Some (SrcChapter c)
      | None => None
      end
  end.

Definition get_quiz_type (self : Quiz.t) : string :=
  match Quiz.book self with
  | Some _ => "book"
  | None =>
      match Quiz.chapter self with
      | Some _ => "chapter"
      | None => "unknown"
      end
  end.

(** The [CheckConstraint] [quiz_either_chapter_or_book]: a chapter and no
    book, or a book and no chapter. *)
Definition quiz_either_chapter_or_book (q : Quiz.t) : bool :=
  match Quiz.chapter q, Quiz.book q with
  | Some _, None | None, Some _ => true
  | _, _ => false
  end.

(** ** [quiz_list] and [books_list] ([views.py])

    These views render a template from a context; the embedding returns the
    context.  A queryset is the sub-table of its rows, as for the questions;
    the order of the rows ([order_by], [Meta.ordering]) is not part of it. *)

(** [chapter.questions.count()]. *)
Definition chapter_questions_count (d : DB) (chapter : nat) : nat :=
  size (filter (λ kv : nat * Question.t, Question.chapter kv.2 = chapter) (questions d)).

(** [book.chapters.all()]. *)
Definition book_chapters (d : DB) (book : nat) : gmap nat Chapter.t :=
  filter (λ kv : nat * Chapter.t, Chapter.book kv.2 = book) (chapters d).

Record QuizListContext := {
  ql_chapters : gmap nat Chapter.t;
  ql_books : gmap nat Book.t
}.

(** [Chapter.objects.filter(questions__isnull=False).distinct()] keeps the
    chapters the join with the questions has a row for, once each;
    [Book.objects.filter(chapters__questions__isnull=False).distinct()] keeps
    the books the join through the chapters has a row for. *)
Definition quiz_list (request : Request) : View QuizListContext :=
  _ ← login_required request;
  d ← get_db;
  let chapters_with_questions :=
    filter (λ kv : nat * Chapter.t, chapter_questions_count d kv.1 ≠ 0%nat) (chapters d) in
  let books_with_questions :=
    filter (λ kv : nat * Book.t,
              size (filter (λ cv : nat * Chapter.t, chapter_questions_count d cv.1 ≠ 0%nat)
                      (book_chapters d kv.1)) ≠ 0%nat)
      (books d) in
  mret {| ql_chapters := chapters_with_questions; ql_books := books_with_questions |}.

(** [books_list]: every book with the attribute [total_questions] the loop
    sets on it, [sum(chapter.questions.count() for chapter in
    book.chapters.all())]. *)
Definition book_total_questions (d : DB) (book : nat) : nat :=
  sum_list ((λ kv : nat * Chapter.t, chapter_questions_count d kv.1)
              <$> map_to_list (book_chapters d book)).

Definition books_list (d : DB) : gmap nat (Book.t * nat) :=
  map_imap (λ id book, Some (book, book_total_questions d id)) (books d).

(** ** [QuestionUploadForm.clean_questions_json] ([forms.py])

    A value [json.loads] returns.  An object is the [dict] of its members (a
    repeated key keeps its last value, as [json.loads] does); the order of
    the keys, which the method does not use, is not kept.  A float is held as
    its literal: the method never looks at it. *)
#[warnings="-register-all"] Inductive JSON :=
  | JNull
  | JBool (b : bool)
  | JInt (n : Z)
  | JFloat (literal : string)
  | JString (s : string)
  | JList (items : list JSON)
  | JObject (members : gmap string JSON).

(** How a call of the method ends: it returns, it raises the
    [forms.ValidationError] the form reports, or it raises [NameError]. *)
Inductive Cleaned (A : Type) :=
  | Valid (a : A)
  | ValidationError (message : string)
  | NameError.
Arguments Valid {A} a.
Arguments ValidationError {A} message.
Arguments NameError {A}.

(** [isinstance(v, int)], with the integer: [bool] is a subclass of [int],
    [True] is 1 and [False] is 0. *)
Definition as_int (v : JSON) : option Z :=
  match v with
  | JInt n => Some n
  | JBool b => Some (if b then 1 else 0)%Z
  | _ => None
  end.

(** [difficulty_map.get(n, 'medium')] for
    [{1: 'easy', 2: 'easy', 3: 'medium', 4: 'hard', 5: 'hard'}]. *)
Definition difficulty_map_get (n : Z) : string :=
  match n with
  | 1 | 2 => "easy"
  | 3 => "medium"
  | 4 | 5 => "hard"
  | _ => "medium"
  end%Z.

(** [if 'difficulty' in question and isinstance(question['difficulty'], int):
    question['difficulty'] = difficulty_map.get(...)]. *)
Definition convert_difficulty (question : gmap string JSON) : gmap string JSON :=
  match question !! "difficulty" with
  | Some v =>
      match as_int v with
      | Some n => <["difficulty" := JString (difficulty_map_get n)]> question
      | None => question
      end
  | None => question
  end.

(** The body of [if 'question' in question and 'answer' in question:]. *)
Definition convert_new_format (question : gmap string JSON) : gmap string JSON :=
  match question !! "question", question !! "answer" with
  | Some text, Some answer =>
      let question :=
        match question !! "question_text" with
        | None => <["question_text" := text]> question
        | Some _ => question
        end in
      let question :=
        match question !! "correct_answer" with
        | None => <["correct_answer" := answer]> question
        | Some _ => question
        end in
      convert_difficulty question
  | _, _ => question
  end.

Definition required_fields : list string := ["question_text"; "correct_answer"; "options"].

(** One turn of the loop, for the question at index [i].  The last branch of
    the source builds its message from [valid_difficulties], a name that is
    bound nowhere: evaluating it raises [NameError]. *)
Definition clean_question (i : nat) (question : JSON) : Cleaned (gmap string JSON) :=
  match question with
  | JObject question =>
      let question := convert_new_format question in
      match List.find (λ field, bool_decide (¬ is_Some (question !! field))) required_fields with
      | Some field =>
          ValidationError ("Question " +:+ pretty (i + 1)%nat
                           +:+ " is missing required field: " +:+ field)
      | None =>
          match question !! "options" with
          | Some (JObject _) =>
              match question !! "difficulty" with
              | Some v =>
                  match as_int v with
                  | Some n =>
                      Valid (<["difficulty" := JString (difficulty_map_get n)]> question)
                  | None => NameError
                  end
              | None => Valid question
              end
          | _ =>
              ValidationError ("Question " +:+ pretty (i + 1)%nat
                               +:+ ": options must be a dictionary")
          end
      end
  | _ => ValidationError ("Question " +:+ pretty (i + 1)%nat +:+ " must be an object")
  end.

(** [for i, question in enumerate(questions)], from index [i] on: the first
    question that raises ends the loop; the questions are returned as the
    loop left them. *)
Fixpoint clean_questions (i : nat) (questions : list JSON)
    : Cleaned (list (gmap string JSON)) :=
  match questions with
  | [] => Valid []
  | question :: rest =>
      match clean_question i question with
      | Valid q =>
          match clean_questions (S i) rest with
          | Valid qs => Valid (q :: qs)
          | ValidationError m => ValidationError m
          | NameError => NameError
          end
      | ValidationError m => ValidationError m
      | NameError => NameError
      end
  end.

(** [loaded] is what [json.loads(questions_json)] did: the text of the
    [JSONDecodeError] it raised, or the value it returned. *)
Definition clean_questions_json (loaded : string + JSON)
    : Cleaned (list (gmap string JSON)) :=
  match loaded with
  | inl e => ValidationError ("Invalid JSON format: " +:+ e)
  | inr (JList questions) => clean_questions 0 questions
  | inr _ => ValidationError "JSON must be a list of questions"
  end.

(** ** The template filter [duration_display] ([templatetags/quiz_extras.py])

    A [datetime] is its number of microseconds on the time line and a missing
    one is [None]; the difference of two is a [timedelta], a whole number of
    microseconds.  [int(duration.total_seconds())] is that number divided by
    a million and truncated toward zero.  ([total_seconds] is a float: the
    truncation is that of the exact quotient for any duration under 2^33
    seconds, some 272 years.) *)
Definition duration_display (start_time end_time : option Z) : string :=
  match start_time, end_time with
  | Some start_time, Some end_time =>
      let duration := (end_time - start_time)%Z in
      let total_seconds := (duration ÷ 1000000)%Z in
      if (total_seconds <? 0)%Z then "-"
      else
        let minutes := (total_seconds / 60)%Z in
        let seconds := (total_seconds mod 60)%Z in
        if (minutes =? 0)%Z then pretty seconds +:+ "s"
        else if (seconds =? 0)%Z then pretty minutes +:+ "m"
        else pretty minutes +:+ "m " +:+ pretty seconds +:+ "s"
  | _, _ => "-"
  end.

(** ** The list columns of the admin ([admin.py]) *)



(** * Vocabulary of the properties *)

Arguments QuizSelectionForm_errors : simpl never.
Arguments clean_fields : simpl never.
Arguments get_questions_for_source : simpl never.
Arguments only_available_error : simpl never.
Arguments random_sample : simpl never.

Definition info_message (t : string) : Message := {| level := info; text := t |}.


(** ** Scoring *)


(** ** The session *)

(** A request that reaches the POST branch of [take_quiz]: the requesting
    user owns the open quiz [quiz_id], the session holds its question sequence
    with the cursor inside it, the question under the cursor exists, and that
    question has at most one stored answer (what [get_or_create] maintains,
    see [take_quiz_keeps_answers_unique]). *)
Definition at_question (w : World) (request : Request) (quiz_id u : nat)
    (quiz : Quiz.t) (question_ids : list nat) (current_index : Z)
    (question_id : nat) (question : Question.t) : Prop :=
  user request = Some u ∧
  method request = POST ∧
  Quiz_open_of_user (db w) quiz_id u = Some quiz ∧
  session_questions (session w) !! quiz_id = Some question_ids ∧
  default 0%Z (session_current (session w) !! quiz_id) = current_index ∧
  (0 ≤ current_index < Z.of_nat (length question_ids))%Z ∧
  question_ids !! Z.to_nat current_index = Some question_id ∧
  questions (db w) !! question_id = Some question ∧
  QuizAnswer_get (db w) quiz_id question_id ≠ MultipleObjects.

(** The cursor the session holds for a quiz ([session.get(..., 0)]). *)
Definition cursor (w : World) (quiz_id : nat) : Z :=
  default 0%Z (session_current (session w) !! quiz_id).


(** Every (quiz, question) has at most one answer row: the one-per-pair
    invariant of the data model, which the [QuizAnswer] table itself does not
    enforce. *)
Definition answers_unique (d : DB) : Prop :=
  ∀ quiz question, QuizAnswer_get d quiz question ≠ MultipleObjects.

(** A view keeps a property of the database when every write it makes does. *)
Definition keeps (P : DB → Prop) {A} (v : View A) : Prop :=
  ∀ w, P (db w) → P (db (v w).2).

(** ** Status transitions *)

Inductive StatusAction := act_submit | act_mark | act_clear.

(** The status of a question: its record, or 'unattempted' while it has none. *)
Definition status_of (d : DB) (quiz question : nat) : Status :=
  default unattempted (statuses d !! (quiz, question)).

(** Which status action a POST carries, following the dispatch of
    [take_quiz]: [mark_for_review], [clear_answer], or [next] with a
    non-empty stripped answer. *)
Definition request_action (data : PostData) : option StatusAction :=
  let action := default "next" (action data) in
  let user_answer := strip (default "" (answer data)) in
  if String.eqb action "mark_for_review" then Some act_mark
  else if String.eqb action "clear_answer" then Some act_clear
  else if String.eqb action "next" && truthy user_answer then Some act_submit
  else None.

(** The transition table of the specification (section 4.2), as written
    there: the seven listed pairs, and no entry for the other five. *)
Definition spec_transition (s : Status) (a : StatusAction) : option Status :=
  match s, a with
  | unattempted, act_submit => Some attempted
  | attempted, act_submit => Some attempted
  | attempted, act_mark => Some answered_and_marked
  | unattempted, act_mark => Some marked_for_review
  | marked_for_review, act_submit => Some answered_and_marked
  | answered_and_marked, act_clear => Some marked_for_review
  | attempted, act_clear => Some unattempted
  | _, _ => None
  end.

(** The status each branch of [take_quiz] leaves, for all twelve pairs. *)
Definition status_after (s : Status) (a : StatusAction) : Status :=
  match a with
  | act_mark =>
      match s with attempted => answered_and_marked | _ => marked_for_review end
  | act_clear =>
      match s with
      | answered_and_marked => marked_for_review
      | attempted => unattempted
      | _ => s
      end
  | act_submit =>
      match s with marked_for_review => answered_and_marked | _ => attempted end
  end.

(** ** Equality up to case *)




(** ** Starting a quiz *)

Definition quiz_type_of (source : Source) : QuizType :=
  match source with SrcChapter _ => quiz_type_chapter | SrcBook _ => quiz_type_book end.

(** A selection form filled in for [source]: the quiz type and the selected
    chapter or book are those of the view, the other selector is empty or
    names an existing row, the count [n] is within the field's bounds 1..50,
    the difficulty [f] is one of the four choices, and the duration is one of
    the offered ones. *)
Definition well_formed_selection (d : DB) (source : Source) (data : PostData)
    (n : Z) (f : DifficultyFilter) : Prop :=
  quiz_type data = Some (quiz_type_of source) ∧
  match source with
  | SrcChapter c =>
      chapter data = Some c ∧ ∀ b, book data = Some b → is_Some (books d !! b)
  | SrcBook b =>
      book data = Some b ∧ ∀ c, chapter data = Some c → is_Some (chapters d !! c)
  end ∧
  num_questions data = Some n ∧
  (1 ≤ n ≤ 50)%Z ∧
  difficulty data = Some f ∧
  ∃ m, duration_minutes data = Some m ∧ m ∈ duration_choices.

(** The eligible set: the questions in scope that pass the difficulty filter;
    the filter 'all' lets every question of the scope through. *)
Definition difficulty_passes (f : DifficultyFilter) (q : Question.t) : Prop :=
  match f with
  | all => True
  | only x => Question.difficulty q = x
  end.

(** ** A worked example

    One book with one chapter of four questions (1: answer C, easy; 2: A,
    hard; 3: B, easy; 4: D, medium), and quiz 1 of user 7 whose question
    sequence is 3, 1. *)

Definition example_question (answer : string) (x : Difficulty) : Question.t :=
  {| Question.chapter := 1; Question.question_text := "?";
     Question.correct_answer := answer; Question.difficulty := x |}.

Definition example_quiz (total : nat) (completed : bool) : Quiz.t :=
  {| Quiz.user := 7; Quiz.chapter := Some 1%nat; Quiz.book := None;
     Quiz.title := "Sets Quiz"; Quiz.end_time := None; Quiz.duration_minutes := 30;
     Quiz.score := None; Quiz.total_questions := total; Quiz.correct_answers := 0;
     Quiz.is_completed := completed |}.

Definition example_answer (question : nat) (ua : string) (ok : bool) : QuizAnswer.t :=
  {| QuizAnswer.quiz := 1; QuizAnswer.question := question;
     QuizAnswer.user_answer := ua; QuizAnswer.is_correct := ok |}.

Definition example_db (quiz : Quiz.t) (rows : list QuizAnswer.t)
    (sts : gmap (nat * nat) Status) : DB :=
  {| books := {[ 1%nat := {| Book.title := "Algebra"; Book.author := "N" |} ]};
     chapters := {[ 1%nat := {| Chapter.book := 1; Chapter.title := "Sets";
                                Chapter.chapter_number := 1 |} ]};
     questions := <[ 1%nat := example_question "C" easy ]>
                  (<[ 2%nat := example_question "A" hard ]>
                  (<[ 3%nat := example_question "B" easy ]>
                  (<[ 4%nat := example_question "D" medium ]> ∅)));
     quizzes := {[ 1%nat := quiz ]};
     answers := rows;
     statuses := sts |}.

Definition example_session (index : Z) : Session :=
  {| session_questions := {[ 1%nat := [3; 1]%nat ]};
     session_current := {[ 1%nat := index ]} |}.

Definition example_world (quiz : Quiz.t) (rows : list QuizAnswer.t)
    (sts : gmap (nat * nat) Status) (index : Z) : World :=
  {| db := example_db quiz rows sts; session := example_session index; messages := [] |}.

Definition no_post : PostData :=
  {| action := None; answer := None; question_index := None; quiz_type := None;
     chapter := None; book := None; num_questions := None; difficulty := None;
     duration_minutes := None |}.

Definition example_get : Request :=
  {| user := Some 7%nat; method := GET; post := no_post |}.

Definition example_post (act : string) (ans : option string) (idx : option IntParam)
    : Request :=
  {| user := Some 7%nat; method := POST;
     post := {| action := Some act; answer := ans; question_index := idx;
                quiz_type := None; chapter := None; book := None;
                num_questions := None; difficulty := None; duration_minutes := None |} |}.

(** A filled-in selection form for chapter 1, and the world before any quiz. *)
Definition example_selection (n : Z) (f : DifficultyFilter) : Request :=
  {| user := Some 7%nat; method := POST;
     post := {| action := None; answer := None; question_index := None;
                quiz_type := Some quiz_type_chapter; chapter := Some 1%nat;
                book := None; num_questions := Some n; difficulty := Some f;
                duration_minutes := Some 30%nat |} |}.

Definition example_start : World :=
  {| db := {| books := books (example_db (example_quiz 2 false) [] ∅);
              chapters := chapters (example_db (example_quiz 2 false) [] ∅);
              questions := questions (example_db (example_quiz 2 false) [] ∅);
              quizzes := ∅; answers := []; statuses := ∅ |};
     session := {| session_questions := ∅; session_current := ∅ |};
     messages := [] |}.

(** ** Reasoning about what a view leaves behind *)

(** Whatever world [v] starts from that satisfies [Pre], the world it leaves
    (whether it ran to its end, returned early or raised) satisfies [Post]. *)
Definition hoare {A} (Pre : World → Prop) (v : View A) (Post : World → Prop) : Prop :=
  ∀ w, Pre w → Post (v w).2.





(** ** What the views keep true of the stored sessions *)

(** The answers and the question sequences fit together: every (quiz,
    question) has at most one answer row, every answer row belongs to a quiz,
    a question sequence is held only for a quiz that exists, and every quiz
    has a sequence of [total_questions] distinct ids (the one the session
    holds, while it holds one) that contains the question of each of its
    answer rows. *)
Definition sequences_sound (d : DB) (s : Session) : Prop :=
  answers_unique d ∧
  (∀ row, row ∈ answers d → is_Some (quizzes d !! QuizAnswer.quiz row)) ∧
  (∀ quiz_id, is_Some (session_questions s !! quiz_id) → is_Some (quizzes d !! quiz_id)) ∧
  ∀ quiz_id quiz, quizzes d !! quiz_id = Some quiz →
    ∃ ids, NoDup ids ∧
           length ids = Quiz.total_questions quiz ∧
           (∀ row, row ∈ answers d → QuizAnswer.quiz row = quiz_id →
                   QuizAnswer.question row ∈ ids) ∧
           (∀ ids', session_questions s !! quiz_id = Some ids' → ids' = ids).

(** One request served, or one change made outside the quiz views: a start
    view, [take_quiz] or [quiz_results] handles a request; the user comes
    back with a new, empty browser session; books, chapters and questions
    are authored.  Deleting a quiz or its rows, which no view does, is not a
    step. *)
Inductive step : World → World → Prop :=
  | step_start_quiz rng request chapter_id w :
      step w (run (start_quiz rng request chapter_id) w).2
  | step_start_book_quiz rng request book_id w :
      step w (run (start_book_quiz rng request book_id) w).2
  | step_take_quiz request quiz_id w :
      step w (run (take_quiz request quiz_id) w).2
  | step_quiz_results now request quiz_id w :
      step w (run (quiz_results now request quiz_id) w).2
  | step_new_session w :
      step w {| db := db w;
                session := {| session_questions := ∅; session_current := ∅ |};
                messages := messages w |}
  | step_authoring bs cs qs w :
      step w {| db := {| books := bs; chapters := cs; questions := qs;
                         quizzes := quizzes (db w); answers := answers (db w);
                         statuses := statuses (db w) |};
                session := session w;
                messages := messages w |}.

(** A site on which no quiz has been started yet: no quiz, answer or status
    row, and nothing in the session. *)
Definition no_quiz_yet (w : World) : Prop :=
  quizzes (db w) = ∅ ∧ answers (db w) = [] ∧ statuses (db w) = ∅ ∧
  session_questions (session w) = ∅ ∧ session_current (session w) = ∅.

(** The worlds the views can bring a fresh site to. *)
Definition reachable (w : World) : Prop :=
  ∃ w0, no_quiz_yet w0 ∧ rtc step w0 w.

(** ** Starting a quiz, for any request *)

(** The quiz a start view announces in its response, if any. *)
Definition started (r : Response) : option nat :=
  match r with
  | RedirectTakeQuiz quiz_id => Some quiz_id
  | _ => None
  end.

(** ** What the views keep true of the cursor, the quizzes and the statuses *)

(** A cursor is held only beside a question sequence, and it lies between 0
    and the length of that sequence. *)
Definition cursor_sound (s : Session) : Prop :=
  ∀ quiz_id c, session_current s !! quiz_id = Some c →
    ∃ ids, session_questions s !! quiz_id = Some ids ∧
           (0 ≤ c ≤ Z.of_nat (length ids))%Z.

(** The stored form of one quiz: one source, 1 to 50 questions; while open it
    has no score, no end time and no correct answers counted; once completed
    it has an end time, a score between 0 and 100 and at most
    [total_questions] correct answers. *)
Definition quiz_sound (quiz : Quiz.t) : Prop :=
  quiz_either_chapter_or_book quiz = true ∧
  (1 ≤ Quiz.total_questions quiz ≤ 50)%nat ∧
  if Quiz.is_completed quiz
  then is_Some (Quiz.end_time quiz) ∧
       (Quiz.correct_answers quiz ≤ Quiz.total_questions quiz)%nat ∧
       ∃ pct, Quiz.score quiz = Some pct ∧ (0 <= pct)%Q ∧ (pct <= inject_Z 100)%Q
  else Quiz.end_time quiz = None ∧ Quiz.score quiz = None ∧
       Quiz.correct_answers quiz = 0%nat.

Definition quizzes_sound (d : DB) : Prop :=
  ∀ quiz_id quiz, quizzes d !! quiz_id = Some quiz → quiz_sound quiz.

(** A status that says the question is answered. *)
Definition is_answered (s : Status) : bool :=
  match s with
  | attempted | answered_and_marked => true
  | _ => false
  end.

(** Every status that says so is backed by an answer row. *)
Definition statuses_backed (d : DB) : Prop :=
  ∀ quiz question s, statuses d !! (quiz, question) = Some s →
    is_answered s = true → QuizAnswer_get d quiz question ≠ DoesNotExist.

(** ** Running a view step by step *)

(** [wp v Q E w]: run from [w], the view [v] either continues with a value
    and a world that satisfy [Q], or returns early (or raises) with a
    response and a world that satisfy [E]. *)
Definition wp {A} (v : View A) (Q : A → World → Prop)
    (E : Response → World → Prop) (w : World) : Prop :=
  match v w with
  | (Continue a, w') => Q a w'
  | (Return r, w') => E r w'
  end.

(** What the quiz views keep true of the rows and the cursor together. *)
Definition state_sound (w : World) : Prop :=
  answers_unique (db w) ∧ statuses_backed (db w) ∧ cursor_sound (session w).

(** The one request [take_quiz] answers with an exception: a POST of the
    action [jump_to] whose [question_index] is not an integer. *)
Definition bad_jump (request : Request) : Prop :=
  method request = POST ∧
  action (post request) = Some "jump_to" ∧
  question_index (post request) = Some not_an_int.

(** What the POST branch of [take_quiz] run from [w] may return early with. *)
Definition post_outcome (data : PostData) (w : World) (r : Response) (w' : World) : Prop :=
  match r with
  | ServerError e =>
      e = ValueError ∧ action data = Some "jump_to" ∧
      question_index data = Some not_an_int ∧ w' = w
  | _ => state_sound w'
  end.

(** ** A played example: a quiz of two questions started on the example
    site, and its first question answered *)

Definition example_started : World :=
  (run (start_quiz (λ i, (7 * i + 5)%nat) (example_selection 2 all) 1) example_start).2.

Definition example_answered : World :=
  (run (take_quiz (example_post "next" (Some "d") None) 0) example_started).2.

Definition example_sealed : World :=
  (run (quiz_results 100 example_get 0) example_answered).2.

(** ** Uploaded questions *)

(** A question as [upload_questions] can store it. *)
Definition storable (q : gmap string JSON) : Prop :=
  is_Some (q !! "question_text") ∧
  is_Some (q !! "correct_answer") ∧
  (∃ options, q !! "options" = Some (JObject options)) ∧
  (q !! "difficulty" = None ∨
   ∃ s, q !! "difficulty" = Some (JString s) ∧ s ∈ ["easy"; "medium"; "hard"]).

(** The question has the keys of the second format. *)
Definition new_format (q : gmap string JSON) : Prop :=
  is_Some (q !! "question") ∧ is_Some (q !! "answer").

(** The difficulty of an uploaded question that the method cannot accept. *)
Definition difficulty_refused (q : gmap string JSON) : Prop :=
  ∃ v, q !! "difficulty" = Some v ∧
       (as_int v = None ∨ new_format q).

(** The question has its text, its answer (under the keys of either format)
    and a dictionary of options. *)
Definition fields_ok (q : gmap string JSON) : Prop :=
  (is_Some (q !! "question_text") ∨ new_format q) ∧
  (is_Some (q !! "correct_answer") ∨ new_format q) ∧
  ∃ options, q !! "options" = Some (JObject options).

(** The example the form shows as its placeholder. *)
Definition upload_placeholder : JSON :=
  JList [JObject (<["question" := JString "What is the capital of France?"]>
                 (<["options" := JObject (<["A" := JString "London"]>
                                         (<["B" := JString "Berlin"]>
                                         (<["C" := JString "Paris"]>
                                         (<["D" := JString "Madrid"]> ∅))))]>
                 (<["answer" := JString "C"]>
                 (<["difficulty" := JInt 2]> ∅))))].

(** A question in the first format, with a numeric difficulty. *)
Definition upload_example : JSON :=
  JList [JObject (<["question_text" := JString "2 + 2?"]>
                 (<["options" := JObject (<["A" := JString "3"]>
                                         (<["B" := JString "4"]> ∅))]>
                 (<["correct_answer" := JString "B"]>
                 (<["difficulty" := JInt 4]> ∅))))].

(** * Properties *)

(** ** Running views *)

Ltac unfold_view :=
  unfold mbind, View_bind, bind, mret, View_ret, ret, respond, raise,
    get_db, put_db, get_session, put_session, add_message,
    get_object_or_404, login_required in *.

Lemma Quiz_of_user_lookup d quiz_id user quiz :
  Quiz_of_user d quiz_id user = Some quiz →
  quizzes d !! quiz_id = Some quiz ∧ Quiz.user quiz = user.
Proof.
  unfold Quiz_of_user. destruct (quizzes d !! quiz_id) as [q|]; [|done].
  destruct (Nat.eqb_spec (Quiz.user q) user); [|done].
  intros [= ->]. done.
Qed.

Lemma Quiz_open_of_user_completed d quiz_id user quiz :
  quizzes d !! quiz_id = Some quiz →
  Quiz.is_completed quiz = true →
  Quiz_open_of_user d quiz_id user = None.
Proof.
  intros Hq Hc. unfold Quiz_open_of_user, Quiz_of_user. rewrite Hq.
  destruct (Quiz.user quiz =? user)%nat; [|done]. by rewrite Hc.
Qed.

(** ** Scoring arithmetic *)

Lemma Qlt_bool_iff a b : Qlt_bool a b = true ↔ (a < b)%Q.
Proof.
  unfold Qlt_bool. rewrite negb_true_iff, <- not_true_iff_false, Qle_bool_iff.
  split; [apply Qnot_le_lt | apply Qlt_not_le].
Qed.


Lemma py_max_0_nonneg x : (0 <= py_max 0 x)%Q.
Proof.
  unfold py_max. destruct (Qlt_bool 0 x) eqn:E; [|apply Qle_refl].
  apply Qlt_bool_iff in E. by apply Qlt_le_weak.
Qed.

Lemma percentage_of_nonneg raw maxp : (0 <= percentage_of raw maxp)%Q.
Proof.
  unfold percentage_of. destruct (Qlt_bool 0 maxp); [apply py_max_0_nonneg | apply Qle_refl].
Qed.


(** Every answer row is correct or wrong: the two filtered counts add up to
    the number of answers. *)
Lemma count_is_correct_partition l :
  (count_is_correct true l + count_is_correct false l = length l)%nat.
Proof.
  unfold count_is_correct. induction l as [|a l IH]; [done|].
  simpl. destruct (QuizAnswer.is_correct a); simpl; lia.
Qed.

(** ** The results view *)

Lemma seal_quiz_run now quiz_id quiz w :
  ∃ quiz' w',
    seal_quiz now quiz_id quiz w = (Continue quiz', w') ∧
    db w' = with_quizzes (db w) (<[quiz_id := quiz']> (quizzes (db w))) ∧
    messages w' = messages w ∧
    Quiz.user quiz' = Quiz.user quiz ∧
    Quiz.total_questions quiz' = Quiz.total_questions quiz ∧
    Quiz.is_completed quiz' = true ∧
    Quiz.end_time quiz' = Some now ∧
    Quiz.correct_answers quiz' = count_is_correct true (quiz_answers (db w) quiz_id) ∧
    Quiz.score quiz' =
      Some (percentage_of
              (raw_score_of
                 (count_is_correct true (quiz_answers (db w) quiz_id))
                 (count_is_correct false (quiz_answers (db w) quiz_id))
                 (Z.of_nat (Quiz.total_questions quiz)
                  - Z.of_nat (length (quiz_answers (db w) quiz_id))))
              (inject_Z (Z.of_nat (Quiz.total_questions quiz)) * 1)).
Proof.
  unfold seal_quiz. unfold_view. simpl. eexists _, _. split; [reflexivity|].
  simpl. repeat split.
Qed.

(** On an open quiz of the requesting user the view seals the quiz and renders
    the breakdown of the sealed row. *)
Lemma quiz_results_open now request quiz_id u quiz w :
  user request = Some u →
  Quiz_of_user (db w) quiz_id u = Some quiz →
  Quiz.is_completed quiz = false →
  ∃ quiz' w',
    seal_quiz now quiz_id quiz w = (Continue quiz', w') ∧
    run (quiz_results now request quiz_id) w
    = (RenderQuizResults (quiz_results_context (db w') quiz_id quiz'), w').
Proof.
  intros Hu Hq Hc.
  destruct (seal_quiz_run now quiz_id quiz w) as (quiz' & w' & Hseal & _).
  exists quiz', w'. split; [done|].
  unfold run, quiz_results. unfold_view. rewrite Hu. simpl. rewrite Hq. simpl.
  rewrite Hc. by rewrite Hseal.
Qed.

(** On a sealed quiz the view writes nothing. *)
Lemma quiz_results_sealed now request quiz_id u quiz w :
  user request = Some u →
  Quiz_of_user (db w) quiz_id u = Some quiz →
  Quiz.is_completed quiz = true →
  run (quiz_results now request quiz_id) w
  = (RenderQuizResults (quiz_results_context (db w) quiz_id quiz), w).
Proof.
  intros Hu Hq Hc. unfold run, quiz_results. unfold_view.
  rewrite Hu. simpl. rewrite Hq. simpl. by rewrite Hc.
Qed.

Lemma quiz_results_rejected now request quiz_id w :
  (user request = None ∨
   ∃ u, user request = Some u ∧ Quiz_of_user (db w) quiz_id u = None) →
  ∃ r, run (quiz_results now request quiz_id) w = (r, w) ∧ is_rejection r = true.
Proof.
  unfold run, quiz_results. unfold_view.
  intros [Hu | (u & Hu & Hq)].
  - rewrite Hu. by eexists.
  - rewrite Hu. simpl. rewrite Hq. by eexists.
Qed.


(** ** Claims about scoring *)



(** The two score examples of the specification: 6 correct, 2 wrong and 2
    unattempted out of 10 give 5.5 and 55%; 4 wrong out of 4 give -1 and 0%. *)
Example score_example :
  (raw_score_of 6 2 2 == 11 # 2)%Q ∧
  (percentage_of (raw_score_of 6 2 2) (inject_Z 10 * 1) == 55)%Q.
Proof. split; reflexivity. Qed.

Example score_floor_example :
  (raw_score_of 0 4 0 == -1)%Q ∧
  (percentage_of (raw_score_of 0 4 0) (inject_Z 4 * 1) == 0)%Q.
Proof. split; reflexivity. Qed.

(** C7, as the code has it.  The results view computes unattempted_count =
    total_questions - attempted_count with no check: the count is
    non-negative exactly when the stored answers do not exceed
    total_questions, and when they do exceed it the view raises nothing: it
    renders the results page with a negative count.  The same holds for
    [Quiz.get_score_breakdown]. *)
Theorem unattempted_count_is_unchecked now request quiz_id u quiz w :
  user request = Some u →
  Quiz_of_user (db w) quiz_id u = Some quiz →
  let attempted := length (quiz_answers (db w) quiz_id) in
  let total := Quiz.total_questions quiz in
  ∃ ctx w',
    run (quiz_results now request quiz_id) w = (RenderQuizResults ctx, w') ∧
    qr_attempted_count ctx = attempted ∧
    qr_unattempted_count ctx = (Z.of_nat total - Z.of_nat attempted)%Z ∧
    unattempted_count (get_score_breakdown (db w) quiz_id quiz)
    = (Z.of_nat total - Z.of_nat attempted)%Z ∧
    ((attempted ≤ total)%nat ↔ (0 ≤ qr_unattempted_count ctx)%Z) ∧
    ((total < attempted)%nat ↔ (qr_unattempted_count ctx < 0)%Z).
Proof.
  intros Hu Hq attempted total.
  destruct (Quiz.is_completed quiz) eqn:Hc.
  - exists (quiz_results_context (db w) quiz_id quiz), w.
    split; [by apply (quiz_results_sealed _ _ _ u)|].
    simpl. fold attempted total. split_and!; try done; lia.
  - destruct (quiz_results_open now request quiz_id u quiz w Hu Hq Hc)
      as (quiz' & w' & Hseal & Hrun).
    destruct (seal_quiz_run now quiz_id quiz w)
      as (quiz'' & w'' & Hseal' & Hdb & _ & _ & Htot & _).
    rewrite Hseal in Hseal'. injection Hseal' as <- <-.
    exists (quiz_results_context (db w') quiz_id quiz'), w'.
    split; [done|].
    assert (Hrows : quiz_answers (db w') quiz_id = quiz_answers (db w) quiz_id)
      by by rewrite Hdb.
    simpl. rewrite Hrows, Htot. fold attempted total.
    split_and!; try done; lia.
Qed.

Lemma unattempted_count_is_unchecked_witness :
  ∃ ctx w',
    run (quiz_results 100 example_get 1)
      (example_world (example_quiz 2 false) [example_answer 3 "b" true] ∅ 1)
    = (RenderQuizResults ctx, w') ∧
    qr_unattempted_count ctx = 1%Z.
Proof.
  destruct (unattempted_count_is_unchecked 100 example_get 1 7 (example_quiz 2 false)
              (example_world (example_quiz 2 false) [example_answer 3 "b" true] ∅ 1)
              eq_refl eq_refl)
    as (ctx & w' & Hrun & _ & Hun & _).
  exists ctx, w'. split; [exact Hrun | exact Hun].
Defined.

(** C7 as stated fails: a quiz with total_questions = 1 and two stored answers
    is scored without any error; the page shows unattempted_count = -1 and the
    stored percentage is 200. *)
Lemma more_answers_than_questions_is_scored :
  let w := example_world (example_quiz 1 false)
             [example_answer 3 "b" true; example_answer 1 "c" true] ∅ 1 in
  (Quiz.total_questions (example_quiz 1 false) < length (quiz_answers (db w) 1))%nat ∧
  ∃ ctx w',
    run (quiz_results 100 example_get 1) w = (RenderQuizResults ctx, w') ∧
    is_rejection (RenderQuizResults ctx) = false ∧
    qr_unattempted_count ctx = (-1)%Z ∧
    ∃ pct, Quiz.score (qr_quiz ctx) = Some pct ∧ (pct == 200)%Q.
Proof.
  split; [vm_compute; lia|].
  eexists _, _. split; [vm_compute; reflexivity|].
  split_and!; try reflexivity.
  eexists. split; reflexivity.
Qed.

(** C5.  Asking for the results of a quiz a second time, at any later time,
    gives the response of the first call and leaves the world as the first
    call left it: the stored score, correct-answer count and end time are
    not written again, and the rendered breakdown is the one of the sealing
    call.  On a quiz that is already sealed the view writes nothing at all. *)
Theorem quiz_results_idempotent now now' request quiz_id w :
  run (quiz_results now' request quiz_id) (run (quiz_results now request quiz_id) w).2
  = run (quiz_results now request quiz_id) w
  ∧ (∀ u quiz,
       user request = Some u →
       Quiz_of_user (db w) quiz_id u = Some quiz →
       Quiz.is_completed quiz = true →
       (run (quiz_results now request quiz_id) w).2 = w).
Proof.
  split.
  - destruct (user request) as [u|] eqn:Hu.
    2:{ unfold run, quiz_results. unfold_view. by rewrite Hu. }
    destruct (Quiz_of_user (db w) quiz_id u) as [quiz|] eqn:Hq.
    2:{ unfold run, quiz_results. unfold_view. rewrite Hu. simpl. rewrite Hq. simpl.
        by rewrite Hq. }
    destruct (Quiz.is_completed quiz) eqn:Hc.
    + rewrite (quiz_results_sealed now _ _ u quiz) by done. simpl.
      by apply (quiz_results_sealed now' _ _ u quiz).
    + destruct (quiz_results_open now request quiz_id u quiz w Hu Hq Hc)
        as (quiz' & w' & Hseal & ->).
      destruct (seal_quiz_run now quiz_id quiz w)
        as (quiz'' & w'' & Hseal' & Hdb & _ & Huser & _ & Hdone & _).
      rewrite Hseal in Hseal'. injection Hseal' as <- <-.
      simpl. apply (quiz_results_sealed now' _ _ u quiz'); [done| |done].
      apply Quiz_of_user_lookup in Hq as [_ Hqu].
      unfold Quiz_of_user. rewrite Hdb. simpl. rewrite lookup_insert_eq.
      rewrite Huser, Hqu. by rewrite Nat.eqb_refl.
  - intros u quiz Hu Hq Hc. by rewrite (quiz_results_sealed now _ _ u quiz).
Qed.

(** ** Claims about the session *)

(** C6.  Any request to [take_quiz] for a quiz whose completion flag is set
    is refused (a 404, or the login redirect for an anonymous request),
    whatever action it carries, and the world (answers, statuses, session
    cursor, score, completion flag, messages) is left as it was. *)
Theorem take_quiz_rejects_completed request quiz_id quiz w :
  quizzes (db w) !! quiz_id = Some quiz →
  Quiz.is_completed quiz = true →
  ∃ r, run (take_quiz request quiz_id) w = (r, w) ∧
       is_rejection r = true ∧
       (is_Some (user request) → r = Http404).
Proof.
  intros Hq Hc. unfold run, take_quiz. unfold_view.
  destruct (user request) as [u|]; simpl.
  - rewrite (Quiz_open_of_user_completed _ _ u quiz Hq Hc). by exists Http404.
  - exists RedirectLogin. split_and!; try done.
Qed.

Lemma take_quiz_rejects_completed_witness :
  ∃ r,
    run (take_quiz (example_post "next" (Some "B") None) 1)
      (example_world (example_quiz 2 true) [] ∅ 0)
    = (r, example_world (example_quiz 2 true) [] ∅ 0) ∧
    is_rejection r = true ∧
    (is_Some (user (example_post "next" (Some "B") None)) → r = Http404).
Proof.
  apply (take_quiz_rejects_completed (example_post "next" (Some "B") None) 1
           (example_quiz 2 true)); reflexivity.
Defined.

Lemma take_quiz_at_question w request quiz_id u quiz question_ids current_index
    question_id question :
  at_question w request quiz_id u quiz question_ids current_index question_id question →
  take_quiz request quiz_id w
  = (take_quiz_post (post request) quiz_id question_id
       (Question.correct_answer question) question_ids current_index;;
     take_quiz_render quiz quiz_id question_id question_ids current_index) w.
Proof.
  intros (Hu & Hm & Hq & Hids & Hcur & Hrange & Hqid & Hquestion & _).
  unfold take_quiz. unfold_view. rewrite Hu. simpl. rewrite Hq. simpl.
  rewrite Hids, Hcur. simpl.
  destruct question_ids as [|q0 qs] eqn:E; [simpl in Hrange; lia|]. rewrite <- E in *.
  rewrite bool_decide_eq_false_2 by (by rewrite E). simpl.
  destruct (Z.leb_spec (Z.of_nat (length question_ids)) current_index); [lia|].
  unfold py_getitem. destruct (Z.leb_spec 0 current_index); [|lia].
  rewrite Hqid, Hquestion. simpl. by rewrite Hm.
Qed.

(** The render tail writes nothing and raises nothing when the question under
    the cursor has at most one answer. *)
Lemma take_quiz_render_ok quiz quiz_id question_id question_ids current_index w :
  QuizAnswer_get (db w) quiz_id question_id ≠ MultipleObjects →
  ∃ ctx, take_quiz_render quiz quiz_id question_id question_ids current_index w
         = (Continue (RenderTakeQuiz ctx), w) ∧
         tq_current_index ctx = current_index ∧
         tq_question_ids ctx = question_ids.
Proof.
  intros Hone. unfold take_quiz_render. unfold_view.
  destruct (QuizAnswer_get (db w) quiz_id question_id); [| |done]; by eexists.
Qed.

(** Answer rows of one (quiz, question): deleting them leaves none, saving
    keeps their number, creating after none leaves one. *)
Lemma QuizAnswer_get_delete d quiz question :
  QuizAnswer_get (QuizAnswer_delete quiz question d) quiz question = DoesNotExist.
Proof.
  unfold QuizAnswer_get, QuizAnswer_delete. simpl.
  assert (H : List.filter (answer_matches quiz question)
                (List.filter (λ a, negb (answer_matches quiz question a)) (answers d)) = []).
  { induction (answers d) as [|a l IH]; [done|]. simpl.
    destruct (answer_matches quiz question a) eqn:E; simpl; [done|]. by rewrite E. }
  by rewrite H.
Qed.

Lemma QuizAnswer_get_create d quiz question ua ok :
  QuizAnswer_get d quiz question = DoesNotExist →
  QuizAnswer_get
    (QuizAnswer_create
       {| QuizAnswer.quiz := quiz; QuizAnswer.question := question;
          QuizAnswer.user_answer := ua; QuizAnswer.is_correct := ok |} d)
    quiz question
  = Got {| QuizAnswer.quiz := quiz; QuizAnswer.question := question;
           QuizAnswer.user_answer := ua; QuizAnswer.is_correct := ok |}.
Proof.
  unfold QuizAnswer_get, QuizAnswer_create. simpl. intros H.
  rewrite List.filter_app. simpl.
  unfold answer_matches at 2. simpl. rewrite !Nat.eqb_refl. simpl.
  destruct (List.filter (answer_matches quiz question) (answers d)) as [|a [|b l]]; done.
Qed.

Lemma QuizAnswer_get_save d quiz question ua ok a :
  QuizAnswer_get d quiz question = Got a →
  QuizAnswer_get (QuizAnswer_save quiz question ua ok d) quiz question
  = Got {| QuizAnswer.quiz := QuizAnswer.quiz a;
           QuizAnswer.question := QuizAnswer.question a;
           QuizAnswer.user_answer := ua; QuizAnswer.is_correct := ok |}.
Proof.
  unfold QuizAnswer_get, QuizAnswer_save. simpl. intros H.
  assert (Hmap : ∀ l,
    List.filter (answer_matches quiz question)
      (List.map (λ a, if answer_matches quiz question a
                      then {| QuizAnswer.quiz := QuizAnswer.quiz a;
                              QuizAnswer.question := QuizAnswer.question a;
                              QuizAnswer.user_answer := ua;
                              QuizAnswer.is_correct := ok |}
                      else a) l)
    = List.map (λ a, {| QuizAnswer.quiz := QuizAnswer.quiz a;
                        QuizAnswer.question := QuizAnswer.question a;
                        QuizAnswer.user_answer := ua;
                        QuizAnswer.is_correct := ok |})
        (List.filter (answer_matches quiz question) l)).
  { induction l as [|x l IH]; [done|]. simpl.
    destruct (answer_matches quiz question x) eqn:E; simpl.
    - unfold answer_matches at 1. simpl. fold (answer_matches quiz question x).
      rewrite E. simpl. by rewrite IH.
    - by rewrite E. }
  rewrite Hmap.
  destruct (List.filter (answer_matches quiz question) (answers d)) as [|x [|y l]]; try done.
  by injection H as ->.
Qed.

(** ** The four POST actions, one lemma each *)

Ltac render_tail Hone :=
  match goal with
  | |- context [take_quiz_render ?q ?i ?qi ?ids ?c ?w] =>
      let ctx := fresh "ctx" in
      let Hr := fresh "Hrender" in
      destruct (take_quiz_render_ok q i qi ids c w Hone) as (ctx & Hr & ? & ?);
      rewrite Hr; exists ctx
  end.

Lemma take_quiz_mark w request quiz_id u quiz question_ids current_index
    question_id question :
  at_question w request quiz_id u quiz question_ids current_index question_id question →
  default "next" (action (post request)) = "mark_for_review" →
  ∃ ctx w',
    run (take_quiz request quiz_id) w = (RenderTakeQuiz ctx, w') ∧
    statuses (db w')
    = <[(quiz_id, question_id) :=
          match statuses (db w) !! (quiz_id, question_id) with
          | Some attempted => answered_and_marked
          | _ => marked_for_review
          end]> (statuses (db w)) ∧
    answers (db w') = answers (db w) ∧
    quizzes (db w') = quizzes (db w) ∧
    session w' = session w ∧
    messages w' = (messages w ++ [info_message "Question marked for review."])%list.
Proof.
  intros Hat Hact. pose proof Hat as (_ & _ & _ & _ & _ & _ & _ & _ & Hone).
  unfold run. rewrite (take_quiz_at_question _ _ _ _ _ _ _ _ _ Hat).
  unfold take_quiz_post. rewrite Hact. simpl. rewrite andb_false_r.
  unfold action_mark_for_review, status_get_or_create. unfold_view. simpl.
  destruct (statuses (db w) !! (quiz_id, question_id)) as [st|]; simpl;
    (render_tail Hone; eexists; split; [reflexivity|]; by split_and!).
Qed.

Lemma take_quiz_clear w request quiz_id u quiz question_ids current_index
    question_id question :
  at_question w request quiz_id u quiz question_ids current_index question_id question →
  default "next" (action (post request)) = "clear_answer" →
  ∃ ctx w',
    run (take_quiz request quiz_id) w = (RenderTakeQuiz ctx, w') ∧
    statuses (db w')
    = match statuses (db w) !! (quiz_id, question_id) with
      | Some answered_and_marked =>
          <[(quiz_id, question_id) := marked_for_review]> (statuses (db w))
      | Some attempted | None =>
          <[(quiz_id, question_id) := unattempted]> (statuses (db w))
      | Some _ => statuses (db w)
      end ∧
    QuizAnswer_get (db w') quiz_id question_id = DoesNotExist ∧
    quizzes (db w') = quizzes (db w) ∧
    session w' = session w ∧
    messages w'
    = (messages w ++
       [match QuizAnswer_get (db w) quiz_id question_id with
        | DoesNotExist => info_message "No answer to clear for this question."
        | _ => {| level := success; text := "Answer cleared successfully." |}
        end])%list.
Proof.
  intros Hat Hact. pose proof Hat as (_ & _ & _ & _ & _ & _ & _ & _ & Hone).
  unfold run. rewrite (take_quiz_at_question _ _ _ _ _ _ _ _ _ Hat).
  unfold take_quiz_post. rewrite Hact. simpl. rewrite andb_false_r.
  unfold action_clear_answer. unfold_view. simpl.
  destruct (QuizAnswer_get (db w) quiz_id question_id) as [a| |] eqn:Hget; [| |done];
    simpl.
  - pose proof (QuizAnswer_get_delete (db w) quiz_id question_id) as Hdel.
    assert (Hone' : ∀ s, QuizAnswer_get (with_statuses (QuizAnswer_delete quiz_id question_id (db w)) s)
                           quiz_id question_id ≠ MultipleObjects)
      by (intros s; change (QuizAnswer_get (QuizAnswer_delete quiz_id question_id (db w))
                              quiz_id question_id ≠ MultipleObjects); by rewrite Hdel).
    assert (Hone'' : QuizAnswer_get (QuizAnswer_delete quiz_id question_id (db w))
                       quiz_id question_id ≠ MultipleObjects) by by rewrite Hdel.
    destruct (statuses (db w) !! (quiz_id, question_id)) as [[]|]; simpl;
      (first [render_tail (Hone' (<[(quiz_id, question_id) := marked_for_review]> (statuses (db w))))
             | render_tail (Hone' (<[(quiz_id, question_id) := unattempted]> (statuses (db w))))
             | render_tail Hone''];
       eexists; split; [reflexivity|]; by split_and!).
  - assert (Hone' : ∀ s, QuizAnswer_get (with_statuses (db w) s) quiz_id question_id
                         ≠ MultipleObjects)
      by (intros s; change (QuizAnswer_get (db w) quiz_id question_id ≠ MultipleObjects);
          by rewrite Hget).
    assert (Hget' : ∀ s, QuizAnswer_get (with_statuses (db w) s) quiz_id question_id
                         = DoesNotExist) by (intros s; exact Hget).
    destruct (statuses (db w) !! (quiz_id, question_id)) as [[]|]; simpl;
      (first [render_tail (Hone' (<[(quiz_id, question_id) := marked_for_review]> (statuses (db w))))
             | render_tail (Hone' (<[(quiz_id, question_id) := unattempted]> (statuses (db w))))
             | render_tail Hone];
       eexists; split; [reflexivity|]; by split_and!).
Qed.

Lemma take_quiz_next w request quiz_id u quiz question_ids current_index
    question_id question :
  at_question w request quiz_id u quiz question_ids current_index question_id question →
  default "next" (action (post request)) = "next" →
  truthy (strip (default "" (answer (post request)))) = true →
  let user_answer := strip (default "" (answer (post request))) in
  let is_correct :=
    String.eqb (lower user_answer) (lower (Question.correct_answer question)) in
  ∃ a w',
    run (take_quiz request quiz_id) w
    = (if (Z.of_nat (length question_ids) <=? current_index + 1)%Z
       then RedirectQuizResults quiz_id else RedirectTakeQuiz quiz_id, w') ∧
    statuses (db w')
    = <[(quiz_id, question_id) :=
          match statuses (db w) !! (quiz_id, question_id) with
          | Some marked_for_review => answered_and_marked
          | _ => attempted
          end]> (statuses (db w)) ∧
    QuizAnswer_get (db w') quiz_id question_id = Got a ∧
    QuizAnswer.user_answer a = user_answer ∧
    QuizAnswer.is_correct a = is_correct ∧
    quizzes (db w') = quizzes (db w) ∧
    session_questions (session w') = session_questions (session w) ∧
    session_current (session w')
    = <[quiz_id := (current_index + 1)%Z]> (session_current (session w)) ∧
    messages w' = messages w.
Proof.
  intros Hat Hact Hans user_answer is_correct.
  pose proof Hat as (_ & _ & _ & _ & _ & _ & _ & _ & Hone).
  unfold run. rewrite (take_quiz_at_question _ _ _ _ _ _ _ _ _ Hat).
  unfold take_quiz_post. rewrite Hact. fold user_answer in Hans |- *.
  rewrite Hans. simpl.
  unfold action_next, status_get_or_create. fold is_correct. unfold_view. simpl.
  destruct (QuizAnswer_get (db w) quiz_id question_id) as [a0| |] eqn:Hget; [| |done];
    simpl.
  - pose proof (QuizAnswer_get_save (db w) quiz_id question_id user_answer is_correct a0 Hget)
      as Hsave.
    destruct (statuses (db w) !! (quiz_id, question_id)) as [st|]; simpl;
      destruct (Z.of_nat (length question_ids) <=? current_index + 1)%Z; simpl;
      (eexists _, _; split; [reflexivity|]; split; [reflexivity|];
       split; [exact Hsave|]; by split_and!).
  - pose proof (QuizAnswer_get_create (db w) quiz_id question_id user_answer is_correct Hget)
      as Hcreate.
    destruct (statuses (db w) !! (quiz_id, question_id)) as [st|]; simpl;
      destruct (Z.of_nat (length question_ids) <=? current_index + 1)%Z; simpl;
      (eexists _, _; split; [reflexivity|]; split; [reflexivity|];
       split; [exact Hcreate|]; by split_and!).
Qed.




(** C10.  [clear_answer] on a question with no status record creates the
    record with value 'unattempted' (so the database changes); on a question
    whose status is 'marked_for_review' it leaves every status as it was. *)
Theorem clear_answer_creates_unattempted_keeps_marked w request quiz_id u quiz
    question_ids current_index question_id question :
  at_question w request quiz_id u quiz question_ids current_index question_id question →
  default "next" (action (post request)) = "clear_answer" →
  ∃ r w',
    run (take_quiz request quiz_id) w = (r, w') ∧
    is_rejection r = false ∧
    (statuses (db w) !! (quiz_id, question_id) = None →
     statuses (db w') !! (quiz_id, question_id) = Some unattempted ∧
     statuses (db w') = <[(quiz_id, question_id) := unattempted]> (statuses (db w)) ∧
     db w' ≠ db w) ∧
    (statuses (db w) !! (quiz_id, question_id) = Some marked_for_review →
     statuses (db w') = statuses (db w)).
Proof.
  intros Hat Hact.
  destruct (take_quiz_clear _ _ _ _ _ _ _ _ _ Hat Hact)
    as (ctx & w' & Hrun & Hst & _).
  exists (RenderTakeQuiz ctx), w'. split; [done|]. split; [done|].
  split; intros Hbefore; rewrite Hbefore in Hst.
  - rewrite Hst. split_and!; [apply lookup_insert_eq | done |].
    intros Heq. rewrite <- Heq, Hst, lookup_insert_eq in Hbefore. done.
  - done.
Qed.

Lemma clear_answer_creates_unattempted_keeps_marked_witness :
  (∃ r w',
     run (take_quiz (example_post "clear_answer" None None) 1)
       (example_world (example_quiz 2 false) [] ∅ 0) = (r, w') ∧
     statuses (db w') !! (1%nat, 3%nat) = Some unattempted) ∧
  (∃ r w',
     run (take_quiz (example_post "clear_answer" None None) 1)
       (example_world (example_quiz 2 false) [] {[ (1%nat, 3%nat) := marked_for_review ]} 0)
     = (r, w') ∧
     statuses (db w') = {[ (1%nat, 3%nat) := marked_for_review ]}).
Proof.
  split.
  - destruct (clear_answer_creates_unattempted_keeps_marked
                (example_world (example_quiz 2 false) [] ∅ 0)
                (example_post "clear_answer" None None) 1 7
                (example_quiz 2 false) [3; 1]%nat 0 3 (example_question "B" easy))
      as (r & w' & Hrun & _ & Hnone & _).
    + unfold at_question. split_and!; try reflexivity; try (simpl; lia). vm_compute; discriminate.
    + reflexivity.
    + exists r, w'. split; [exact Hrun|]. apply Hnone. reflexivity.
  - destruct (clear_answer_creates_unattempted_keeps_marked
                (example_world (example_quiz 2 false) [] {[ (1%nat, 3%nat) := marked_for_review ]} 0)
                (example_post "clear_answer" None None) 1 7
                (example_quiz 2 false) [3; 1]%nat 0 3 (example_question "B" easy))
      as (r & w' & Hrun & _ & _ & Hmarked).
    + unfold at_question. split_and!; try reflexivity; try (simpl; lia). vm_compute; discriminate.
    + reflexivity.
    + exists r, w'. split; [exact Hrun|]. apply Hmarked. reflexivity.
Defined.

(** ** The status transitions *)

Lemma status_after_agrees_with_table s a s' :
  spec_transition s a = Some s' → status_after s a = s'.
Proof. destruct s, a; simpl; congruence. Qed.

(** C2, as the code has it.  For each of the three status actions on a live
    session the request is accepted and the status of the question under the
    cursor becomes [status_after]: on the seven pairs of the specification's
    table that is the table's status; on the five pairs the table leaves out
    the request is accepted as well, with no error message ([mark_for_review]
    on marked_for_review or answered_and_marked gives marked_for_review,
    submit on answered_and_marked gives attempted, [clear_answer] on
    unattempted or marked_for_review keeps the status). *)
Theorem status_transitions w request quiz_id u quiz question_ids current_index
    question_id question a :
  at_question w request quiz_id u quiz question_ids current_index question_id question →
  request_action (post request) = Some a →
  let before := status_of (db w) quiz_id question_id in
  ∃ r w' added,
    run (take_quiz request quiz_id) w = (r, w') ∧
    is_rejection r = false ∧
    messages w' = (messages w ++ added)%list ∧
    Forall (λ m, level m ≠ error) added ∧
    status_of (db w') quiz_id question_id = status_after before a ∧
    (∀ s', spec_transition before a = Some s' →
           status_of (db w') quiz_id question_id = s').
Proof.
  intros Hat Hreq before.
  assert (Hgoal : ∃ r w' added,
    run (take_quiz request quiz_id) w = (r, w') ∧
    is_rejection r = false ∧
    messages w' = (messages w ++ added)%list ∧
    Forall (λ m, level m ≠ error) added ∧
    status_of (db w') quiz_id question_id = status_after before a).
  { unfold request_action in Hreq.
    destruct (String.eqb_spec (default "next" (action (post request))) "mark_for_review")
      as [Hact|_].
    { injection Hreq as <-.
      destruct (take_quiz_mark _ _ _ _ _ _ _ _ _ Hat Hact)
        as (ctx & w' & Hrun & Hst & _ & _ & _ & Hmsg).
      exists (RenderTakeQuiz ctx), w', [info_message "Question marked for review."].
      split_and!; try done; [by repeat constructor|].
      unfold status_of, before, status_of. rewrite Hst, lookup_insert_eq.
      by destruct (statuses (db w) !! (quiz_id, question_id)) as [[]|]. }
    destruct (String.eqb_spec (default "next" (action (post request))) "clear_answer")
      as [Hact|_].
    { injection Hreq as <-.
      destruct (take_quiz_clear _ _ _ _ _ _ _ _ _ Hat Hact)
        as (ctx & w' & Hrun & Hst & _ & _ & _ & Hmsg).
      eexists (RenderTakeQuiz ctx), w', [_].
      split_and!; try done.
      - constructor; [|constructor].
        by destruct (QuizAnswer_get (db w) quiz_id question_id).
      - unfold status_of, before, status_of. rewrite Hst.
        destruct (statuses (db w) !! (quiz_id, question_id)) as [[]|] eqn:E;
          rewrite ?lookup_insert_eq, ?E; done. }
    destruct (String.eqb_spec (default "next" (action (post request))) "next")
      as [Hact|_]; [|done].
    destruct (truthy (strip (default "" (answer (post request))))) eqn:Hans; [|done].
    injection Hreq as <-.
    destruct (take_quiz_next _ _ _ _ _ _ _ _ _ Hat Hact Hans)
      as (row & w' & Hrun & Hst & _ & _ & _ & _ & _ & _ & Hmsg).
    eexists _, w', []. split; [exact Hrun|].
    split_and!; try done.
    - by destruct (Z.of_nat (length question_ids) <=? current_index + 1)%Z.
    - by rewrite app_nil_r.
    - unfold status_of, before, status_of. rewrite Hst, lookup_insert_eq.
      by destruct (statuses (db w) !! (quiz_id, question_id)) as [[]|]. }
  destruct Hgoal as (r & w' & added & Hrun & Hrej & Hmsg & Hlev & Hst).
  exists r, w', added. split_and!; try done.
  intros s' Hs'. rewrite Hst. by apply status_after_agrees_with_table.
Qed.

Lemma status_transitions_witness :
  ∃ r w',
    run (take_quiz (example_post "mark_for_review" None None) 1)
      (example_world (example_quiz 2 false) [example_answer 3 "b" true]
         {[ (1%nat, 3%nat) := attempted ]} 0)
    = (r, w') ∧
    is_rejection r = false ∧
    status_of (db w') 1 3 = answered_and_marked.
Proof.
  destruct (status_transitions
              (example_world (example_quiz 2 false) [example_answer 3 "b" true]
                 {[ (1%nat, 3%nat) := attempted ]} 0)
              (example_post "mark_for_review" None None) 1 7
              (example_quiz 2 false) [3; 1]%nat 0 3 (example_question "B" easy) act_mark)
    as (r & w' & added & Hrun & Hrej & _ & _ & _ & Htable).
  - unfold at_question. split_and!; try reflexivity; try (simpl; lia). vm_compute; discriminate.
  - reflexivity.
  - exists r, w'. split_and!; [exact Hrun | exact Hrej |]. apply Htable. reflexivity.
Defined.

(** C2 as stated fails on the pairs the table leaves out: they are not
    refused.  [mark_for_review] on a question already marked_for_review is
    answered with the rendered page and an info message, and submitting an
    answer to an answered_and_marked question is accepted and sets the status
    to attempted. *)
Lemma untabled_pairs_are_accepted :
  let w1 := example_world (example_quiz 2 false) []
              {[ (1%nat, 3%nat) := marked_for_review ]} 0 in
  let w2 := example_world (example_quiz 2 false) [example_answer 3 "b" true]
              {[ (1%nat, 3%nat) := answered_and_marked ]} 0 in
  (spec_transition (status_of (db w1) 1 3) act_mark = None ∧
   ∃ ctx w',
     run (take_quiz (example_post "mark_for_review" None None) 1) w1
     = (RenderTakeQuiz ctx, w') ∧
     is_rejection (RenderTakeQuiz ctx) = false ∧
     messages w' = [info_message "Question marked for review."] ∧
     status_of (db w') 1 3 = marked_for_review) ∧
  (spec_transition (status_of (db w2) 1 3) act_submit = None ∧
   ∃ w',
     run (take_quiz (example_post "next" (Some "a") None) 1) w2
     = (RedirectTakeQuiz 1, w') ∧
     messages w' = [] ∧
     status_of (db w') 1 3 = attempted).
Proof.
  split.
  - split; [reflexivity|]. eexists _, _. split; [vm_compute; reflexivity|].
    split_and!; reflexivity.
  - split; [reflexivity|]. eexists. split; [vm_compute; reflexivity|].
    split_and!; reflexivity.
Qed.

(** ** Equality up to case *)









(** ** The sampler *)

Section sampler.
Context {A : Type}.
Implicit Types (pool population : list A).

Lemma moved_last_permutation (t dr : list A) x y :
  x :: (t ++ y :: dr) ≡ₚ (t ++ x :: dr) ++ [y].
Proof.
  rewrite <- (Permutation_cons_append (t ++ x :: dr) y).
  rewrite <- !Permutation_middle. apply perm_swap.
Qed.

(** One pick: the element taken at [j], followed by the pool shortened by one
    with the last live element moved to [j], is a rearrangement of the live
    part of the pool. *)
Lemma pick_permutation pool m j x y :
  (j < m)%nat → (m ≤ length pool)%nat →
  pool !! j = Some x → pool !! (m - 1)%nat = Some y →
  x :: take (m - 1) (<[j := y]> pool) ≡ₚ take m pool.
Proof.
  intros Hj Hm Hx Hy. destruct m as [|m]; [lia|].
  replace (S m - 1)%nat with m in * by lia.
  rewrite (take_S_r pool m y Hy).
  destruct (decide (j = m)) as [->|Hne].
  - rewrite take_insert_ge by lia. assert (x = y) as -> by congruence.
    apply Permutation_cons_append.
  - rewrite take_insert_lt by lia.
    assert (Hq : take m pool !! j = Some x) by (rewrite lookup_take_lt by lia; done).
    rewrite insert_take_drop by (rewrite length_take; lia).
    rewrite <- (take_drop_middle (take m pool) j x Hq) at 3.
    apply moved_last_permutation.
Qed.

(** The loop invariant: what has been picked, together with what is still
    live in the pool, is a rearrangement of the live part it started from. *)
Lemma sample_loop_permutation rng n steps : ∀ pool i,
  length pool = n → (i + steps ≤ n)%nat →
  length (sample_loop rng n pool i steps) = steps ∧
  ∃ rest, sample_loop rng n pool i steps ++ rest ≡ₚ take (n - i) pool.
Proof.
  induction steps as [|steps IH]; intros pool i Hlen Hle; simpl.
  - split; [done|]. by eexists.
  - set (j := (rng i `mod` (n - i))%nat).
    assert (Hj : (j < n - i)%nat) by (apply Nat.mod_upper_bound; lia).
    destruct (lookup_lt_is_Some_2 pool j) as [x Hx]; [lia|].
    destruct (lookup_lt_is_Some_2 pool (n - i - 1)) as [y Hy]; [lia|].
    rewrite Hx, Hy.
    destruct (IH (<[j := y]> pool) (S i)) as [Hlen' [rest Hrest]];
      [by rewrite length_insert | lia |].
    split; [simpl; by rewrite Hlen'|].
    exists rest. simpl. rewrite Hrest.
    replace (n - S i)%nat with (n - i - 1)%nat by lia.
    apply pick_permutation; [done | lia | done | done].
Qed.

(** [random.sample] succeeds on any [k] between 0 and the population size,
    returns [k] elements, and these are part of a rearrangement of the
    population: each position of the population is used at most once. *)
Lemma random_sample_permutation rng population k :
  (0 ≤ k ≤ Z.of_nat (length population))%Z →
  ∃ result rest,
    random_sample rng population k = Some result ∧
    length result = Z.to_nat k ∧
    result ++ rest ≡ₚ population.
Proof.
  intros Hk. unfold random_sample.
  destruct (Z.leb_spec 0 k); [|lia].
  destruct (Z.leb_spec k (Z.of_nat (length population))); [|lia]. simpl.
  destruct (sample_loop_permutation rng (length population) (Z.to_nat k) population 0)
    as [Hlen [rest Hrest]]; [done | lia |].
  exists (sample_loop rng (length population) population 0 (Z.to_nat k)), rest.
  split_and!; [done | done |].
  rewrite Hrest, Nat.sub_0_r. by rewrite firstn_all.
Qed.

End sampler.

Lemma random_sample_ids {B} rng (population : list (nat * B)) k :
  NoDup population.*1 →
  (0 ≤ k ≤ Z.of_nat (length population))%Z →
  ∃ result,
    random_sample rng population k = Some result ∧
    length result.*1 = Z.to_nat k ∧
    NoDup result.*1 ∧
    ∀ x, x ∈ result → x ∈ population.
Proof.
  intros Hnd Hk.
  destruct (random_sample_permutation rng population k Hk)
    as (result & rest & Hres & Hlen & Hperm).
  exists result. split_and!; [done | by rewrite length_fmap | |].
  - rewrite <- Hperm, fmap_app in Hnd. by apply NoDup_app in Hnd as [? _].
  - intros x Hx. rewrite <- Hperm. apply elem_of_app. by left.
Qed.

(** ** Starting a quiz *)


Lemma source_exists_inv d source s :
  source_exists d source = Some s →
  s = source ∧
  match source with
  | SrcChapter c => is_Some (chapters d !! c)
  | SrcBook b => is_Some (books d !! b)
  end.
Proof.
  destruct source as [c|b]; simpl.
  - destruct (chapters d !! c); [|done]. intros [= <-]. by split.
  - destruct (books d !! b); [|done]. intros [= <-]. by split.
Qed.
Lemma well_formed_errors d source data n f :
  is_Some (source_exists d source) →
  well_formed_selection d source data n f →
  let available := size (get_questions_for_source d source f) in
  ∃ cleaned m,
    QuizSelectionForm_errors d (chapter_queryset d source) (book_queryset d source) data
    = (cleaned,
       if ((0 <? Z.of_nat available) && (Z.of_nat available <? n))%Z
       then [non_field_error
               (only_available_error (negb (source_is_book source)) f available)]
       else []) ∧
    cleaned_num_questions cleaned = Some n ∧
    cleaned_difficulty cleaned = Some f ∧
    cleaned_duration_minutes cleaned = Some m.
Proof.
  intros [s Hs] (Hqt & Hsel & Hnum & Hn & Hf & m & Hm & Hmin) available.
  apply source_exists_inv in Hs as [_ Hex].
  unfold QuizSelectionForm_errors, clean_fields.
  rewrite Hqt, Hnum, Hf, Hm.
  assert (((1 <=? n)%Z && (n <=? 50)%Z) = true) as ->.
  { apply andb_true_iff. split; apply Z.leb_le; lia. }
  rewrite (bool_decide_eq_true_2 _ Hmin).
  destruct source as [c|b]; destruct Hsel as [Hsel Hother]; rewrite Hsel.
  - assert (Hcq : chapter_queryset d (SrcChapter c) c = true).
    { unfold chapter_queryset. by rewrite !bool_decide_eq_true_2. }
    assert (Hbk : match book data with
                  | Some b => book_queryset d (SrcChapter c) b
                  | None => true
                  end = true).
    { destruct (book data) as [b|] eqn:E; [|done]. simpl.
      apply bool_decide_eq_true_2. by apply Hother. }
    rewrite Hcq, Hbk. simpl.
    unfold QuizSelectionForm_clean. simpl.
    destruct (Z.eqb_spec n 0); [lia|].
    fold available.
    eexists _, m.
    split; [by destruct ((0 <? Z.of_nat available)%Z && (Z.of_nat available <? n)%Z)|done].
  - assert (Hbq : book_queryset d (SrcBook b) b = true).
    { unfold book_queryset. by rewrite !bool_decide_eq_true_2. }
    assert (Hck : match chapter data with
                  | Some c => chapter_queryset d (SrcBook b) c
                  | None => true
                  end = true).
    { destruct (chapter data) as [c|] eqn:E; [|done]. simpl.
      apply bool_decide_eq_true_2. by apply Hother. }
    rewrite Hbq, Hck. simpl.
    unfold QuizSelectionForm_clean. simpl.
    destruct (Z.eqb_spec n 0); [lia|].
    fold available.
    eexists _, m.
    split; [by destruct ((0 <? Z.of_nat available)%Z && (Z.of_nat available <? n)%Z)|done].
Qed.



Lemma start_quiz_enough w rng request source u n f :
  user request = Some u →
  method request = POST →
  is_Some (source_exists (db w) source) →
  well_formed_selection (db w) source (post request) n f →
  let eligible := get_questions_for_source (db w) source f in
  (n ≤ Z.of_nat (size eligible))%Z →
  ∃ quiz questions w',
    let quiz_id := fresh (dom (quizzes (db w))) in
    random_sample rng (map_to_list eligible) n = Some questions ∧
    run (start_quiz_for source rng request) w = (RedirectTakeQuiz quiz_id, w') ∧
    db w' = with_quizzes (db w) (<[quiz_id := quiz]> (quizzes (db w))) ∧
    Quiz.user quiz = u ∧
    Quiz.total_questions quiz = Z.to_nat n ∧
    Quiz.is_completed quiz = false ∧
    Quiz.score quiz = None ∧
    session_questions (session w')
    = <[quiz_id := questions.*1]> (session_questions (session w)) ∧
    session_current (session w') = <[quiz_id := 0%Z]> (session_current (session w)) ∧
    messages w' = messages w.
Proof.
  intros Hu Hm Hex Hwf eligible Hle.
  destruct (well_formed_errors _ _ _ _ _ Hex Hwf)
    as (cleaned & m & Herrs & Hcn & Hcd & Hcm).
  fold eligible in Herrs.
  pose proof Hwf as (_ & _ & _ & Hn & _).
  destruct (random_sample_permutation rng (map_to_list eligible) n)
    as (questions & rest & Hsample & _);
    [rewrite length_map_to_list; lia|].
  destruct Hex as [s Hs]. pose proof (source_exists_inv _ _ _ Hs) as [-> _].
  unfold run, start_quiz_for, Quiz_create. unfold_view. rewrite Hu. cbn. rewrite Hs. cbn.
  rewrite Hm, Herrs.
  assert (((0 <? Z.of_nat (size eligible)) && (Z.of_nat (size eligible) <? n))%Z = false)
    as ->.
  { apply andb_false_iff. right. apply Z.ltb_ge. lia. }
  cbn. rewrite Hcn, Hcd, Hcm. fold eligible.
  destruct (Z.ltb_spec (Z.of_nat (size eligible)) n); [lia|]. cbn.
  rewrite Hsample. cbn.
  eexists _, questions, _. split; [done|]. split; [reflexivity|].
  by split_and!.
Qed.

Lemma get_questions_for_source_lookup d source f id q :
  get_questions_for_source d source f !! id = Some q ↔
  questions d !! id = Some q ∧ in_source d source q ∧ difficulty_passes f q.
Proof.
  unfold get_questions_for_source, difficulty_passes. destruct f as [|x].
  - rewrite map_lookup_filter_Some. simpl. tauto.
  - rewrite !map_lookup_filter_Some. simpl. tauto.
Qed.


Lemma example_selection_well_formed n f :
  (1 ≤ n ≤ 50)%Z →
  well_formed_selection (db example_start) (SrcChapter 1) (post (example_selection n f)) n f.
Proof.
  intros Hn. unfold well_formed_selection. split_and!; try done; try lia.
  exists 30%nat. split; [done|]. unfold duration_choices.
  apply list_elem_of_In. simpl. tauto.
Defined.


(** C4.  A POST to a start view with the form filled in for the view and a
    count the eligible set can supply succeeds: a new open quiz of the user
    is created with total_questions = count, and the question sequence
    stored in the session for it has exactly count ids, pairwise distinct,
    each the id of a question of the scope that passes the difficulty filter
    ('all' passes every question); the cursor starts at 0.  This holds for
    every sequence of draws of the random generator. *)
Theorem sample_is_distinct_and_eligible w rng request source u n f :
  user request = Some u →
  method request = POST →
  is_Some (source_exists (db w) source) →
  well_formed_selection (db w) source (post request) n f →
  (n ≤ Z.of_nat (size (get_questions_for_source (db w) source f)))%Z →
  ∃ quiz_id quiz ids w',
    run (start_quiz_for source rng request) w = (RedirectTakeQuiz quiz_id, w') ∧
    quizzes (db w) !! quiz_id = None ∧
    quizzes (db w') !! quiz_id = Some quiz ∧
    Quiz.user quiz = u ∧
    Quiz.total_questions quiz = Z.to_nat n ∧
    Quiz.is_completed quiz = false ∧
    session_questions (session w') !! quiz_id = Some ids ∧
    session_current (session w') !! quiz_id = Some 0%Z ∧
    length ids = Z.to_nat n ∧
    NoDup ids ∧
    ∀ id, id ∈ ids →
      ∃ q, questions (db w) !! id = Some q ∧
           in_source (db w) source q ∧
           difficulty_passes f q.
Proof.
  intros Hu Hm Hex Hwf Hle.
  destruct (start_quiz_enough w rng request source u n f Hu Hm Hex Hwf Hle)
    as (quiz & questions & w' & Hsample & Hrun & Hdb & Huser & Htotal & Hopen & _
        & Hids & Hcur & _).
  pose proof Hwf as (_ & _ & _ & Hn & _).
  destruct (random_sample_ids rng
              (map_to_list (get_questions_for_source (db w) source f)) n)
    as (questions' & Hsample' & Hlen & Hnodup & Hin);
    [apply NoDup_fst_map_to_list | rewrite length_map_to_list; lia |].
  rewrite Hsample in Hsample'. injection Hsample' as <-.
  exists (fresh (dom (quizzes (db w)))), quiz, questions.*1, w'.
  split_and!; try done.
  - apply not_elem_of_dom, is_fresh.
  - rewrite Hdb. simpl. apply lookup_insert_eq.
  - rewrite Hids. apply lookup_insert_eq.
  - rewrite Hcur. apply lookup_insert_eq.
  - intros id Hid. apply list_elem_of_fmap in Hid as ([id' q] & -> & Hq).
    exists q. apply get_questions_for_source_lookup.
    by apply elem_of_map_to_list, Hin.
Qed.

Lemma sample_is_distinct_and_eligible_witness :
  ∃ quiz_id ids w',
    run (start_quiz (λ i, (7 * i + 5)%nat) (example_selection 2 all) 1) example_start
    = (RedirectTakeQuiz quiz_id, w') ∧
    session_questions (session w') !! quiz_id = Some ids ∧
    length ids = 2%nat ∧
    NoDup ids.
Proof.
  destruct (sample_is_distinct_and_eligible example_start (λ i, (7 * i + 5)%nat)
              (example_selection 2 all) (SrcChapter 1) 7 2 all)
    as (quiz_id & quiz & ids & w' & Hrun & _ & _ & _ & _ & _ & Hids & _ & Hlen & Hnd & _).
  - reflexivity.
  - reflexivity.
  - by eexists.
  - apply example_selection_well_formed. lia.
  - vm_compute. discriminate.
  - exists quiz_id, ids, w'. split_and!; [exact Hrun | exact Hids | exact Hlen | exact Hnd].
Defined.

(** The sample of the worked example: with four eligible questions and the
    draws 5, 12, ... the loop picks positions 1 and 0 of the pool. *)
Example sample_example :
  random_sample (λ i, (7 * i + 5)%nat) [10; 20; 30; 40]%nat 2 = Some [20; 10]%nat.
Proof. reflexivity. Qed.

(** ** The one-answer-per-question invariant

    The hypothesis of [at_question] that the question under the cursor has at
    most one answer row is an invariant of the views. *)

Lemma QuizAnswer_get_not_multiple d quiz question :
  QuizAnswer_get d quiz question ≠ MultipleObjects ↔
  (length (List.filter (answer_matches quiz question) (answers d)) ≤ 1)%nat.
Proof.
  unfold QuizAnswer_get.
  destruct (List.filter (answer_matches quiz question) (answers d)) as [|a [|b l]];
    simpl; split; try done; try lia.
Qed.

Lemma filter_filter_length {A} (p r : A → bool) l :
  (length (List.filter p (List.filter r l)) ≤ length (List.filter p l))%nat.
Proof.
  induction l as [|x l IH]; [done|]. simpl.
  destruct (r x), (p x) eqn:E; simpl; rewrite ?E; simpl; lia.
Qed.

Lemma answers_unique_with_statuses d s :
  answers_unique d → answers_unique (with_statuses d s).
Proof. done. Qed.

Lemma answers_unique_delete d quiz question :
  answers_unique d → answers_unique (QuizAnswer_delete quiz question d).
Proof.
  intros H q k. apply QuizAnswer_get_not_multiple. simpl.
  etrans; [apply filter_filter_length|]. by apply QuizAnswer_get_not_multiple.
Qed.

Lemma filter_map_stable {A} (p : A → bool) (f : A → A) l :
  (∀ x, p (f x) = p x) →
  List.filter p (List.map f l) = List.map f (List.filter p l).
Proof.
  intros Hp. induction l as [|x l IH]; [done|]. simpl. rewrite Hp.
  destruct (p x); simpl; by rewrite IH.
Qed.

Lemma answers_unique_save d quiz question ua ok :
  answers_unique d → answers_unique (QuizAnswer_save quiz question ua ok d).
Proof.
  intros H q k. apply QuizAnswer_get_not_multiple. simpl.
  rewrite filter_map_stable, length_map; [by apply QuizAnswer_get_not_multiple|].
  intros x. by destruct (answer_matches quiz question x).
Qed.

Lemma answers_unique_create d quiz question ua ok :
  answers_unique d →
  QuizAnswer_get d quiz question = DoesNotExist →
  answers_unique
    (QuizAnswer_create
       {| QuizAnswer.quiz := quiz; QuizAnswer.question := question;
          QuizAnswer.user_answer := ua; QuizAnswer.is_correct := ok |} d).
Proof.
  intros H Hnone q k. apply QuizAnswer_get_not_multiple. simpl.
  rewrite List.filter_app, length_app. simpl.
  specialize (H q k). apply QuizAnswer_get_not_multiple in H.
  unfold answer_matches at 2. simpl.
  destruct (Nat.eqb_spec quiz q) as [->|]; simpl; [|lia].
  destruct (Nat.eqb_spec question k) as [->|]; simpl; [|lia].
  unfold QuizAnswer_get in Hnone.
  destruct (List.filter (answer_matches q k) (answers d)) as [|a [|b l]]; done.
Qed.

Section keeps.
Context (P : DB → Prop).

Lemma keeps_ret {A} (a : A) : keeps P (mret a).
Proof. by intros w. Qed.

Lemma keeps_respond {A} r : keeps P (@respond A r).
Proof. by intros w. Qed.

Lemma keeps_raise {A} e : keeps P (@raise A e).
Proof. by intros w. Qed.

Lemma keeps_bind {A B} (m : View A) (k : A → View B) :
  keeps P m → (∀ a, keeps P (k a)) → keeps P (m ≫= k).
Proof.
  intros Hm Hk w Hw. unfold mbind, View_bind, bind.
  specialize (Hm w Hw). destruct (m w) as [[a|r] w']; [by apply Hk | done].
Qed.

Lemma keeps_get_db {A} (k : DB → View A) :
  (∀ d, P d → keeps P (k d)) → keeps P (get_db ≫= k).
Proof. intros Hk w Hw. unfold mbind, View_bind, bind, get_db. by apply Hk. Qed.

Lemma keeps_put_db d : P d → keeps P (put_db d).
Proof. by intros Hd w _. Qed.

Lemma keeps_get_session : keeps P get_session.
Proof. by intros w. Qed.

Lemma keeps_put_session s : keeps P (put_session s).
Proof. by intros w. Qed.

Lemma keeps_add_message l t : keeps P (add_message l t).
Proof. by intros w. Qed.

End keeps.

Ltac keeps_step :=
  first
    [ apply keeps_ret | apply keeps_respond | apply keeps_raise
    | apply keeps_get_session | apply keeps_put_session | apply keeps_add_message
    | apply keeps_get_db; intros ? ?
    | apply keeps_bind; [|intros ?]
    | match goal with
      | |- keeps _ (match ?x with _ => _ end) => destruct x eqn:?
      end ].


Lemma answers_unique_with_quizzes d q :
  answers_unique d → answers_unique (with_quizzes d q).
Proof. done. Qed.

Lemma quiz_results_keeps_answers_unique now request quiz_id :
  keeps answers_unique (quiz_results now request quiz_id).
Proof.
  unfold quiz_results, seal_quiz, login_required, get_object_or_404.
  repeat keeps_step;
    try (apply keeps_put_db; eauto using answers_unique_with_quizzes).
Qed.

Lemma start_quiz_for_keeps_answers_unique source rng request :
  keeps answers_unique (start_quiz_for source rng request).
Proof.
  unfold start_quiz_for, Quiz_create, login_required, get_object_or_404.
  repeat keeps_step;
    try (apply keeps_put_db; eauto using answers_unique_with_quizzes).
Qed.

(** * Further properties of the views *)

(** ** Triples *)

Lemma run_snd (v : View Response) w : (run v w).2 = (v w).2.
Proof. unfold run. by destruct (v w) as [[?|?] ?]. Qed.

Lemma run_fst_Return (v : View Response) w r w' :
  v w = (Return r, w') → run v w = (r, w').
Proof. unfold run. by intros ->. Qed.

Section hoare.
Context {A : Type}.
Implicit Types (P Q R : World → Prop).

Lemma hoare_consequence P P' Q Q' (v : View A) :
  hoare P' v Q' → (∀ w, P w → P' w) → (∀ w, Q' w → Q w) → hoare P v Q.
Proof. intros Hv HP HQ w Hw. by apply HQ, Hv, HP. Qed.

Lemma hoare_ret P Q (a : A) : (∀ w, P w → Q w) → hoare P (mret a) Q.
Proof. intros H w. apply H. Qed.

Lemma hoare_respond P Q r : (∀ w, P w → Q w) → hoare P (@respond A r) Q.
Proof. intros H w. apply H. Qed.

Lemma hoare_raise P Q e : (∀ w, P w → Q w) → hoare P (@raise A e) Q.
Proof. intros H w. apply H. Qed.

(** Sequencing: the world an early return of [m] leaves must be acceptable
    as a final world too. *)
Lemma hoare_bind {B} P Q R (m : View B) (k : B → View A) :
  hoare P m Q → (∀ w, Q w → R w) → (∀ b, hoare Q (k b) R) → hoare P (m ≫= k) R.
Proof.
  intros Hm HQR Hk w Hw. unfold mbind, View_bind, bind.
  specialize (Hm w Hw). destruct (m w) as [[b|r] w']; simpl in *.
  - by apply Hk.
  - by apply HQR.
Qed.

Lemma hoare_get_db P Q (k : DB → View A) :
  (∀ d, hoare (λ w, P w ∧ db w = d) (k d) Q) → hoare P (get_db ≫= k) Q.
Proof. intros Hk w Hw. unfold mbind, View_bind, bind, get_db. by apply Hk. Qed.

Lemma hoare_get_session P Q (k : Session → View A) :
  (∀ s, hoare (λ w, P w ∧ session w = s) (k s) Q) → hoare P (get_session ≫= k) Q.
Proof. intros Hk w Hw. unfold mbind, View_bind, bind, get_session. by apply Hk. Qed.

End hoare.

Lemma hoare_put_db (P Q : World → Prop) d :
  (∀ w, P w → Q {| db := d; session := session w; messages := messages w |}) →
  hoare P (put_db d) Q.
Proof. intros H w Hw. by apply H. Qed.

Lemma hoare_put_session (P Q : World → Prop) s :
  (∀ w, P w → Q {| db := db w; session := s; messages := messages w |}) →
  hoare P (put_session s) Q.
Proof. intros H w Hw. by apply H. Qed.

Lemma hoare_add_message (P Q : World → Prop) l t :
  (∀ w, P w →
        Q {| db := db w; session := session w;
             messages := (messages w ++ [ {| level := l; text := t |} ])%list |}) →
  hoare P (add_message l t) Q.
Proof. intros H w Hw. by apply H. Qed.

(** A property of the database alone that [keeps] preserves is preserved as
    a triple. *)
Lemma keeps_hoare {A} (P : DB → Prop) (v : View A) :
  keeps P v → hoare (λ w, P (db w)) v (λ w, P (db w)).
Proof. intros H w. apply H. Qed.

(** One step of a proof that a view keeps [P]: the triple [hoare P v P],
    where a read of the database or the session is remembered until the write
    that follows it. *)
Ltac hoare_step P :=
  first
    [ apply hoare_ret; intros ? ?
    | apply hoare_respond; intros ? ?
    | apply hoare_raise; intros ? ?
    | apply hoare_get_db; intros ?
    | apply hoare_get_session; intros ?
    | apply hoare_put_db; intros ? ?
    | apply hoare_put_session; intros ? ?
    | apply hoare_add_message; intros ? ?
    | apply (hoare_bind _ P P); [ | by intros ? | intros ? ]
    | match goal with
      | |- hoare _ (match ?x with _ => _ end) _ => destruct x eqn:?
      end ].

Ltac unfold_take_quiz :=
  unfold take_quiz, take_quiz_post, take_quiz_render, action_mark_for_review,
    action_clear_answer, action_next, action_jump_to, status_get_or_create,
    login_required, get_object_or_404.

(** ** What [take_quiz] never writes *)

Lemma take_quiz_frame request quiz_id w :
  let w' := (run (take_quiz request quiz_id) w).2 in
  quizzes (db w') = quizzes (db w) ∧
  questions (db w') = questions (db w) ∧
  chapters (db w') = chapters (db w) ∧
  books (db w') = books (db w) ∧
  session_questions (session w') = session_questions (session w).
Proof.
  simpl. rewrite run_snd.
  set (P := λ w0 : World,
         quizzes (db w0) = quizzes (db w) ∧
         questions (db w0) = questions (db w) ∧
         chapters (db w0) = chapters (db w) ∧
         books (db w0) = books (db w) ∧
         session_questions (session w0) = session_questions (session w)).
  assert (H : hoare P (take_quiz request quiz_id) P); [|by apply H].
  unfold_take_quiz.
  repeat hoare_step P; unfold P in *; simpl in *; destruct_and?; subst; by simpl.
Qed.

(** X1.  [take_quiz] writes answers, statuses, the cursor and messages only: the
    books, chapters, questions and quizzes (so every score, end time and
    completion flag) and the question sequence of every quiz in the session
    are left as they were, whatever the request. *)
Theorem take_quiz_leaves_quizzes_and_sequences request quiz_id w :
  let w' := (run (take_quiz request quiz_id) w).2 in
  quizzes (db w') = quizzes (db w) ∧
  questions (db w') = questions (db w) ∧
  chapters (db w') = chapters (db w) ∧
  books (db w') = books (db w) ∧
  session_questions (session w') = session_questions (session w).
Proof. apply take_quiz_frame. Qed.

(** ** Requests that are turned away *)

Lemma Quiz_of_user_foreign d quiz_id u :
  (∀ quiz, quizzes d !! quiz_id = Some quiz → Quiz.user quiz ≠ u) →
  Quiz_of_user d quiz_id u = None.
Proof.
  intros H. unfold Quiz_of_user. destruct (quizzes d !! quiz_id) as [q|]; [|done].
  destruct (Nat.eqb_spec (Quiz.user q) u) as [E|]; [|done]. by destruct (H q).
Qed.

(** X2.  A quiz of another user is answered exactly like a quiz that does not
    exist: [take_quiz] and [quiz_results] both give a 404 and change nothing,
    so the response does not tell the two cases apart. *)
Theorem foreign_quiz_is_not_found now request quiz_id u w :
  user request = Some u →
  (∀ quiz, quizzes (db w) !! quiz_id = Some quiz → Quiz.user quiz ≠ u) →
  run (take_quiz request quiz_id) w = (Http404, w) ∧
  run (quiz_results now request quiz_id) w = (Http404, w).
Proof.
  intros Hu Hforeign. pose proof (Quiz_of_user_foreign _ _ _ Hforeign) as Hq.
  split.
  - unfold run, take_quiz, Quiz_open_of_user. unfold_view. rewrite Hu. simpl.
    by rewrite Hq.
  - unfold run, quiz_results. unfold_view. rewrite Hu. simpl. by rewrite Hq.
Qed.

Lemma foreign_quiz_is_not_found_witness :
  let request := {| user := Some 8%nat; method := POST; post := no_post |} in
  let w := example_world (example_quiz 2 false) [] ∅ 0 in
  run (take_quiz request 1) w = (Http404, w) ∧
  run (quiz_results 100 request 1) w = (Http404, w).
Proof.
  apply (foreign_quiz_is_not_found 100 _ 1 8); [reflexivity|].
  intros quiz Hq. vm_compute in Hq. injection Hq as <-. vm_compute. lia.
Defined.

Lemma take_quiz_finished request quiz_id u quiz w :
  user request = Some u →
  Quiz_open_of_user (db w) quiz_id u = Some quiz →
  (default [] (session_questions (session w) !! quiz_id) = [] ∨
   (Z.of_nat (length (default [] (session_questions (session w) !! quiz_id)))
    ≤ cursor w quiz_id)%Z) →
  run (take_quiz request quiz_id) w = (RedirectQuizResults quiz_id, w).
Proof.
  intros Hu Hq Hdone. unfold run, take_quiz. unfold_view. rewrite Hu. simpl.
  rewrite Hq. simpl.
  assert (bool_decide (default [] (session_questions (session w) !! quiz_id) = [])
          || (Z.of_nat (length (default [] (session_questions (session w) !! quiz_id)))
              <=? default 0 (session_current (session w) !! quiz_id))%Z = true) as ->;
    [|done].
  apply orb_true_iff. destruct Hdone as [H|H].
  - left. by apply bool_decide_eq_true_2.
  - right. by apply Z.leb_le.
Qed.

(** X3.  Once the cursor has passed the last question, or when the session holds
    no question sequence for the quiz (an empty one, or none at all because
    the session was lost), every request to [take_quiz] for the open quiz,
    whatever its method and action, is redirected to the results and changes
    nothing. *)
Theorem finished_session_redirects request quiz_id u quiz w :
  user request = Some u →
  Quiz_open_of_user (db w) quiz_id u = Some quiz →
  (default [] (session_questions (session w) !! quiz_id) = [] ∨
   (Z.of_nat (length (default [] (session_questions (session w) !! quiz_id)))
    ≤ cursor w quiz_id)%Z) →
  run (take_quiz request quiz_id) w = (RedirectQuizResults quiz_id, w).
Proof. apply take_quiz_finished. Qed.

Lemma finished_session_redirects_witness :
  run (take_quiz (example_post "mark_for_review" None None) 1)
    (example_world (example_quiz 2 false) [] ∅ 2)
  = (RedirectQuizResults 1, example_world (example_quiz 2 false) [] ∅ 2).
Proof.
  apply (finished_session_redirects _ 1 7 (example_quiz 2 false)).
  - reflexivity.
  - reflexivity.
  - right. vm_compute. discriminate.
Defined.

(** ** Requests that change nothing *)







(** X5.  A POST whose action is none of the four the view knows is ignored: the
    current question is rendered again, nothing is written and no message is
    added, whatever answer or index comes with it. *)
Theorem unknown_action_is_ignored w request quiz_id u quiz question_ids current_index
    question_id question :
  at_question w request quiz_id u quiz question_ids current_index question_id question →
  default "next" (action (post request)) ≠ "mark_for_review" →
  default "next" (action (post request)) ≠ "clear_answer" →
  default "next" (action (post request)) ≠ "next" →
  default "next" (action (post request)) ≠ "jump_to" →
  ∃ ctx,
    run (take_quiz request quiz_id) w = (RenderTakeQuiz ctx, w) ∧
    tq_current_index ctx = current_index ∧
    tq_question ctx = question_id.
Proof.
  intros Hat H1 H2 H3 H4. pose proof Hat as (_ & _ & _ & _ & _ & _ & _ & _ & Hone).
  apply String.eqb_neq in H1, H2, H3, H4.
  unfold run. rewrite (take_quiz_at_question _ _ _ _ _ _ _ _ _ Hat).
  unfold take_quiz_post. rewrite H1, H2, H3, H4. simpl. rewrite andb_false_r.
  unfold take_quiz_render. unfold_view. simpl.
  destruct (QuizAnswer_get (db w) quiz_id question_id); [| |done];
    eexists; (split; [by destruct w|done]).
Qed.

Lemma unknown_action_is_ignored_witness :
  ∃ ctx,
    run (take_quiz (example_post "skip" (Some "B") None) 1)
      (example_world (example_quiz 2 false) [] ∅ 0)
    = (RenderTakeQuiz ctx, example_world (example_quiz 2 false) [] ∅ 0) ∧
    tq_current_index ctx = 0%Z ∧
    tq_question ctx = 3%nat.
Proof.
  apply (unknown_action_is_ignored _ _ 1 7 (example_quiz 2 false) [3; 1]%nat 0 3
           (example_question "B" easy)).
  - unfold at_question. split_and!; try reflexivity; try (simpl; lia). vm_compute; discriminate.
  - discriminate.
  - discriminate.
  - discriminate.
  - discriminate.
Defined.

(** X6.  A [jump_to] whose index is not an integer literal raises [ValueError]
    (an uncaught exception, so a server error) before anything is written. *)
Theorem jump_to_non_integer_raises w request quiz_id u quiz question_ids current_index
    question_id question :
  at_question w request quiz_id u quiz question_ids current_index question_id question →
  default "next" (action (post request)) = "jump_to" →
  question_index (post request) = Some not_an_int →
  run (take_quiz request quiz_id) w = (ServerError ValueError, w).
Proof.
  intros Hat Hact Hidx.
  unfold run. rewrite (take_quiz_at_question _ _ _ _ _ _ _ _ _ Hat).
  unfold take_quiz_post. rewrite Hact. simpl.
  unfold action_jump_to. rewrite Hidx. by unfold_view.
Qed.

Lemma jump_to_non_integer_raises_witness :
  run (take_quiz (example_post "jump_to" None (Some not_an_int)) 1)
    (example_world (example_quiz 2 false) [] ∅ 0)
  = (ServerError ValueError, example_world (example_quiz 2 false) [] ∅ 0).
Proof.
  apply (jump_to_non_integer_raises _ _ 1 7 (example_quiz 2 false) [3; 1]%nat 0 3
           (example_question "B" easy)).
  - unfold at_question. split_and!; try reflexivity; try (simpl; lia). vm_compute; discriminate.
  - reflexivity.
  - reflexivity.
Defined.

(** ** The rendered page *)






(** ** Submitting and moving on *)




(** ** Quizzes do not interfere *)







(** ** The stored answers fit the question sequences *)

Lemma sound_with_statuses d s x :
  sequences_sound d s → sequences_sound (with_statuses d x) s.
Proof. done. Qed.

Lemma sound_session d s s' :
  sequences_sound d s →
  (∀ quiz_id ids, session_questions s' !! quiz_id = Some ids →
                  session_questions s !! quiz_id = Some ids) →
  sequences_sound d s'.
Proof.
  intros (Hu & Hfk & Hkeys & Hseq) Hsub. split_and!; try done.
  - intros quiz_id [ids Hids]. apply Hkeys. rewrite (Hsub _ _ Hids). by eexists.
  - intros quiz_id quiz Hq. destruct (Hseq quiz_id quiz Hq) as (ids & ? & ? & ? & Hag).
    exists ids. split_and!; try done. intros ids' Hids'. by apply Hag, Hsub.
Qed.

Lemma sound_delete d s quiz question :
  sequences_sound d s → sequences_sound (QuizAnswer_delete quiz question d) s.
Proof.
  intros (Hu & Hfk & Hkeys & Hseq).
  assert (Hin : ∀ row, row ∈ answers (QuizAnswer_delete quiz question d) → row ∈ answers d).
  { intros row Hrow. simpl in Hrow.
    apply list_elem_of_In, List.filter_In in Hrow as [Hrow _]. by apply list_elem_of_In. }
  split_and!; try done.
  - by apply answers_unique_delete.
  - intros row Hrow. by apply Hfk, Hin.
  - intros quiz_id quiz' Hq. destruct (Hseq quiz_id quiz' Hq) as (ids & ? & ? & Hrows & ?).
    exists ids. split_and!; try done. intros row Hrow. by apply Hrows, Hin.
Qed.

Lemma sound_save d s quiz question ua ok :
  sequences_sound d s → sequences_sound (QuizAnswer_save quiz question ua ok d) s.
Proof.
  intros (Hu & Hfk & Hkeys & Hseq).
  assert (Hin : ∀ row, row ∈ answers (QuizAnswer_save quiz question ua ok d) →
                  ∃ row0, row0 ∈ answers d ∧
                          QuizAnswer.quiz row = QuizAnswer.quiz row0 ∧
                          QuizAnswer.question row = QuizAnswer.question row0).
  { intros row Hrow. simpl in Hrow.
    apply list_elem_of_In, List.in_map_iff in Hrow as (row0 & <- & Hrow0).
    exists row0. split; [by apply list_elem_of_In|].
    by destruct (answer_matches quiz question row0). }
  split_and!; try done.
  - by apply answers_unique_save.
  - intros row Hrow. destruct (Hin row Hrow) as (row0 & Hrow0 & -> & _). by apply Hfk.
  - intros quiz_id quiz' Hq. destruct (Hseq quiz_id quiz' Hq) as (ids & ? & ? & Hrows & ?).
    exists ids. split_and!; try done.
    intros row Hrow Hquiz. destruct (Hin row Hrow) as (row0 & Hrow0 & E1 & ->).
    apply Hrows; [done|congruence].
Qed.

Lemma sound_create d s quiz question ua ok ids :
  sequences_sound d s →
  QuizAnswer_get d quiz question = DoesNotExist →
  session_questions s !! quiz = Some ids →
  question ∈ ids →
  sequences_sound
    (QuizAnswer_create
       {| QuizAnswer.quiz := quiz; QuizAnswer.question := question;
          QuizAnswer.user_answer := ua; QuizAnswer.is_correct := ok |} d) s.
Proof.
  intros (Hu & Hfk & Hkeys & Hseq) Hnone Hids Hin.
  assert (Hrows : ∀ row,
    row ∈ answers (QuizAnswer_create
                     {| QuizAnswer.quiz := quiz; QuizAnswer.question := question;
                        QuizAnswer.user_answer := ua; QuizAnswer.is_correct := ok |} d) →
    row ∈ answers d ∨ (QuizAnswer.quiz row = quiz ∧ QuizAnswer.question row = question)).
  { intros row Hrow. simpl in Hrow. apply elem_of_app in Hrow as [?|Hrow]; [by left|].
    apply list_elem_of_singleton in Hrow as ->. by right. }
  split_and!; try done.
  - by apply answers_unique_create.
  - intros row Hrow. destruct (Hrows row Hrow) as [?|[-> _]]; [by apply Hfk|].
    apply Hkeys. by eexists.
  - intros quiz_id quiz' Hq.
    destruct (Hseq quiz_id quiz' Hq) as (ids0 & ? & ? & Hold & Hag).
    exists ids0. split_and!; try done.
    intros row Hrow Hquiz. destruct (Hrows row Hrow) as [?|[E1 ->]]; [by apply Hold|].
    rewrite <- (Hag ids); [done|congruence].
Qed.

Lemma py_getitem_elem {A} (l : list A) i x : py_getitem l i = Some x → x ∈ l.
Proof.
  unfold py_getitem. intros H. apply list_elem_of_lookup.
  destruct (0 <=? i)%Z; [by eexists|].
  destruct (- Z.of_nat (length l) <=? i)%Z; [by eexists|done].
Qed.

Lemma hoare_pure {A} (φ : Prop) (P Q : World → Prop) (v : View A) :
  (∀ w, P w → φ) → (φ → hoare P v Q) → hoare P v Q.
Proof. intros Hφ Hv w Hw. apply Hv; [by eapply Hφ | done]. Qed.

Lemma py_getitem_session_elem (sq : gmap nat (list nat)) quiz_id i x :
  py_getitem (default [] (sq !! quiz_id)) i = Some x →
  ∃ ids, sq !! quiz_id = Some ids ∧ x ∈ ids.
Proof.
  intros H. apply py_getitem_elem in H.
  destruct (sq !! quiz_id) as [ids|]; [by exists ids|]. by apply elem_of_nil in H.
Qed.

(** [take_quiz] keeps the answers and the sequences fitting: the only row it
    creates is for the question under the cursor, which is one of the
    sequence, and only after [get] found no row for it. *)
Lemma take_quiz_keeps_sequences_sound request quiz_id w :
  sequences_sound (db w) (session w) →
  sequences_sound (db (take_quiz request quiz_id w).2)
    (session (take_quiz request quiz_id w).2).
Proof.
  intros Hsound.
  set (P := λ w0 : World,
         sequences_sound (db w0) (session w0) ∧
         session_questions (session w0) = session_questions (session w)).
  assert (H : hoare P (take_quiz request quiz_id) P); [|by apply H].
  unfold_take_quiz.
  repeat first
    [ apply hoare_get_session; intros s;
      apply (hoare_pure (session_questions s = session_questions (session w)));
      [ unfold P; by intros ? [[_ ?] <-] | intros Hs ]
    | hoare_step P ];
    unfold P in *; simpl in *; destruct_and?; subst;
    try done;
    (split; [|done]);
    eauto using sound_with_statuses, sound_delete, sound_save.
  all: try (eapply sound_session; [eassumption|]; simpl; done).
  match goal with
  | Hget : py_getitem _ _ = Some _ |- _ =>
      apply py_getitem_session_elem in Hget as (ids & Hids & Hin)
  end.
  eapply sound_create; try done. congruence.
Qed.

Lemma sound_seal d s s' quiz_id quiz quiz' :
  sequences_sound d s →
  quizzes d !! quiz_id = Some quiz →
  Quiz.total_questions quiz' = Quiz.total_questions quiz →
  (∀ q ids, session_questions s' !! q = Some ids → session_questions s !! q = Some ids) →
  sequences_sound (with_quizzes d (<[quiz_id := quiz']> (quizzes d))) s'.
Proof.
  intros Hsound Hq Htotal Hsub.
  apply (sound_session _ s); [|done].
  destruct Hsound as (Hu & Hfk & Hkeys & Hseq). split_and!; simpl.
  - by apply answers_unique_with_quizzes.
  - intros row Hrow. apply lookup_insert_is_Some'. right. by apply Hfk.
  - intros q Hs. apply lookup_insert_is_Some'. right. by apply Hkeys.
  - intros q quiz0. destruct (decide (q = quiz_id)) as [->|Hne].
    + rewrite lookup_insert_eq. intros [= <-]. rewrite Htotal. by apply Hseq.
    + rewrite lookup_insert_ne by done. apply Hseq.
Qed.

Lemma quiz_results_keeps_sequences_sound now request quiz_id w :
  sequences_sound (db w) (session w) →
  sequences_sound (db (quiz_results now request quiz_id w).2)
    (session (quiz_results now request quiz_id w).2).
Proof.
  intros Hsound. unfold quiz_results, seal_quiz. unfold_view.
  destruct (user request) as [u|]; [|done]. simpl.
  destruct (Quiz_of_user (db w) quiz_id u) as [quiz|] eqn:Hq; [|done]. simpl.
  apply Quiz_of_user_lookup in Hq as [Hq _].
  destruct (Quiz.is_completed quiz); [done|]. simpl.
  eapply sound_seal; [done| done |done|]. simpl.
  intros q ids Hd. by apply lookup_delete_Some in Hd as [_ ?].
Qed.

Lemma sound_quiz_create d s quiz :
  sequences_sound d s →
  sequences_sound (with_quizzes d (<[fresh (dom (quizzes d)) := quiz]> (quizzes d))) s.
Proof.
  intros (Hu & Hfk & Hkeys & Hseq).
  pose proof (is_fresh (dom (quizzes d))) as Hfresh.
  rewrite elem_of_dom in Hfresh.
  split_and!; simpl.
  - by apply answers_unique_with_quizzes.
  - intros row Hrow. apply lookup_insert_is_Some'. right. by apply Hfk.
  - intros q Hs. apply lookup_insert_is_Some'. right. by apply Hkeys.
  - intros q quiz0. destruct (decide (q = fresh (dom (quizzes d)))) as [->|Hne].
    + rewrite lookup_insert_eq. intros [= <-].
      exists (seq 0 (Quiz.total_questions quiz)).
      split_and!; [apply NoDup_seq | apply length_seq | |].
      * intros row Hrow Hquiz. destruct Hfresh. rewrite <- Hquiz. by apply Hfk.
      * intros ids' Hids'. destruct Hfresh. apply Hkeys. by eexists.
    + rewrite lookup_insert_ne by done. apply Hseq.
Qed.

Lemma sound_session_set d s quiz_id quiz ids c :
  sequences_sound d s →
  quizzes d !! quiz_id = Some quiz →
  (∀ row, row ∈ answers d → QuizAnswer.quiz row ≠ quiz_id) →
  NoDup ids →
  length ids = Quiz.total_questions quiz →
  sequences_sound d
    {| session_questions := <[quiz_id := ids]> (session_questions s);
       session_current := c |}.
Proof.
  intros (Hu & Hfk & Hkeys & Hseq) Hq Hnone Hnd Hlen. split_and!; simpl; try done.
  - intros q Hs. apply lookup_insert_is_Some' in Hs as [->|Hs]; [by eexists|by apply Hkeys].
  - intros q quiz0 Hq0. destruct (decide (q = quiz_id)) as [->|Hne].
    + exists ids. assert (quiz0 = quiz) as -> by congruence.
      split_and!; try done.
      * intros row Hrow Hquiz. by destruct (Hnone row Hrow).
      * rewrite lookup_insert_eq. congruence.
    + destruct (Hseq q quiz0 Hq0) as (ids0 & ? & ? & ? & Hag).
      exists ids0. split_and!; try done. by rewrite lookup_insert_ne.
Qed.

Lemma random_sample_Some_ids {B} rng (population : list (nat * B)) k result :
  NoDup population.*1 →
  random_sample rng population k = Some result →
  length result.*1 = Z.to_nat k ∧ NoDup result.*1 ∧ (0 ≤ k ≤ Z.of_nat (length population))%Z.
Proof.
  intros Hnd Hsample.
  assert (Hk : (0 ≤ k ≤ Z.of_nat (length population))%Z).
  { unfold random_sample in Hsample.
    destruct (Z.leb_spec 0 k); [|done].
    destruct (Z.leb_spec k (Z.of_nat (length population))); [|done]. lia. }
  destruct (random_sample_ids rng population k Hnd Hk) as (result' & Hs & ? & ? & _).
  rewrite Hsample in Hs. injection Hs as <-. done.
Qed.

Lemma start_quiz_for_keeps_sequences_sound source rng request w :
  sequences_sound (db w) (session w) →
  sequences_sound (db (start_quiz_for source rng request w).2)
    (session (start_quiz_for source rng request w).2).
Proof.
  intros Hsound. unfold start_quiz_for, Quiz_create. unfold_view.
  destruct (user request) as [u|]; [|done]. cbn.
  destruct (source_exists (db w) source) as [source'|]; [|done]. cbn.
  destruct (method request); [done|].
  destruct (QuizSelectionForm_errors _ _ _ _) as [cleaned [|e errs]]; [|done].
  destruct (cleaned_num_questions cleaned) as [n|]; [|done].
  destruct (cleaned_difficulty cleaned) as [f|]; [|done].
  destruct (cleaned_duration_minutes cleaned) as [m|]; [|done].
  destruct (Z.of_nat (size (get_questions_for_source (db w) source' f)) <? n)%Z; [done|].
  cbn.
  lazymatch goal with
  | |- context [<[_ := ?quiz]> (quizzes (db w))] =>
      pose proof (sound_quiz_create (db w) (session w) quiz Hsound) as Hcreated
  end.
  destruct (random_sample rng _ n) as [questions|] eqn:Hsample; cbn; [|done].
  apply random_sample_Some_ids in Hsample as (Hlen & Hnd & _);
    [|apply NoDup_fst_map_to_list].
  eapply sound_session_set.
  - exact Hcreated.
  - simpl. apply lookup_insert_eq.
  - simpl. intros row Hrow Hquiz.
    destruct Hsound as (_ & Hfk & _).
    pose proof (is_fresh (dom (quizzes (db w)))) as Hfresh.
    apply Hfresh, elem_of_dom. rewrite <- Hquiz. by apply Hfk.
  - exact Hnd.
  - exact Hlen.
Qed.

Lemma step_keeps_sequences_sound w w' :
  step w w' → sequences_sound (db w) (session w) → sequences_sound (db w') (session w').
Proof.
  intros Hstep Hsound. destruct Hstep; rewrite ?run_snd.
  - by apply start_quiz_for_keeps_sequences_sound.
  - by apply start_quiz_for_keeps_sequences_sound.
  - by apply take_quiz_keeps_sequences_sound.
  - by apply quiz_results_keeps_sequences_sound.
  - simpl. by apply (sound_session _ (session w)).
  - done.
Qed.

Lemma no_quiz_yet_sound w : no_quiz_yet w → sequences_sound (db w) (session w).
Proof.
  intros (Hq & Ha & _ & Hs & _). split_and!.
  - intros q k. unfold QuizAnswer_get. by rewrite Ha.
  - intros row. rewrite Ha. by intros ?%elem_of_nil.
  - intros q. rewrite Hs, lookup_empty. by intros [? ?].
  - intros q quiz. by rewrite Hq, lookup_empty.
Qed.

Lemma reachable_sound w : reachable w → sequences_sound (db w) (session w).
Proof.
  intros (w0 & H0 & Hsteps). apply no_quiz_yet_sound in H0.
  induction Hsteps as [|w1 w2 w3 Hstep _ IH]; [done|].
  apply IH. by eapply step_keeps_sequences_sound.
Qed.

(** The questions of the answer rows of one quiz are pairwise distinct when
    no (quiz, question) has two rows. *)
Lemma quiz_answers_questions_NoDup d quiz_id :
  answers_unique d → NoDup (QuizAnswer.question <$> quiz_answers d quiz_id).
Proof.
  intros Hu.
  assert (H : ∀ k, (length (List.filter (answer_matches quiz_id k) (answers d)) ≤ 1)%nat)
    by (intros k; by apply QuizAnswer_get_not_multiple).
  clear Hu. unfold quiz_answers. induction (answers d) as [|a l IH]; [constructor|].
  assert (Hl : ∀ k, (length (List.filter (answer_matches quiz_id k) l) ≤ 1)%nat).
  { intros k. specialize (H k). simpl in H.
    destruct (answer_matches quiz_id k a); simpl in H; lia. }
  simpl. destruct (Nat.eqb_spec (QuizAnswer.quiz a) quiz_id) as [E|E]; [|by apply IH].
  rewrite fmap_cons. constructor; [|by apply IH].
  intros Hin. apply list_elem_of_fmap in Hin as (b & Hq & Hb).
  apply list_elem_of_In, List.filter_In in Hb as [Hb Hbq].
  specialize (H (QuizAnswer.question a)). simpl in H.
  assert (Ha : answer_matches quiz_id (QuizAnswer.question a) a = true)
    by (unfold answer_matches; rewrite E, !Nat.eqb_refl; done).
  rewrite Ha in H. simpl in H.
  assert (Hb' : b ∈ List.filter (answer_matches quiz_id (QuizAnswer.question a)) l).
  { apply list_elem_of_In, List.filter_In. split; [done|].
    unfold answer_matches. rewrite Hbq, Hq, Nat.eqb_refl. done. }
  destruct (List.filter (answer_matches quiz_id (QuizAnswer.question a)) l);
    [by apply elem_of_nil in Hb' | simpl in H; lia].
Qed.

Lemma sound_answers_le d s quiz_id quiz :
  sequences_sound d s →
  quizzes d !! quiz_id = Some quiz →
  (length (quiz_answers d quiz_id) ≤ Quiz.total_questions quiz)%nat.
Proof.
  intros (Hu & _ & _ & Hseq) Hq.
  destruct (Hseq quiz_id quiz Hq) as (ids & Hnd & <- & Hrows & _).
  rewrite <- (length_fmap QuizAnswer.question).
  apply submseteq_length, NoDup_submseteq; [by apply quiz_answers_questions_NoDup|].
  intros k Hk. apply list_elem_of_fmap in Hk as (row & -> & Hrow).
  apply list_elem_of_In, List.filter_In in Hrow as [Hrow Hquiz].
  apply Hrows; [by apply list_elem_of_In | by apply Nat.eqb_eq].
Qed.

(** X10.  Whatever requests the views have served since the site had no quiz, no
    (quiz, question) has two answer rows and no quiz has more answer rows
    than [total_questions]: the unattempted count of the score breakdown is
    not negative.  The views alone never produce the excess of answers under
    which the scoring reports a negative count. *)
Theorem views_never_store_excess_answers w quiz_id quiz :
  reachable w →
  quizzes (db w) !! quiz_id = Some quiz →
  answers_unique (db w) ∧
  (length (quiz_answers (db w) quiz_id) ≤ Quiz.total_questions quiz)%nat ∧
  (0 ≤ unattempted_count (get_score_breakdown (db w) quiz_id quiz))%Z.
Proof.
  intros Hreach Hq. apply reachable_sound in Hreach.
  pose proof (sound_answers_le _ _ _ _ Hreach Hq) as Hle.
  split_and!; [by destruct Hreach | done | simpl; lia].
Qed.

Lemma views_never_store_excess_answers_witness :
  let w1 := (run (start_quiz (λ i, (7 * i + 5)%nat) (example_selection 2 all) 1)
               example_start).2 in
  let w2 := (run (take_quiz (example_post "next" (Some "d") None) 0) w1).2 in
  reachable w2 ∧ (length (quiz_answers (db w2) 0) ≤ 2)%nat.
Proof.
  intros w1 w2.
  assert (Hreach : reachable w2).
  { exists example_start. split; [by split_and!|].
    eapply rtc_l; [apply step_start_quiz|]. eapply rtc_l; [apply step_take_quiz|].
    apply rtc_refl. }
  split; [exact Hreach|].
  refine (proj1 (proj2 (views_never_store_excess_answers w2 0
                          {| Quiz.user := 7; Quiz.chapter := Some 1%nat; Quiz.book := None;
                             Quiz.title := "Sets Quiz"; Quiz.end_time := None;
                             Quiz.duration_minutes := 30; Quiz.score := None;
                             Quiz.total_questions := 2; Quiz.correct_answers := 0;
                             Quiz.is_completed := false |} Hreach _))).
  vm_compute. reflexivity.
Defined.

(** ** Bounds of the score *)

Lemma percentage_le_100 (raw t : Q) :
  (0 < t)%Q → (raw <= t)%Q → (raw / t * inject_Z 100 <= inject_Z 100)%Q.
Proof.
  intros Ht Hle.
  apply Qle_trans with (1 * inject_Z 100)%Q; [|rewrite Qmult_1_l; apply Qle_refl].
  apply Qmult_le_compat_r; [|discriminate].
  apply Qle_shift_div_r; [assumption|]. by rewrite Qmult_1_l.
Qed.

Lemma percentage_eq_100 (raw t : Q) :
  (0 < t)%Q → ((raw / t * inject_Z 100 == inject_Z 100)%Q ↔ (raw == t)%Q).
Proof.
  intros Ht. assert (Hne : ¬ (t == 0)%Q) by (intros E; rewrite E in Ht; discriminate).
  split; intros H.
  - assert (H1 : (raw / t == 1)%Q).
    { apply (Qmult_inj_r _ _ (inject_Z 100)); [discriminate|]. rewrite H. ring. }
    rewrite <- (Qmult_div_r raw t Hne). rewrite H1. ring.
  - rewrite H. field. assumption.
Qed.

Lemma raw_score_le_abstract (C W T : Q) :
  (C + W <= T)%Q → (0 <= W)%Q →
  (C * 1 + W * -(1 # 4) + 0 <= T * 1)%Q ∧
  ((C * 1 + W * -(1 # 4) + 0 == T * 1)%Q ↔ (C == T)%Q ∧ (W == 0)%Q).
Proof.
  intros Hc Hw. split; [lra|]. split.
  - intros E. split; apply Qle_antisym; lra.
  - intros [E1 E2]. lra.
Qed.

(** With no more answers than questions the raw score is at most the
    maximum, and equals it only when every question is answered correctly. *)
Lemma raw_score_of_le (c w : nat) (u : Z) (t : nat) :
  (c + w ≤ t)%nat →
  (raw_score_of c w u <= inject_Z (Z.of_nat t) * 1)%Q ∧
  ((raw_score_of c w u == inject_Z (Z.of_nat t) * 1)%Q ↔ c = t ∧ w = 0%nat).
Proof.
  intros H. unfold raw_score_of.
  assert (Hc : (inject_Z (Z.of_nat c) + inject_Z (Z.of_nat w) <= inject_Z (Z.of_nat t))%Q).
  { rewrite <- inject_Z_plus, <- Zle_Qle. lia. }
  assert (Hw : (0 <= inject_Z (Z.of_nat w))%Q) by (unfold Qle; simpl; lia).
  rewrite Z.mul_0_r. change (inject_Z 0) with 0%Q.
  destruct (raw_score_le_abstract _ _ _ Hc Hw) as [Hle Hiff]. split; [exact Hle|].
  rewrite Hiff. split.
  - intros [E1 E2]. unfold Qeq in E1, E2. simpl in E1, E2. split; lia.
  - intros [-> ->]. split; reflexivity.
Qed.

Lemma percentage_of_bounds (c w : nat) (u : Z) (t : nat) :
  (c + w ≤ t)%nat →
  let pct := percentage_of (raw_score_of c w u) (inject_Z (Z.of_nat t) * 1) in
  (0 <= pct)%Q ∧ (pct <= inject_Z 100)%Q ∧
  ((pct == inject_Z 100)%Q ↔ (0 < t)%nat ∧ c = t).
Proof.
  intros H pct. destruct (raw_score_of_le c w u t H) as [Hle Hiff].
  split; [apply percentage_of_nonneg|].
  unfold pct, percentage_of.
  destruct (Qlt_bool 0 (inject_Z (Z.of_nat t) * 1)) eqn:Ht.
  - apply Qlt_bool_iff in Ht.
    assert (Htpos : (0 < t)%nat).
    { destruct t; [|lia]. exfalso. revert Ht. by compute. }
    pose proof (percentage_le_100 _ _ Ht Hle) as Hx.
    pose proof (percentage_eq_100 (raw_score_of c w u) _ Ht) as Hxe.
    unfold py_max.
    destruct (Qlt_bool 0 (raw_score_of c w u / (inject_Z (Z.of_nat t) * 1) * inject_Z 100))
      eqn:Hpos.
    + split; [done|]. rewrite Hxe, Hiff. split; [by intros [-> _]|].
      intros [_ ->]. split; [done|lia].
    + split; [discriminate|]. split; [discriminate|].
      intros [_ ->]. exfalso.
      apply not_true_iff_false in Hpos. apply Hpos, Qlt_bool_iff.
      assert (w = 0%nat) as -> by lia.
      assert (E : (raw_score_of t 0 u == inject_Z (Z.of_nat t) * 1)%Q) by by apply Hiff.
      assert (Hx100 : (raw_score_of t 0 u / (inject_Z (Z.of_nat t) * 1) * inject_Z 100
                       == inject_Z 100)%Q) by by apply percentage_eq_100.
      rewrite Hx100. reflexivity.
  - split; [discriminate|]. split; [discriminate|].
    intros [Htpos _]. exfalso.
    apply not_true_iff_false in Ht. apply Ht, Qlt_bool_iff.
    rewrite Qmult_1_r. rewrite <- (Zlt_Qlt 0). lia.
Qed.

(** X11.  Sealing a quiz that has no more answers than questions stores a
    percentage between 0 and 100, which is 100 exactly when every question
    was answered correctly; the raw score does not exceed the maximum, the
    unattempted count is not negative and the stored number of correct
    answers does not exceed [total_questions]. *)
Theorem sealed_score_within_bounds now request quiz_id u quiz w :
  user request = Some u →
  Quiz_of_user (db w) quiz_id u = Some quiz →
  Quiz.is_completed quiz = false →
  (length (quiz_answers (db w) quiz_id) ≤ Quiz.total_questions quiz)%nat →
  ∃ ctx w' pct,
    run (quiz_results now request quiz_id) w = (RenderQuizResults ctx, w') ∧
    Quiz.score (qr_quiz ctx) = Some pct ∧
    (0 <= pct)%Q ∧ (pct <= inject_Z 100)%Q ∧
    ((pct == inject_Z 100)%Q ↔
     (0 < Quiz.total_questions quiz)%nat ∧
     qr_correct_count ctx = Quiz.total_questions quiz) ∧
    (qr_raw_score ctx <= qr_max_possible_score ctx)%Q ∧
    (0 ≤ qr_unattempted_count ctx)%Z ∧
    (Quiz.correct_answers (qr_quiz ctx) ≤ Quiz.total_questions quiz)%nat.
Proof.
  intros Hu Hq Hc Hle.
  destruct (quiz_results_open now request quiz_id u quiz w Hu Hq Hc)
    as (quiz' & w' & Hseal & Hrun).
  destruct (seal_quiz_run now quiz_id quiz w)
    as (quiz'' & w'' & Hseal' & Hdb & _ & _ & Htot & _ & _ & Hcorrect & Hscore).
  rewrite Hseal in Hseal'. injection Hseal' as <- <-.
  assert (Hrows : quiz_answers (db w') quiz_id = quiz_answers (db w) quiz_id)
    by by rewrite Hdb.
  pose proof (count_is_correct_partition (quiz_answers (db w) quiz_id)) as Hpart.
  set (c := count_is_correct true (quiz_answers (db w) quiz_id)) in *.
  set (wr := count_is_correct false (quiz_answers (db w) quiz_id)) in *.
  assert (Hcw : (c + wr ≤ Quiz.total_questions quiz)%nat) by lia.
  destruct (percentage_of_bounds c wr
              (Z.of_nat (Quiz.total_questions quiz)
               - Z.of_nat (length (quiz_answers (db w) quiz_id)))
              (Quiz.total_questions quiz) Hcw) as (H0 & H100 & Hiff).
  destruct (raw_score_of_le c wr
              (Z.of_nat (Quiz.total_questions quiz)
               - Z.of_nat (length (quiz_answers (db w) quiz_id)))
              (Quiz.total_questions quiz) Hcw) as [Hraw _].
  eexists _, w', _. split; [exact Hrun|].
  simpl. rewrite Hrows, Htot. fold c wr.
  split_and!; try done; lia.
Qed.

Lemma sealed_score_within_bounds_witness :
  ∃ ctx w' pct,
    run (quiz_results 100 example_get 1)
      (example_world (example_quiz 2 false)
         [example_answer 3 "b" true; example_answer 1 "c" true] ∅ 2)
    = (RenderQuizResults ctx, w') ∧
    Quiz.score (qr_quiz ctx) = Some pct ∧
    (pct == inject_Z 100)%Q.
Proof.
  destruct (sealed_score_within_bounds 100 example_get 1 7 (example_quiz 2 false)
              (example_world (example_quiz 2 false)
                 [example_answer 3 "b" true; example_answer 1 "c" true] ∅ 2))
    as (ctx & w' & pct & Hrun & Hscore & _ & _ & Hiff & _).
  - reflexivity.
  - reflexivity.
  - reflexivity.
  - vm_compute. lia.
  - exists ctx, w', pct. split_and!; try done.
    apply Hiff. split; [simpl; lia|].
    vm_compute in Hrun. by injection Hrun as <- _.
Defined.

(** ** A start view creates a whole quiz or nothing *)

Lemma QuizSelectionForm_errors_cleaned d cq bq data cleaned errs n :
  QuizSelectionForm_errors d cq bq data = (cleaned, errs) →
  cleaned_num_questions cleaned = Some n →
  num_questions data = Some n ∧ (1 ≤ n ≤ 50)%Z ∧
  cleaned_difficulty cleaned = difficulty data.
Proof.
  unfold QuizSelectionForm_errors, clean_fields. intros [= <- _]. simpl.
  destruct (num_questions data) as [m|]; [|done].
  destruct (Z.leb_spec 1 m); simpl; [|done].
  destruct (Z.leb_spec m 50); simpl; [|done].
  intros [= ->]. split_and!; try done; lia.
Qed.

Lemma start_quiz_for_outcome source rng request w :
  ∃ r w',
    run (start_quiz_for source rng request) w = (r, w') ∧
    match started r with
    | None =>
        db w' = db w ∧ session w' = session w ∧ ∀ e, r ≠ ServerError e
    | Some quiz_id =>
        ∃ u n f quiz ids,
          user request = Some u ∧
          method request = POST ∧
          num_questions (post request) = Some n ∧
          difficulty (post request) = Some f ∧
          (1 ≤ n ≤ 50)%Z ∧
          (n ≤ Z.of_nat (size (get_questions_for_source (db w) source f)))%Z ∧
          quizzes (db w) !! quiz_id = None ∧
          db w' = with_quizzes (db w) (<[quiz_id := quiz]> (quizzes (db w))) ∧
          Quiz.user quiz = u ∧
          Quiz.total_questions quiz = Z.to_nat n ∧
          Quiz.is_completed quiz = false ∧
          Quiz.score quiz = None ∧
          Quiz.end_time quiz = None ∧
          Quiz.correct_answers quiz = 0%nat ∧
          get_quiz_source quiz = Some source ∧
          quiz_either_chapter_or_book quiz = true ∧
          session_questions (session w')
          = <[quiz_id := ids]> (session_questions (session w)) ∧
          session_current (session w')
          = <[quiz_id := 0%Z]> (session_current (session w)) ∧
          length ids = Z.to_nat n ∧
          NoDup ids ∧
          (∀ id, id ∈ ids →
                 is_Some (get_questions_for_source (db w) source f !! id)) ∧
          (Z.to_nat n = size (get_questions_for_source (db w) source f) →
           ∀ id, is_Some (get_questions_for_source (db w) source f !! id) →
                 id ∈ ids) ∧
          messages w' = messages w
    end.
Proof.
  unfold run, start_quiz_for, Quiz_create. unfold_view.
  destruct (user request) as [u|] eqn:Hu; [|by eexists _, _]. cbn.
  destruct (source_exists (db w) source) as [source'|] eqn:Hs; [|by eexists _, _]. cbn.
  apply source_exists_inv in Hs as [-> _].
  destruct (method request) eqn:Hm; [by eexists _, _|].
  destruct (QuizSelectionForm_errors _ _ _ _) as [cleaned errs] eqn:Hform.
  destruct errs as [|e errs]; [|by eexists _, _].
  destruct (cleaned_num_questions cleaned) as [n|] eqn:Hn; [|by eexists _, _].
  destruct (QuizSelectionForm_errors_cleaned _ _ _ _ _ _ _ Hform Hn) as (Hnum & Hrange & Hd).
  destruct (cleaned_difficulty cleaned) as [f|] eqn:Hf; [|by eexists _, _].
  destruct (cleaned_duration_minutes cleaned) as [m|]; [|by eexists _, _].
  destruct (Z.ltb_spec (Z.of_nat (size (get_questions_for_source (db w) source f))) n);
    [by eexists _, _|].
  cbn.
  destruct (random_sample_permutation rng
              (map_to_list (get_questions_for_source (db w) source f)) n)
    as (questions & rest & -> & Hlen & Hperm);
    [rewrite length_map_to_list; lia |].
  pose proof (NoDup_fst_map_to_list (get_questions_for_source (db w) source f)) as Hnd.
  rewrite <- Hperm, fmap_app in Hnd. apply NoDup_app in Hnd as [Hnd _].
  cbn. eexists _, _. split; [reflexivity|]. simpl.
  eexists u, n, f, _, questions.*1. split_and!; try done; try lia.
  - apply not_elem_of_dom, is_fresh.
  - by destruct source.
  - by destruct source.
  - by rewrite length_fmap.
  - intros id Hid. apply list_elem_of_fmap in Hid as ([id' q] & -> & Hq).
    exists q. apply elem_of_map_to_list. rewrite <- Hperm. apply elem_of_app. by left.
  - intros Hall id [q Hq].
    assert (rest = []) as ->.
    { apply nil_length_inv. pose proof (Permutation_length Hperm) as Hl.
      rewrite length_app, length_map_to_list in Hl. lia. }
    rewrite app_nil_r in Hperm.
    apply list_elem_of_fmap. exists (id, q). split; [done|].
    rewrite Hperm. by apply elem_of_map_to_list.
Qed.

(** X12.  Whatever it is sent, a start view either announces a new quiz or leaves
    the database and the session untouched, and it never raises.  A new quiz
    is announced only to a logged-in user's POST whose count lies within
    1..50 and does not exceed the questions of the view's own chapter or book
    under the posted difficulty; the quiz is new, open, unscored, owned by
    the user and tied to that chapter or book alone, and the session gets its
    sequence of exactly that many distinct eligible ids with the cursor at 0;
    when the count is the number of eligible questions, every one of them is
    in the sequence. *)
Theorem start_quiz_all_or_nothing source rng request w :
  ∃ r w',
    run (start_quiz_for source rng request) w = (r, w') ∧
    match started r with
    | None =>
        db w' = db w ∧ session w' = session w ∧ ∀ e, r ≠ ServerError e
    | Some quiz_id =>
        ∃ u n f quiz ids,
          user request = Some u ∧
          method request = POST ∧
          num_questions (post request) = Some n ∧
          difficulty (post request) = Some f ∧
          (1 ≤ n ≤ 50)%Z ∧
          (n ≤ Z.of_nat (size (get_questions_for_source (db w) source f)))%Z ∧
          quizzes (db w) !! quiz_id = None ∧
          db w' = with_quizzes (db w) (<[quiz_id := quiz]> (quizzes (db w))) ∧
          Quiz.user quiz = u ∧
          Quiz.total_questions quiz = Z.to_nat n ∧
          Quiz.is_completed quiz = false ∧
          Quiz.score quiz = None ∧
          Quiz.end_time quiz = None ∧
          Quiz.correct_answers quiz = 0%nat ∧
          get_quiz_source quiz = Some source ∧
          quiz_either_chapter_or_book quiz = true ∧
          session_questions (session w')
          = <[quiz_id := ids]> (session_questions (session w)) ∧
          session_current (session w')
          = <[quiz_id := 0%Z]> (session_current (session w)) ∧
          length ids = Z.to_nat n ∧
          NoDup ids ∧
          (∀ id, id ∈ ids →
                 is_Some (get_questions_for_source (db w) source f !! id)) ∧
          (Z.to_nat n = size (get_questions_for_source (db w) source f) →
           ∀ id, is_Some (get_questions_for_source (db w) source f !! id) →
                 id ∈ ids) ∧
          messages w' = messages w
    end.
Proof. apply start_quiz_for_outcome. Qed.

(** ** Step-by-step runs *)

Section wp.
Context {A : Type} (Q : A → World → Prop) (E : Response → World → Prop).

Lemma wp_ret a w : Q a w → wp (mret a) Q E w.
Proof. done. Qed.

Lemma wp_respond r w : E r w → wp (respond r) Q E w.
Proof. done. Qed.

Lemma wp_raise e w : E (ServerError e) w → wp (raise e) Q E w.
Proof. done. Qed.

Lemma wp_bind {B} (m : View B) (k : B → View A) w :
  wp m (λ b w', wp (k b) Q E w') E w → wp (m ≫= k) Q E w.
Proof.
  unfold wp, mbind, View_bind, bind. by destruct (m w) as [[b|r] w'].
Qed.

End wp.

Lemma wp_get_db (Q : DB → World → Prop) E w : Q (db w) w → wp get_db Q E w.
Proof. done. Qed.

Lemma wp_get_session (Q : Session → World → Prop) E w :
  Q (session w) w → wp get_session Q E w.
Proof. done. Qed.

Lemma wp_put_db (Q : unit → World → Prop) E d w :
  Q tt {| db := d; session := session w; messages := messages w |} →
  wp (put_db d) Q E w.
Proof. done. Qed.

Lemma wp_put_session (Q : unit → World → Prop) E s w :
  Q tt {| db := db w; session := s; messages := messages w |} →
  wp (put_session s) Q E w.
Proof. done. Qed.

Lemma wp_add_message (Q : unit → World → Prop) E l t w :
  Q tt {| db := db w; session := session w;
          messages := (messages w ++ [ {| level := l; text := t |} ])%list |} →
  wp (add_message l t) Q E w.
Proof. done. Qed.

Lemma wp_run (v : View Response) (E : Response → World → Prop) w :
  wp v E E w → E (run v w).1 (run v w).2.
Proof. unfold wp, run. by destruct (v w) as [[r|r] w']. Qed.

Ltac wp_step :=
  lazymatch goal with
  | |- wp (mbind _ _) _ _ _ => apply wp_bind
  | |- wp (mret _) _ _ _ => apply wp_ret
  | |- wp (ret _) _ _ _ => apply wp_ret
  | |- wp (respond _) _ _ _ => apply wp_respond
  | |- wp (raise _) _ _ _ => apply wp_raise
  | |- wp get_db _ _ _ => apply wp_get_db
  | |- wp get_session _ _ _ => apply wp_get_session
  | |- wp (put_db _) _ _ _ => apply wp_put_db
  | |- wp (put_session _) _ _ _ => apply wp_put_session
  | |- wp (add_message _ _) _ _ _ => apply wp_add_message
  | |- wp (match ?x with _ => _ end) _ _ _ => destruct x eqn:?
  end;
  cbn beta.


Lemma wp_mono {A} (v : View A) (Q Q' : A → World → Prop) (E E' : Response → World → Prop) w :
  wp v Q E w → (∀ a w', Q a w' → Q' a w') → (∀ r w', E r w' → E' r w') →
  wp v Q' E' w.
Proof. unfold wp. destruct (v w) as [[a|r] w']; eauto. Qed.

Ltac wp_run := repeat wp_step; cbn [db session messages] in *.

(** ** lemmas on rows *)

Lemma QuizAnswer_get_exists d quiz question :
  QuizAnswer_get d quiz question ≠ DoesNotExist ↔
  ∃ row, row ∈ answers d ∧ answer_matches quiz question row = true.
Proof.
  unfold QuizAnswer_get. split.
  - intros H. destruct (List.filter _ _) as [|a l] eqn:E; [done|].
    exists a. rewrite list_elem_of_In.
    apply (List.filter_In (answer_matches quiz question)). rewrite E. by left.
  - intros (row & Hin & Hm).
    assert (Hf : List.In row (List.filter (answer_matches quiz question) (answers d))).
    { apply List.filter_In. split; [by apply list_elem_of_In|done]. }
    destruct (List.filter _ _) as [|a [|b l]]; [done|done|done].
Qed.


(** ** The rows, the statuses and the cursor stay consistent *)

Lemma backed_status_set d quiz question s :
  statuses_backed d →
  (is_answered s = true → QuizAnswer_get d quiz question ≠ DoesNotExist) →
  statuses_backed (with_statuses d (<[(quiz, question) := s]> (statuses d))).
Proof.
  intros H Hs q k s'. simpl. destruct (decide ((q, k) = (quiz, question))) as [[= -> ->]|Hne].
  - rewrite lookup_insert_eq. intros [= <-]. exact Hs.
  - rewrite lookup_insert_ne by done. apply H.
Qed.

Lemma backed_answers d l :
  statuses_backed d →
  (∀ quiz question s, statuses d !! (quiz, question) = Some s → is_answered s = true →
     ∀ row, row ∈ answers d → answer_matches quiz question row = true →
     ∃ row', row' ∈ l ∧ answer_matches quiz question row' = true) →
  statuses_backed (with_answers d l).
Proof.
  intros H Hl q k s Hs Ha. apply QuizAnswer_get_exists.
  destruct (proj1 (QuizAnswer_get_exists d q k) (H q k s Hs Ha)) as (row & Hin & Hm).
  by eapply Hl.
Qed.

Lemma backed_save d quiz question ua ok :
  statuses_backed d → statuses_backed (QuizAnswer_save quiz question ua ok d).
Proof.
  intros H. apply backed_answers; [done|]. intros q k s _ _ row Hin Hm.
  eexists. split; [apply list_elem_of_fmap; by eexists|].
  destruct (answer_matches quiz question row); done.
Qed.

Lemma backed_create d row :
  statuses_backed d → statuses_backed (QuizAnswer_create row d).
Proof.
  intros H. apply backed_answers; [done|]. intros q k s _ _ row' Hin Hm.
  exists row'. split; [|done]. apply elem_of_app. by left.
Qed.

(** Deleting the rows of a question keeps the statuses backed once the status
    of that question says it is not answered. *)
Lemma backed_delete d quiz question st :
  statuses_backed d →
  (∀ s, st !! (quiz, question) = Some s → is_answered s = false) →
  (∀ key, key ≠ (quiz, question) → st !! key = statuses d !! key) →
  statuses_backed (with_statuses (QuizAnswer_delete quiz question d) st).
Proof.
  intros H Hkey Hother q k s. simpl.
  destruct (decide ((q, k) = (quiz, question))) as [[= -> ->]|Hne].
  - intros Hs Ha. by rewrite (Hkey s Hs) in Ha.
  - rewrite Hother by done. intros Hs Ha.
    apply QuizAnswer_get_exists.
    destruct (proj1 (QuizAnswer_get_exists d q k) (H q k s Hs Ha)) as (row & Hin & Hm).
    exists row. split; [|done]. simpl.
    apply list_elem_of_In, List.filter_In. split; [by apply list_elem_of_In|].
    unfold answer_matches in *. apply andb_true_iff in Hm as [Hq Hk].
    apply Nat.eqb_eq in Hq, Hk. subst.
    destruct (Nat.eqb_spec (QuizAnswer.quiz row) quiz); [|done].
    destruct (Nat.eqb_spec (QuizAnswer.question row) question); [|done].
    destruct Hne. congruence.
Qed.

Lemma backed_delete_unanswered d quiz question :
  statuses_backed d →
  (∀ s, statuses d !! (quiz, question) = Some s → is_answered s = false) →
  statuses_backed (QuizAnswer_delete quiz question d).
Proof.
  intros H Hs.
  change (statuses_backed
            (with_statuses (QuizAnswer_delete quiz question d) (statuses d))).
  by apply backed_delete.
Qed.

Lemma cursor_sound_set s quiz_id ids c :
  cursor_sound s →
  session_questions s !! quiz_id = Some ids →
  (0 ≤ c ≤ Z.of_nat (length ids))%Z →
  cursor_sound {| session_questions := session_questions s;
                  session_current := <[quiz_id := c]> (session_current s) |}.
Proof.
  intros H Hids Hc q c'. simpl. destruct (decide (q = quiz_id)) as [->|Hne].
  - rewrite lookup_insert_eq. intros [= <-]. by exists ids.
  - rewrite lookup_insert_ne by done. apply H.
Qed.

Section actions.
Context (quiz_id question_id : nat).

Lemma wp_action_mark w :
  state_sound w →
  wp (action_mark_for_review quiz_id question_id)
    (λ _ w', state_sound w') (λ _ _, False) w.
Proof.
  intros (Hu & Hb & Hc). unfold action_mark_for_review, status_get_or_create.
  wp_run; (split_and!; [done| |done]); cbn [db session messages].
  - apply backed_status_set; [done|]. intros Ha. eapply Hb; [done|]. by destruct s.
  - by apply backed_status_set.
Qed.

Lemma wp_action_clear w :
  state_sound w →
  wp (action_clear_answer quiz_id question_id)
    (λ _ w', state_sound w') (λ _ _, False) w.
Proof.
  intros (Hu & Hb & Hc). unfold action_clear_answer.
  wp_run.
  all: try (by destruct (Hu quiz_id question_id)).
  all: split_and!; cbn [db session messages]; try done.
  all: try (by apply answers_unique_with_statuses, answers_unique_delete).
  all: try (by apply answers_unique_delete).
  all: try (apply backed_status_set; [done|done]).
  all: try (apply (backed_delete _ _ _ (<[_ := _]> (statuses (db w)))); [done| |];
            [intros s'; rewrite lookup_insert_eq; by intros [= <-]
            |intros key Hne; by rewrite lookup_insert_ne]).
  all: apply backed_delete_unanswered; [done|]; simpl in *; intros s';
    match goal with H : statuses _ !! _ = Some _ |- _ => rewrite H end;
    by intros [= <-].
Qed.

Lemma wp_action_next correct_answer user_answer question_ids current_index w :
  state_sound w →
  session_questions (session w) !! quiz_id = Some question_ids →
  (0 ≤ current_index < Z.of_nat (length question_ids))%Z →
  wp (action_next quiz_id question_id correct_answer user_answer question_ids
        current_index)
    (λ _ _, False)
    (λ r w', state_sound w' ∧ ∀ e, r ≠ ServerError e) w.
Proof.
  intros (Hu & Hb & Hc) Hids Hrange. unfold action_next, status_get_or_create.
  wp_run.
  all: try (by destruct (Hu quiz_id question_id)).
  all: (split; [|done]); split_and!; cbn [db session messages].
  all: try (apply cursor_sound_set with question_ids; [done|done|lia]).
  all: try (by apply answers_unique_with_statuses, answers_unique_save).
  all: try (by apply answers_unique_with_statuses, answers_unique_create).
  all: apply backed_status_set; auto using backed_save, backed_create; intros _.
  all: first [ erewrite QuizAnswer_get_save by done; done
             | erewrite QuizAnswer_get_create by done; done ].
Qed.

Lemma wp_action_jump_to param question_ids w :
  state_sound w →
  session_questions (session w) !! quiz_id = Some question_ids →
  wp (action_jump_to quiz_id param question_ids)
    (λ _ w', w' = w)
    (λ r w',
       match r with
       | ServerError e => e = ValueError ∧ param = Some not_an_int ∧ w' = w
       | _ => state_sound w'
       end) w.
Proof.
  intros (Hu & Hb & Hc) Hids. unfold action_jump_to.
  wp_run; try done.
  - split_and!; try done. cbn [db session messages].
    apply andb_true_iff in Heqb as [?%Z.leb_le ?%Z.ltb_lt].
    apply cursor_sound_set with question_ids; [done|done|lia].
  - split_and!; try done. by destruct param as [[]|].
Qed.

Lemma wp_take_quiz_render quiz question_ids current_index w :
  answers_unique (db w) →
  wp (take_quiz_render quiz quiz_id question_id question_ids current_index)
    (λ r w', w' = w ∧ ∃ ctx, r = RenderTakeQuiz ctx) (λ _ _, False) w.
Proof.
  intros Hu. unfold take_quiz_render. wp_run; try (by destruct (Hu quiz_id question_id)).
  all: split; [done|by eexists].
Qed.

End actions.

Lemma cursor_sound_live s quiz_id :
  cursor_sound s →
  bool_decide (default [] (session_questions s !! quiz_id) = [])
  || (Z.of_nat (length (default [] (session_questions s !! quiz_id)))
      <=? default 0 (session_current s !! quiz_id))%Z = false →
  ∃ ids, session_questions s !! quiz_id = Some ids ∧
         (0 ≤ default 0 (session_current s !! quiz_id) < Z.of_nat (length ids))%Z.
Proof.
  intros Hc Hlive. apply orb_false_iff in Hlive as [Hne Hlt].
  apply bool_decide_eq_false in Hne. apply Z.leb_gt in Hlt.
  destruct (session_questions s !! quiz_id) as [ids|] eqn:Hids; [|done].
  exists ids. split; [done|]. simpl in Hlt.
  destruct (session_current s !! quiz_id) as [c|] eqn:Hcur; simpl in *; [|lia].
  destruct (Hc _ _ Hcur) as (ids' & Hids' & ?). lia.
Qed.


Lemma wp_take_quiz_post data quiz_id question_id correct_answer question_ids
    current_index w :
  state_sound w →
  session_questions (session w) !! quiz_id = Some question_ids →
  (0 ≤ current_index < Z.of_nat (length question_ids))%Z →
  wp (take_quiz_post data quiz_id question_id correct_answer question_ids
        current_index)
    (λ _ w', state_sound w') (post_outcome data w) w.
Proof.
  intros Hs Hids Hrange. unfold take_quiz_post.
  assert (Htail : ∀ w', state_sound w' →
            wp (if negb (truthy (strip (default "" (answer data))))
                   && (default "next" (action data) =? "next")
                then add_message error "Please provide an answer."
                else mret ())
              (λ _ w'', state_sound w'') (post_outcome data w) w').
  { intros w' Hs'. wp_run; by destruct Hs' as (? & ? & ?). }
  apply wp_bind.
  destruct (default "next" (action data) =? "mark_for_review") eqn:Hmark.
  { eapply wp_mono; [by apply wp_action_mark | intros []; apply Htail | done]. }
  destruct (default "next" (action data) =? "clear_answer") eqn:Hclear.
  { eapply wp_mono; [by apply wp_action_clear | intros []; apply Htail | done]. }
  destruct ((default "next" (action data) =? "next")
            && truthy (strip (default "" (answer data)))) eqn:Hnext.
  { eapply wp_mono; [by apply wp_action_next | done |].
    intros r w' [Hs' Hr]. unfold post_outcome. destruct r; try done. by destruct (Hr e eq_refl). }
  destruct (default "next" (action data) =? "jump_to") eqn:Hjump.
  { eapply wp_mono; [by apply wp_action_jump_to | |].
    - intros [] w' ->. by apply Htail.
    - intros r w' Hr. unfold post_outcome. destruct r; try done.
      destruct Hr as (-> & Hp & ->). split_and!; try done.
      apply String.eqb_eq in Hjump. by destruct (action data) as [a|]; simplify_eq/=. }
  apply wp_ret. by apply Htail.
Qed.

Lemma wp_take_quiz request quiz_id w :
  state_sound w →
  wp (take_quiz request quiz_id)
    (λ r w', state_sound w' ∧
             ∀ e, r = ServerError e → e = ValueError ∧ bad_jump request ∧ w' = w)
    (λ r w', state_sound w' ∧
             ∀ e, r = ServerError e → e = ValueError ∧ bad_jump request ∧ w' = w) w.
Proof.
  intros Hs. unfold take_quiz, login_required, get_object_or_404.
  repeat wp_step; try done.
  - pose proof Hs as (Hu & _).
    eapply wp_mono; [by apply wp_take_quiz_render| |done].
    intros r w' [-> [ctx ->]]. done.
  - pose proof Hs as (_ & _ & Hc).
    destruct (cursor_sound_live _ quiz_id Hc) as (ids & Hids & Hrange); [done|].
    rewrite Hids. simpl default at 1 2.
    eapply wp_mono; [by apply wp_take_quiz_post| |].
    + intros [] w' Hs'. pose proof Hs' as (Hu & _).
      eapply wp_mono; [by apply wp_take_quiz_render| |done].
      intros r w'' [-> [ctx ->]]. done.
    + intros r w' Hr. unfold post_outcome in Hr. destruct r; try done.
      destruct Hr as (-> & ? & ? & ->). split; [done|]. intros e' [= <-]. by split_and!.
  - exfalso. pose proof Hs as (_ & _ & Hc).
    destruct (cursor_sound_live _ quiz_id Hc) as (ids & Hids & Hrange); [done|].
    rewrite Hids in *. simpl in *. unfold py_getitem in *.
    destruct (Z.leb_spec 0 (default 0%Z (session_current (session w) !! quiz_id))); [|lia].
    match goal with H : _ !! _ = None |- _ => apply lookup_ge_None in H end. lia.
Qed.

(** ** The other steps *)

Lemma cursor_sound_delete s quiz_id :
  cursor_sound s →
  cursor_sound {| session_questions := delete quiz_id (session_questions s);
                  session_current := delete quiz_id (session_current s) |}.
Proof.
  intros H q c. simpl. intros [Hne Hc]%lookup_delete_Some.
  destruct (H q c Hc) as (ids & Hids & ?). exists ids.
  split; [|done]. by apply lookup_delete_Some.
Qed.

Lemma cursor_sound_start s quiz_id ids :
  cursor_sound s →
  cursor_sound {| session_questions := <[quiz_id := ids]> (session_questions s);
                  session_current := <[quiz_id := 0%Z]> (session_current s) |}.
Proof.
  intros H q c. simpl. destruct (decide (q = quiz_id)) as [->|Hne].
  - rewrite !lookup_insert_eq. intros [= <-]. exists ids. split; [done|lia].
  - rewrite !lookup_insert_ne by done. apply H.
Qed.

Lemma state_sound_quizzes w q s :
  state_sound w → cursor_sound s →
  state_sound {| db := with_quizzes (db w) q; session := s; messages := messages w |}.
Proof. intros (Hu & Hb & _) Hc. by split_and!. Qed.

Lemma quiz_results_keeps_state_sound now request quiz_id w :
  state_sound w → state_sound (run (quiz_results now request quiz_id) w).2.
Proof.
  intros Hs.
  apply (wp_run _ (λ _ w', state_sound w')).
  unfold quiz_results, seal_quiz, login_required, get_object_or_404.
  wp_run; try done.
  apply (state_sound_quizzes w); [done|]. apply cursor_sound_delete. by destruct Hs as (_ & _ & ?).
Qed.

Lemma start_quiz_for_keeps_state_sound source rng request w :
  state_sound w → state_sound (run (start_quiz_for source rng request) w).2.
Proof.
  intros Hs.
  destruct (start_quiz_for_outcome source rng request w) as (r & w' & -> & Hout).
  simpl. destruct (started r) as [quiz_id|].
  - destruct Hout as (u & n & f & quiz & ids & Hout). destruct_and!.
    destruct w' as [d' s' m']. simpl in *. subst.
    destruct s' as [sq sc]. simpl in *. subst.
    apply (state_sound_quizzes w); [done|].
    apply cursor_sound_start. by destruct Hs as (_ & _ & ?).
  - destruct Hout as (Hd & Hse & _). destruct Hs as (? & ? & ?).
    unfold state_sound. by rewrite Hd, Hse.
Qed.

Lemma step_keeps_state_sound w w' : step w w' → state_sound w → state_sound w'.
Proof.
  intros Hstep Hs. destruct Hstep.
  - by apply start_quiz_for_keeps_state_sound.
  - by apply start_quiz_for_keeps_state_sound.
  - by apply (wp_run _ _ _ (wp_take_quiz request quiz_id w Hs)).
  - by apply quiz_results_keeps_state_sound.
  - destruct Hs as (? & ? & ?). by split_and!.
  - destruct Hs as (? & ? & ?). by split_and!.
Qed.

Lemma no_quiz_yet_state_sound w : no_quiz_yet w → state_sound w.
Proof.
  intros (Hq & Ha & Hst & Hs & Hc). split_and!.
  - intros q k. unfold QuizAnswer_get. by rewrite Ha.
  - intros q k s. by rewrite Hst, lookup_empty.
  - intros q c. by rewrite Hc, lookup_empty.
Qed.

Lemma reachable_state_sound w : reachable w → state_sound w.
Proof.
  intros (w0 & H0 & Hsteps). apply no_quiz_yet_state_sound in H0.
  induction Hsteps as [|w1 w2 w3 Hstep _ IH]; [done|].
  apply IH. by eapply step_keeps_state_sound.
Qed.

(** ** The stored quizzes *)

Lemma quiz_results_keeps_quizzes_sound now request quiz_id w :
  sequences_sound (db w) (session w) →
  quizzes_sound (db w) →
  quizzes_sound (db (run (quiz_results now request quiz_id) w).2).
Proof.
  intros Hseq Hs.
  apply (wp_run _ (λ _ w', quizzes_sound (db w'))).
  unfold quiz_results, seal_quiz, login_required, get_object_or_404.
  wp_run; try done.
  match goal with H : Quiz_of_user _ _ _ = Some _ |- _ =>
    apply Quiz_of_user_lookup in H as [Hq _] end.
  intros q quiz'. simpl. destruct (decide (q = quiz_id)) as [->|Hne].
  - rewrite lookup_insert_eq. intros [= <-].
    destruct (Hs _ _ Hq) as (Hsrc & Htotal & _).
    pose proof (sound_answers_le _ _ _ _ Hseq Hq) as Hle.
    pose proof (count_is_correct_partition (quiz_answers (db w) quiz_id)) as Hpart.
    split_and!; simpl; try done; try lia.
    split_and!; [by eexists | lia |].
    eexists. split; [done|].
    match goal with
    | |- context [percentage_of (raw_score_of ?c ?wr ?u) (inject_Z (Z.of_nat ?t) * 1)] =>
        destruct (percentage_of_bounds c wr u t) as (? & ? & _); [lia|done]
    end.
  - rewrite lookup_insert_ne by done. apply Hs.
Qed.

Lemma start_quiz_for_keeps_quizzes_sound source rng request w :
  quizzes_sound (db w) →
  quizzes_sound (db (run (start_quiz_for source rng request) w).2).
Proof.
  intros Hs.
  destruct (start_quiz_for_outcome source rng request w) as (r & w' & -> & Hout).
  simpl. destruct (started r) as [quiz_id|].
  - destruct Hout as (u & n & f & quiz & ids & Hout). destruct_and!.
    intros q quiz'.
    match goal with H : db w' = _ |- _ => rewrite H end. simpl.
    destruct (decide (q = quiz_id)) as [->|Hne].
    + rewrite lookup_insert_eq. intros [= <-].
      split_and!; try done; try lia.
      match goal with H : Quiz.is_completed quiz = false |- _ => rewrite H end. done.
    + rewrite lookup_insert_ne by done. apply Hs.
  - destruct Hout as (-> & _). done.
Qed.

Lemma step_keeps_quizzes_sound w w' :
  step w w' → sequences_sound (db w) (session w) → quizzes_sound (db w) →
  quizzes_sound (db w').
Proof.
  intros Hstep Hseq Hs. destruct Hstep.
  - by apply start_quiz_for_keeps_quizzes_sound.
  - by apply start_quiz_for_keeps_quizzes_sound.
  - destruct (take_quiz_frame request quiz_id w) as (Hq & _).
    unfold quizzes_sound. simpl in Hq. by rewrite Hq.
  - by apply quiz_results_keeps_quizzes_sound.
  - done.
  - done.
Qed.

Lemma reachable_quizzes_sound w : reachable w → quizzes_sound (db w).
Proof.
  intros (w0 & H0 & Hsteps).
  assert (H : sequences_sound (db w0) (session w0) ∧ quizzes_sound (db w0)).
  { split; [by apply no_quiz_yet_sound|]. destruct H0 as (Hq & _).
    intros q quiz. by rewrite Hq, lookup_empty. }
  clear H0. induction Hsteps as [|w1 w2 w3 Hstep _ IH]; [by destruct H|].
  apply IH. destruct H. split.
  - by eapply step_keeps_sequences_sound.
  - by eapply step_keeps_quizzes_sound.
Qed.

(** ** What holds on every site the views can reach *)

Lemma example_answered_reachable : reachable example_answered.
Proof.
  exists example_start. split; [by split_and!|].
  eapply rtc_l; [apply step_start_quiz|]. eapply rtc_l; [apply step_take_quiz|].
  apply rtc_refl.
Qed.

Lemma example_sealed_reachable : reachable example_sealed.
Proof.
  destruct example_answered_reachable as (w0 & H0 & Hsteps).
  exists w0. split; [done|]. eapply rtc_r; [exact Hsteps|]. apply step_quiz_results.
Qed.

(** X13.  On a site the views have brought about, [take_quiz] raises in one case
    only: a POST of the action [jump_to] whose [question_index] is not an
    integer raises [ValueError], and leaves the world as it was.  It never
    raises [IndexError] on the question sequence nor
    [MultipleObjectsReturned] on the answers. *)
Theorem take_quiz_raises_only_on_bad_jump w request quiz_id e :
  reachable w →
  (run (take_quiz request quiz_id) w).1 = ServerError e →
  e = ValueError ∧ bad_jump request ∧ (run (take_quiz request quiz_id) w).2 = w.
Proof.
  intros Hreach%reachable_state_sound Hr.
  by apply (wp_run _ _ _ (wp_take_quiz request quiz_id w Hreach)).
Qed.

Lemma take_quiz_raises_only_on_bad_jump_witness :
  bad_jump (example_post "jump_to" None (Some not_an_int)) ∧
  (run (take_quiz (example_post "jump_to" None (Some not_an_int)) 0) example_answered).2
  = example_answered.
Proof.
  refine (proj2 (take_quiz_raises_only_on_bad_jump example_answered
                   (example_post "jump_to" None (Some not_an_int)) 0 ValueError
                   example_answered_reachable _)).
  vm_compute. reflexivity.
Defined.

(** X14.  On a site the views have brought about, the cursor of a quiz is never
    negative and never beyond the end of the quiz's question sequence. *)
Theorem cursor_stays_within_sequence w quiz_id :
  reachable w →
  (0 ≤ cursor w quiz_id
   ≤ Z.of_nat (length (default [] (session_questions (session w) !! quiz_id))))%Z.
Proof.
  intros (_ & _ & Hc)%reachable_state_sound. unfold cursor.
  destruct (session_current (session w) !! quiz_id) as [c|] eqn:Hcur; simpl; [|lia].
  destruct (Hc _ _ Hcur) as (ids & -> & ?). done.
Qed.

Lemma cursor_stays_within_sequence_witness :
  (0 ≤ cursor example_answered 0
   ≤ Z.of_nat (length (default [] (session_questions (session example_answered) !! 0%nat))))%Z.
Proof.
  exact (cursor_stays_within_sequence example_answered 0 example_answered_reachable).
Defined.

(** X15.  On a site the views have brought about, a question whose status is
    'attempted' or 'answered_and_marked' has exactly one stored answer. *)
Theorem answered_status_has_one_answer w quiz question s :
  reachable w →
  statuses (db w) !! (quiz, question) = Some s →
  is_answered s = true →
  ∃ row, QuizAnswer_get (db w) quiz question = Got row.
Proof.
  intros (Hu & Hb & _)%reachable_state_sound Hs Ha.
  specialize (Hu quiz question). specialize (Hb _ _ _ Hs Ha).
  destruct (QuizAnswer_get (db w) quiz question) as [row| |]; [by exists row|done|done].
Qed.

Lemma answered_status_has_one_answer_witness :
  ∃ row, QuizAnswer_get (db example_answered) 0 2 = Got row.
Proof.
  apply (answered_status_has_one_answer example_answered 0 2 attempted
           example_answered_reachable).
  - vm_compute. reflexivity.
  - reflexivity.
Defined.

(** X16.  On a site the views have brought about, every stored quiz is tied to a
    chapter or a book and not both (the check constraint of the model, so
    [get_quiz_type] is never 'unknown' and [get_quiz_source] never [None]),
    and has 1 to 50 questions; an open quiz has no score and no end time, a
    completed one has an end time, a score between 0 and 100 and at most
    [total_questions] correct answers. *)
Theorem stored_quizzes_are_well_formed w quiz_id quiz :
  reachable w →
  quizzes (db w) !! quiz_id = Some quiz →
  quiz_sound quiz ∧
  get_quiz_type quiz ≠ "unknown" ∧
  is_Some (get_quiz_source quiz).
Proof.
  intros Hreach%reachable_quizzes_sound Hq.
  pose proof (Hreach _ _ Hq) as Hs. split; [done|].
  destruct Hs as (Hsrc & _). unfold quiz_either_chapter_or_book in Hsrc.
  unfold get_quiz_type, get_quiz_source.
  destruct (Quiz.chapter quiz), (Quiz.book quiz); try done; by split; [|eexists].
Qed.

Lemma stored_quizzes_are_well_formed_witness :
  ∃ quiz,
    quizzes (db example_sealed) !! 0%nat = Some quiz ∧
    quiz_sound quiz ∧
    get_quiz_type quiz ≠ "unknown" ∧
    is_Some (get_quiz_source quiz).
Proof.
  eexists. split; [vm_compute; reflexivity|].
  apply (stored_quizzes_are_well_formed example_sealed 0 _ example_sealed_reachable).
  vm_compute. reflexivity.
Defined.

(** ** Counting questions by chapter and by book *)

Lemma size_filter_insert {B} (P : nat * B → Prop) `{!∀ x, Decision (P x)}
    (m : gmap nat B) i x :
  m !! i = None →
  size (filter P (<[i := x]> m))
  = (size (filter P m) + (if decide (P (i, x)) then 1 else 0))%nat.
Proof.
  intros Hi. destruct (decide (P (i, x))) as [HP|HP].
  - rewrite map_filter_insert_True by done.
    rewrite map_size_insert_None; [lia|]. by rewrite map_lookup_filter_None; left.
  - rewrite map_filter_insert_not' ; [lia | done |]. intros y. by rewrite Hi.
Qed.

Lemma size_filter_ext {B} (P Q : nat * B → Prop) `{!∀ x, Decision (P x)}
    `{!∀ x, Decision (Q x)} (m : gmap nat B) :
  (∀ i x, m !! i = Some x → P (i, x) ↔ Q (i, x)) →
  size (filter P m) = size (filter Q m).
Proof. intros Hext. f_equal. by apply map_filter_ext. Qed.

Lemma sum_list_fmap_add {B} (f g : B → nat) l :
  sum_list ((λ x, f x + g x)%nat <$> l) = (sum_list (f <$> l) + sum_list (g <$> l))%nat.
Proof. induction l as [|x l IH]; csimpl; [done|]. rewrite IH. lia. Qed.

Lemma sum_list_fmap_ext {B} (f g : B → nat) l :
  (∀ x, x ∈ l → f x = g x) → sum_list (f <$> l) = sum_list (g <$> l).
Proof.
  induction l as [|x l IH]; intros H; csimpl; [done|].
  rewrite H by left. rewrite IH; [done|]. intros y Hy. apply H. by right.
Qed.

Lemma sum_list_key {B} (l : list (nat * B)) k :
  NoDup l.*1 →
  sum_list ((λ kv, if decide (k = kv.1) then 1 else 0)%nat <$> l)
  = if decide (k ∈ l.*1) then 1%nat else 0%nat.
Proof.
  induction l as [|[k' v] l IH]; intros Hnd; csimpl.
  - destruct (decide (k ∈ [])) as [H|]; [by apply elem_of_nil in H|done].
  - apply NoDup_cons in Hnd as [Hk' Hnd]. rewrite IH by done. simpl in *.
    destruct (decide (k = k')) as [->|Hne].
    + rewrite decide_False by done. rewrite decide_True by left. done.
    + destruct (decide (k ∈ l.*1)) as [Hin|Hin].
      * rewrite decide_True by (by right). done.
      * rewrite decide_False; [done|]. by intros [?|?]%elem_of_cons.
Qed.

Lemma chapter_questions_count_source d c :
  chapter_questions_count d c = size (get_questions_for_source d (SrcChapter c) all).
Proof. unfold chapter_questions_count, get_questions_for_source. by apply size_filter_ext. Qed.

Lemma book_questions_by_chapter d b (m : gmap nat Question.t) :
  size (filter (λ kv : nat * Question.t, in_source d (SrcBook b) kv.2) m)
  = sum_list ((λ cv : nat * Chapter.t,
                 size (filter (λ kv : nat * Question.t, Question.chapter kv.2 = cv.1) m))
                <$> map_to_list (book_chapters d b)).
Proof.
  induction m as [|i q m Hi IH] using map_ind.
  - rewrite map_filter_empty, map_size_empty.
    induction (map_to_list (book_chapters d b)) as [|cv l IHl]; simpl; [done|].
    by rewrite map_filter_empty, map_size_empty.
  - rewrite (sum_list_fmap_ext
               (λ cv, size (filter (λ kv : nat * Question.t, Question.chapter kv.2 = cv.1)
                              (<[i := q]> m)))
               (λ cv, size (filter (λ kv : nat * Question.t, Question.chapter kv.2 = cv.1) m)
                      + (if decide (Question.chapter q = cv.1) then 1 else 0))%nat).
    2:{ intros cv _. cbn beta. by rewrite size_filter_insert. }
    rewrite sum_list_fmap_add, <- IH, size_filter_insert by done. f_equal.
    rewrite sum_list_key by apply NoDup_fst_map_to_list.
    simpl. unfold book_chapters. apply decide_ext.
    rewrite list_elem_of_fmap. split.
    + destruct (chapters d !! Question.chapter q) as [ch|] eqn:Hch; [|done].
      intros Hb. exists (Question.chapter q, ch). split; [done|].
      by apply elem_of_map_to_list, map_lookup_filter_Some.
    + intros ([c ch'] & Hc & Hin).
      apply elem_of_map_to_list, map_lookup_filter_Some in Hin as [Hl Hb'].
      simpl in *. subst. by rewrite Hl.
Qed.

Lemma book_total_questions_source d b :
  book_total_questions d b = size (get_questions_for_source d (SrcBook b) all).
Proof.
  unfold book_total_questions, get_questions_for_source.
  by rewrite book_questions_by_chapter.
Qed.

Lemma size_filter_pos {B} (P : nat * B → Prop) `{!∀ x, Decision (P x)} (m : gmap nat B) :
  size (filter P m) ≠ 0%nat ↔ ∃ i x, m !! i = Some x ∧ P (i, x).
Proof.
  rewrite map_size_ne_0_lookup. split.
  - intros (i & x & Hx). apply map_lookup_filter_Some in Hx. by exists i, x.
  - intros (i & x & Hx). exists i, x. by apply map_lookup_filter_Some.
Qed.

Lemma source_size_pos d source :
  size (get_questions_for_source d source all) ≠ 0%nat ↔
  ∃ id q, questions d !! id = Some q ∧ in_source d source q.
Proof.
  rewrite map_size_ne_0_lookup. split.
  - intros (id & q & Hq). apply get_questions_for_source_lookup in Hq as (? & ? & _).
    by exists id, q.
  - intros (id & q & Hq & Hin). exists id, q.
    by apply get_questions_for_source_lookup.
Qed.

Lemma book_pool_lookup d b f id q :
  get_questions_for_source d (SrcBook b) f !! id = Some q ↔
  ∃ c ch, chapters d !! c = Some ch ∧ Chapter.book ch = b ∧
          get_questions_for_source d (SrcChapter c) f !! id = Some q.
Proof.
  rewrite get_questions_for_source_lookup. split.
  - intros (Hq & Hin & Hf). simpl in Hin.
    destruct (chapters d !! Question.chapter q) as [ch|] eqn:Hch; [|done].
    exists (Question.chapter q), ch. split_and!; try done.
    by apply get_questions_for_source_lookup.
  - intros (c & ch & Hch & Hb & Hq).
    apply get_questions_for_source_lookup in Hq as (Hq & Hin & Hf). simpl in Hin.
    split_and!; try done. simpl. by rewrite Hin, Hch.
Qed.

Lemma quiz_list_context request u w :
  user request = Some u →
  ∃ ctx,
    quiz_list request w = (Continue ctx, w) ∧
    (∀ c ch, ql_chapters ctx !! c = Some ch ↔
             chapters (db w) !! c = Some ch ∧
             size (get_questions_for_source (db w) (SrcChapter c) all) ≠ 0%nat) ∧
    (∀ b bk, ql_books ctx !! b = Some bk ↔
             books (db w) !! b = Some bk ∧
             size (get_questions_for_source (db w) (SrcBook b) all) ≠ 0%nat).
Proof.
  intros Hu. unfold quiz_list. unfold_view. rewrite Hu. simpl.
  eexists. split; [reflexivity|]. simpl. split.
  - intros c ch. rewrite map_lookup_filter_Some. simpl.
    by rewrite chapter_questions_count_source.
  - intros b bk. rewrite map_lookup_filter_Some. simpl.
    rewrite size_filter_pos, source_size_pos.
    split; intros [Hb H]; (split; [done|]).
    + destruct H as (c & ch & [Hch Hbook]%map_lookup_filter_Some & Hcount). simpl in *.
      rewrite chapter_questions_count_source in Hcount.
      apply source_size_pos in Hcount as (id & q & Hq & Hin). simpl in Hin.
      exists id, q. split; [done|]. simpl. by rewrite Hin, Hch.
    + destruct H as (id & q & Hq & Hin). simpl in Hin.
      destruct (chapters (db w) !! Question.chapter q) as [ch|] eqn:Hch; [|done].
      exists (Question.chapter q), ch. split.
      * by apply map_lookup_filter_Some.
      * simpl. rewrite chapter_questions_count_source. apply source_size_pos.
        by exists id, q.
Qed.

Lemma size_by_difficulty (m : gmap nat Question.t) :
  (size (filter (λ kv : nat * Question.t, Question.difficulty kv.2 = easy) m)
   + size (filter (λ kv : nat * Question.t, Question.difficulty kv.2 = medium) m)
   + size (filter (λ kv : nat * Question.t, Question.difficulty kv.2 = hard) m))%nat
  = size m.
Proof.
  induction m as [|i q m Hi IH] using map_ind.
  - by rewrite !map_filter_empty, map_size_empty.
  - rewrite !size_filter_insert, map_size_insert_None by done. simpl.
    destruct (Question.difficulty q); simpl;
      repeat (destruct (decide _) as [?|?]; try done); lia.
Qed.

Lemma start_quiz_for_get source rng request u w :
  user request = Some u →
  is_Some (source_exists (db w) source) →
  method request = GET →
  let total := size (get_questions_for_source (db w) source all) in
  ∃ ctx,
    run (start_quiz_for source rng request) w = (RenderStartQuiz ctx, w) ∧
    (easy_count ctx + medium_count ctx + hard_count ctx)%nat = total ∧
    form_initial_num_questions ctx = Some (10 `min` total)%nat ∧
    form_errors ctx = [].
Proof.
  intros Hu [source' Hs] Hm total. unfold run, start_quiz_for. unfold_view.
  rewrite Hu. cbn. rewrite Hs. cbn. rewrite Hm.
  apply source_exists_inv in Hs as [-> _].
  eexists. split; [reflexivity|]. simpl. split; [|done].
  unfold difficulty_count. apply size_by_difficulty.
Qed.

(** X17.  The pool of a book quiz is the union of the pools of the chapter quizzes
    of the book's chapters, under every difficulty filter: a question is
    eligible for the book exactly when it is eligible for one of the book's
    chapters. *)
Theorem book_pool_is_union_of_chapter_pools d b f id q :
  get_questions_for_source d (SrcBook b) f !! id = Some q ↔
  ∃ c ch, chapters d !! c = Some ch ∧ Chapter.book ch = b ∧
          get_questions_for_source d (SrcChapter c) f !! id = Some q.
Proof. apply book_pool_lookup. Qed.

(** X18.  The number of questions [books_list] shows for a book, summed chapter by
    chapter, is the number of questions a book quiz on it can draw from. *)
Theorem books_list_total_is_book_pool d b book total :
  books_list d !! b = Some (book, total) ↔
  books d !! b = Some book ∧
  total = size (get_questions_for_source d (SrcBook b) all).
Proof.
  unfold books_list. rewrite map_lookup_imap.
  rewrite <- book_total_questions_source.
  destruct (books d !! b) as [book'|]; simpl; [|by split; [|intros []]].
  split; [by intros [= -> ->] | by intros [[= ->] ->]].
Qed.

(** X19.  For a logged-in user, [quiz_list] offers exactly the chapters and the
    books that have a question to draw: a chapter (a book) is listed if and
    only if it exists and the pool of its chapter (book) quiz is not empty. *)
Theorem quiz_list_offers_sources_with_questions request u w :
  user request = Some u →
  ∃ ctx,
    quiz_list request w = (Continue ctx, w) ∧
    (∀ c ch, ql_chapters ctx !! c = Some ch ↔
             chapters (db w) !! c = Some ch ∧
             size (get_questions_for_source (db w) (SrcChapter c) all) ≠ 0%nat) ∧
    (∀ b bk, ql_books ctx !! b = Some bk ↔
             books (db w) !! b = Some bk ∧
             size (get_questions_for_source (db w) (SrcBook b) all) ≠ 0%nat).
Proof. apply quiz_list_context. Qed.

Lemma quiz_list_offers_sources_with_questions_witness :
  ∃ ctx,
    quiz_list example_get example_start = (Continue ctx, example_start) ∧
    (∀ c ch, ql_chapters ctx !! c = Some ch ↔
             chapters (db example_start) !! c = Some ch ∧
             size (get_questions_for_source (db example_start) (SrcChapter c) all) ≠ 0%nat) ∧
    (∀ b bk, ql_books ctx !! b = Some bk ↔
             books (db example_start) !! b = Some bk ∧
             size (get_questions_for_source (db example_start) (SrcBook b) all) ≠ 0%nat).
Proof.
  apply (quiz_list_offers_sources_with_questions example_get 7 example_start).
  reflexivity.
Defined.

(** X20.  A GET of a start page by a logged-in user for an existing chapter or
    book changes nothing and shows the form without errors; the three
    per-difficulty counts it shows add up to the number of questions of the
    source, and the suggested count is 10 or that number if it is smaller. *)
Theorem start_page_counts_add_up source rng request u w :
  user request = Some u →
  is_Some (source_exists (db w) source) →
  method request = GET →
  let total := size (get_questions_for_source (db w) source all) in
  ∃ ctx,
    run (start_quiz_for source rng request) w = (RenderStartQuiz ctx, w) ∧
    (easy_count ctx + medium_count ctx + hard_count ctx)%nat = total ∧
    form_initial_num_questions ctx = Some (10 `min` total)%nat ∧
    form_errors ctx = [].
Proof. apply start_quiz_for_get. Qed.

Lemma start_page_counts_add_up_witness :
  ∃ ctx,
    run (start_quiz_for (SrcChapter 1) (λ i, i) example_get) example_start
    = (RenderStartQuiz ctx, example_start) ∧
    (easy_count ctx + medium_count ctx + hard_count ctx)%nat = 4%nat ∧
    form_initial_num_questions ctx = Some 4%nat ∧
    form_errors ctx = [].
Proof.
  apply (start_page_counts_add_up (SrcChapter 1) (λ i, i) example_get 7 example_start).
  - reflexivity.
  - vm_compute. by eexists.
  - reflexivity.
Defined.

(** ** What [quiz_results] never writes *)

Lemma quiz_results_frame now request quiz_id w :
  let w' := (run (quiz_results now request quiz_id) w).2 in
  answers (db w') = answers (db w) ∧
  statuses (db w') = statuses (db w) ∧
  questions (db w') = questions (db w) ∧
  chapters (db w') = chapters (db w) ∧
  books (db w') = books (db w) ∧
  messages w' = messages w ∧
  ∀ other, other ≠ quiz_id →
    quizzes (db w') !! other = quizzes (db w) !! other ∧
    session_questions (session w') !! other = session_questions (session w) !! other ∧
    session_current (session w') !! other = session_current (session w) !! other.
Proof.
  apply (wp_run _ (λ _ w',
           answers (db w') = answers (db w) ∧
           statuses (db w') = statuses (db w) ∧
           questions (db w') = questions (db w) ∧
           chapters (db w') = chapters (db w) ∧
           books (db w') = books (db w) ∧
           messages w' = messages w ∧
           ∀ other, other ≠ quiz_id →
             quizzes (db w') !! other = quizzes (db w) !! other ∧
             session_questions (session w') !! other
             = session_questions (session w) !! other ∧
             session_current (session w') !! other
             = session_current (session w) !! other)).
  unfold quiz_results, seal_quiz, login_required, get_object_or_404.
  wp_run; split_and!; try done.
  intros other Hne. simpl.
  by rewrite lookup_insert_ne, !lookup_delete_ne.
Qed.

(** X21.  Whatever the request, [quiz_results] leaves the answers, the statuses,
    the questions, chapters and books and the messages as they were, and
    touches no other quiz: the row, the question sequence and the cursor of
    every quiz but the requested one are unchanged. *)
Theorem quiz_results_touches_one_quiz now request quiz_id w :
  let w' := (run (quiz_results now request quiz_id) w).2 in
  answers (db w') = answers (db w) ∧
  statuses (db w') = statuses (db w) ∧
  questions (db w') = questions (db w) ∧
  chapters (db w') = chapters (db w) ∧
  books (db w') = books (db w) ∧
  messages w' = messages w ∧
  ∀ other, other ≠ quiz_id →
    quizzes (db w') !! other = quizzes (db w) !! other ∧
    session_questions (session w') !! other = session_questions (session w) !! other ∧
    session_current (session w') !! other = session_current (session w) !! other.
Proof. apply quiz_results_frame. Qed.

(** ** [clean_questions_json]: what an upload must look like *)

Lemma difficulty_map_get_choice n :
  difficulty_map_get n ∈ ["easy"; "medium"; "hard"].
Proof.
  unfold difficulty_map_get.
  destruct n as [|p|p]; [set_solver| |set_solver].
  do 3 (destruct p as [p|p|]; try set_solver).
Qed.

Lemma find_required_None (q : gmap string JSON) :
  List.find (λ field, bool_decide (¬ is_Some (q !! field))) required_fields = None →
  is_Some (q !! "question_text") ∧ is_Some (q !! "correct_answer") ∧
  is_Some (q !! "options").
Proof.
  unfold required_fields. simpl.
  destruct (q !! "question_text"); [|done].
  destruct (q !! "correct_answer"); [|done].
  destruct (q !! "options"); [|done]. intros _. by split_and!.
Qed.

Lemma clean_question_Valid i question q :
  clean_question i question = Valid q →
  storable q ∧
  ∃ m, question = JObject m ∧ ¬ difficulty_refused m.
Proof.
  unfold clean_question. destruct question as [| | | | | |m]; try done.
  destruct (List.find _ _) eqn:Hreq; [done|].
  apply find_required_None in Hreq as (Htext & Hanswer & Hoptions).
  destruct (convert_new_format m !! "options") as [[| | | | | |options]|] eqn:Hopt; try done.
  assert (Hrefused : ∀ v, convert_new_format m !! "difficulty" = Some v → as_int v ≠ None →
                          ¬ difficulty_refused m).
  { intros v Hv Hint (v0 & Hv0 & Hbad). unfold convert_new_format, convert_difficulty in Hv.
    destruct Hbad as [Hbad|[[text Htextq] [answer Hanswerq]]].
    - destruct (m !! "question"), (m !! "answer");
        repeat (case_match; simplify_map_eq/=); try done; congruence.
    - rewrite Htextq, Hanswerq in Hv.
      repeat (case_match; simplify_map_eq/=); try done. }
  destruct (convert_new_format m !! "difficulty") as [v|] eqn:Hd.
  - destruct (as_int v) as [n|] eqn:Hn; [|done]. intros [= <-]. split.
    + split_and!.
      * by rewrite lookup_insert_ne.
      * by rewrite lookup_insert_ne.
      * exists options. by rewrite lookup_insert_ne.
      * right. eexists. rewrite lookup_insert_eq. split; [done|].
        apply difficulty_map_get_choice.
    + exists m. split; [done|]. apply (Hrefused v); [done|]. by rewrite Hn.
  - intros [= <-]. split.
    + split_and!; try done; [by exists options | by left].
    + exists m. split; [done|]. intros (v0 & Hv0 & Hbad).
      unfold convert_new_format, convert_difficulty in Hd.
      destruct (m !! "question"), (m !! "answer");
        repeat (case_match; simplify_map_eq/=); try done; congruence.
Qed.

Lemma clean_questions_Valid items : ∀ i qs,
  clean_questions i items = Valid qs →
  length qs = length items ∧
  Forall storable qs ∧
  Forall (λ item, ∃ m, item = JObject m ∧ ¬ difficulty_refused m) items.
Proof.
  induction items as [|item items IH]; intros i qs; simpl.
  - intros [= <-]. by split_and!.
  - destruct (clean_question i item) as [q| |] eqn:Hq; try done.
    destruct (clean_questions (S i) items) as [qs'| |] eqn:Hqs; try done.
    intros [= <-]. apply clean_question_Valid in Hq as [Hst Hm].
    destruct (IH _ _ Hqs) as (Hlen & Hall & Hitems).
    split_and!; [simpl; by rewrite Hlen | by constructor | by constructor].
Qed.

Lemma convert_new_format_fields m key :
  key ≠ "difficulty" →
  is_Some (convert_new_format m !! key) ↔
  is_Some (m !! key) ∨
  (new_format m ∧ (key = "question_text" ∨ key = "correct_answer")).
Proof.
  intros Hkey. unfold convert_new_format, convert_difficulty, new_format.
  destruct (m !! "question") as [text|] eqn:Ht; [|split; [by left|by intros [?|[[[? ?] ?] ?]]]].
  destruct (m !! "answer") as [answer|] eqn:Ha; [|split; [by left|by intros [?|[[? [? ?]] ?]]]].
  destruct (decide (key = "question_text")) as [->|Hk1];
    [|destruct (decide (key = "correct_answer")) as [->|Hk2]];
    repeat (case_match; simplify_map_eq/=);
    (split; [intros ?; first [by left | right; by eauto]
            |intros [?|[_ [?|?]]]; by eauto]).
Qed.

Lemma convert_new_format_options m :
  convert_new_format m !! "options" = m !! "options".
Proof.
  unfold convert_new_format, convert_difficulty.
  repeat (case_match; simplify_map_eq/=); done.
Qed.

Lemma convert_new_format_difficulty m :
  convert_new_format m !! "difficulty"
  = match m !! "difficulty" with
    | Some v =>
        match as_int v with
        | Some n =>
            if decide (new_format m) then Some (JString (difficulty_map_get n)) else Some v
        | None => Some v
        end
    | None => None
    end.
Proof.
  destruct (m !! "difficulty") as [v|] eqn:Hv.
  - destruct (as_int v) as [n|] eqn:Hn.
    + destruct (decide (new_format m)) as [[[text Ht] [answer Ha]]|Hnew];
        unfold convert_new_format, convert_difficulty.
      * rewrite Ht, Ha. repeat (case_match; simplify_map_eq/=); done.
      * destruct (m !! "question") as [text|] eqn:Ht; [|done].
        destruct (m !! "answer") as [answer|] eqn:Ha; [|done].
        destruct Hnew. split; by eexists.
    + unfold convert_new_format, convert_difficulty.
      repeat (case_match; simplify_map_eq/=); done.
  - unfold convert_new_format, convert_difficulty.
    repeat (case_match; simplify_map_eq/=); done.
Qed.

Lemma find_required_fields_ok m :
  fields_ok m →
  List.find (λ field, bool_decide (¬ is_Some (convert_new_format m !! field)))
    required_fields = None.
Proof.
  intros (Ht & Ha & options & Ho).
  assert (H1 : is_Some (convert_new_format m !! "question_text")).
  { apply convert_new_format_fields; [done|]. destruct Ht; [by left|right; by eauto]. }
  assert (H2 : is_Some (convert_new_format m !! "correct_answer")).
  { apply convert_new_format_fields; [done|]. destruct Ha; [by left|right; by eauto]. }
  assert (H3 : is_Some (convert_new_format m !! "options")).
  { rewrite convert_new_format_options, Ho. by eexists. }
  unfold required_fields. simpl.
  destruct H1 as [? ->], H2 as [? ->], H3 as [? ->]. done.
Qed.

Lemma fields_ok_of_required m options :
  List.find (λ field, bool_decide (¬ is_Some (convert_new_format m !! field)))
    required_fields = None →
  convert_new_format m !! "options" = Some (JObject options) →
  fields_ok m.
Proof.
  intros (Ht & Ha & _)%find_required_None Ho.
  apply (convert_new_format_fields m "question_text" ltac:(done)) in Ht.
  apply (convert_new_format_fields m "correct_answer" ltac:(done)) in Ha.
  rewrite convert_new_format_options in Ho.
  split_and!; [tauto | tauto | by exists options].
Qed.

(** How [clean_question] ends on an object, case by case. *)
Lemma clean_question_refused i m :
  fields_ok m → difficulty_refused m → clean_question i (JObject m) = NameError.
Proof.
  intros Hok (v & Hv & Hbad). unfold clean_question.
  rewrite find_required_fields_ok by done.
  destruct Hok as (_ & _ & options & Ho).
  rewrite convert_new_format_options, Ho, convert_new_format_difficulty, Hv.
  destruct (as_int v) as [n|] eqn:Hn; simpl; [|by rewrite Hn].
  destruct Hbad as [?|Hnew]; [done|]. by rewrite decide_True.
Qed.

Lemma clean_question_accepted i m :
  fields_ok m → ¬ difficulty_refused m → ∃ q, clean_question i (JObject m) = Valid q.
Proof.
  intros Hok Hgood. unfold clean_question.
  rewrite find_required_fields_ok by done.
  destruct Hok as (_ & _ & options & Ho).
  rewrite convert_new_format_options, Ho, convert_new_format_difficulty.
  destruct (m !! "difficulty") as [v|] eqn:Hv; [|by eexists].
  destruct (as_int v) as [n|] eqn:Hn.
  - rewrite decide_False; [rewrite Hn; by eexists|].
    intros Hnew. apply Hgood. exists v. split; [done|]. by right.
  - destruct Hgood. exists v. split; [done|]. by left.
Qed.

Lemma clean_question_Valid_fields_ok i question q :
  clean_question i question = Valid q →
  ∃ m, question = JObject m ∧ fields_ok m ∧ ¬ difficulty_refused m.
Proof.
  intros Hq. destruct (clean_question_Valid _ _ _ Hq) as (_ & m & -> & Hgood).
  exists m. split_and!; [done| |done].
  unfold clean_question in Hq.
  destruct (List.find _ _) eqn:Hreq; [done|].
  destruct (convert_new_format m !! "options") as [[| | | | | |options]|] eqn:Hopt; try done.
  by eapply fields_ok_of_required.
Qed.

Lemma clean_questions_accepted items : ∀ i,
  (∃ qs, clean_questions i items = Valid qs) ↔
  Forall (λ item, ∃ m, item = JObject m ∧ fields_ok m ∧ ¬ difficulty_refused m) items.
Proof.
  induction items as [|item items IH]; intros i; simpl.
  - split; [by constructor|by eexists].
  - split.
    + intros [qs Hqs].
      destruct (clean_question i item) as [q| |] eqn:Hq; try done.
      destruct (clean_questions (S i) items) as [qs'| |] eqn:Hqs'; try done.
      constructor; [by eapply clean_question_Valid_fields_ok|].
      apply (IH (S i)). by eexists.
    + intros [(m & -> & Hok & Hgood) Hrest]%Forall_cons.
      destruct (clean_question_accepted i m Hok Hgood) as [q ->].
      apply (IH (S i)) in Hrest as [qs ->]. by eexists.
Qed.

Lemma difficulty_refused_or_not m : difficulty_refused m ∨ ¬ difficulty_refused m.
Proof.
  unfold difficulty_refused.
  destruct (m !! "difficulty") as [v|]; [|right; by intros (? & ? & _)].
  destruct (as_int v) as [n|] eqn:Hn; [|left; exists v; by auto].
  destruct (decide (new_format m)) as [Hnew|Hnew]; [left; exists v; by auto|].
  right. intros (v' & [= <-] & [?|?]); [congruence|done].
Qed.

Lemma clean_questions_crash items : ∀ i,
  Forall (λ item, ∃ m, item = JObject m ∧ fields_ok m) items →
  Exists (λ item, ∃ m, item = JObject m ∧ difficulty_refused m) items →
  clean_questions i items = NameError.
Proof.
  induction items as [|item items IH]; intros i Hok Hbad; simpl.
  - by apply Exists_nil in Hbad.
  - apply Forall_cons in Hok as [(m & -> & Hok) Hrest].
    destruct (difficulty_refused_or_not m) as [Hr|Hr].
    + by rewrite clean_question_refused.
    + destruct (clean_question_accepted i m Hok Hr) as [q ->].
      apply Exists_cons in Hbad as [(m' & [= <-] & ?)|Hbad]; [done|].
      by rewrite IH.
Qed.

(** X22.  What [clean_questions_json] returns can be stored: the value was a list,
    one question is returned for each of its items, and each has a question
    text, a correct answer, a dictionary of options and a difficulty that is
    absent or one of 'easy', 'medium' and 'hard'. *)
Theorem accepted_upload_is_storable loaded qs :
  clean_questions_json loaded = Valid qs →
  ∃ items, loaded = inr (JList items) ∧
           length qs = length items ∧
           Forall storable qs.
Proof.
  unfold clean_questions_json.
  destruct loaded as [e|[| | | | |items|]]; try done.
  intros (Hlen & Hst & _)%clean_questions_Valid. by exists items.
Qed.

Lemma accepted_upload_is_storable_witness :
  ∃ qs, clean_questions_json (inr upload_example) = Valid qs ∧
        ∃ items, inr (A := string) upload_example = inr (JList items) ∧
                 length qs = length items ∧
                 Forall storable qs.
Proof.
  eexists. split; [vm_compute; reflexivity|].
  apply accepted_upload_is_storable. vm_compute. reflexivity.
Defined.

(** X23.  A list of questions is accepted exactly when every item is an object
    that has its text and its answer (under the keys of either format) and a
    dictionary of options, and whose difficulty, if it has one, is an integer
    (or a boolean) in a question that does not have both keys 'question' and
    'answer'. *)
Theorem upload_is_accepted_iff items :
  (∃ qs, clean_questions_json (inr (JList items)) = Valid qs) ↔
  Forall (λ item, ∃ m, item = JObject m ∧ fields_ok m ∧ ¬ difficulty_refused m) items.
Proof. apply clean_questions_accepted. Qed.

(** X24.  An upload whose questions all have their fields, one of them with a
    difficulty that is not an integer, or with any difficulty beside the keys
    'question' and 'answer', is not reported as a form error: the method
    raises [NameError].  The example the form shows as its placeholder is
    such an upload. *)
Theorem upload_with_refused_difficulty_crashes items :
  Forall (λ item, ∃ m, item = JObject m ∧ fields_ok m) items →
  Exists (λ item, ∃ m, item = JObject m ∧ difficulty_refused m) items →
  clean_questions_json (inr (JList items)) = NameError.
Proof. apply clean_questions_crash. Qed.

Lemma upload_with_refused_difficulty_crashes_witness :
  clean_questions_json (inr upload_placeholder) = NameError.
Proof.
  apply upload_with_refused_difficulty_crashes.
  - apply Forall_cons. split; [|by apply Forall_nil].
    eexists. split; [reflexivity|].
    split_and!; [right | right | eexists; vm_compute; reflexivity];
      (split; eexists; vm_compute; reflexivity).
  - apply Exists_cons. left. eexists. split; [reflexivity|].
    exists (JInt 2). split; [vm_compute; reflexivity|].
    right. split; eexists; vm_compute; reflexivity.
Defined.

(** ** The admin columns and the duration filter *)






Lemma substring_0_idem n (s : string) :
  String.substring 0 n (String.substring 0 n s) = String.substring 0 n s.
Proof.
  revert s. induction n as [|n IH]; intros s; destruct s as [|c s]; simpl; try done.
  by rewrite IH.
Qed.


Lemma app_is_dash (a b : string) :
  a +:+ b = "-" → (a = "" ∧ b = "-") ∨ (a = "-" ∧ b = "").
Proof.
  destruct a as [|c a]; simpl; [by left|].
  intros [= -> H]. destruct a; [|done]. simpl in H. right. by subst.
Qed.

Lemma quot_million_neg d : (d ÷ 1000000 < 0)%Z ↔ (d ≤ -1000000)%Z.
Proof.
  Z.to_euclidean_division_equations. lia.
Qed.

Lemma duration_display_dash start_time end_time :
  duration_display start_time end_time = "-" ↔
  match start_time, end_time with
  | Some s, Some e => (e - s ≤ -1000000)%Z
  | _, _ => True
  end.
Proof.
  unfold duration_display.
  destruct start_time as [s|], end_time as [e|]; try done.
  rewrite <- quot_million_neg.
  destruct (Z.ltb_spec ((e - s) ÷ 1000000) 0) as [Hneg|Hpos]; [done|].
  split; [|lia]. intros H. exfalso.
  repeat case_match; apply app_is_dash in H as [[_ H]|[_ H]]; try done.
Qed.

Lemma duration_display_under_a_second s e :
  (-1000000 < e - s < 1000000)%Z → duration_display (Some s) (Some e) = "0s".
Proof.
  intros H. unfold duration_display.
  assert ((e - s) ÷ 1000000 = 0)%Z as ->; [|done].
  apply Z.quot_small_iff; lia.
Qed.


(** X26.  [duration_display] shows '-' exactly when one of the two times is
    missing or the end lies a whole second or more before the start; an end
    less than a second away from the start, before it or after it, shows
    '0s'. *)
Theorem duration_display_dash_iff start_time end_time :
  (duration_display start_time end_time = "-" ↔
   match start_time, end_time with
   | Some s, Some e => (e - s ≤ -1000000)%Z
   | _, _ => True
   end) ∧
  ∀ s e, start_time = Some s → end_time = Some e →
         (-1000000 < e - s < 1000000)%Z →
         duration_display start_time end_time = "0s".
Proof.
  split; [apply duration_display_dash|].
  intros s e -> ->. apply duration_display_under_a_second.
Qed.
